(** * Platform-chain state core: weight diffs, validator-set replay, commit.

    A shallow embedding of [vms/platformvm/state/state.go] and
    [vms/platformvm/validators/set.go].  Unsigned 64-bit integers are
    integers in [0, 2^64) with the wrap-around written out; Go maps are
    finite maps ([gmap]) or, where the code ranges over them, the list of
    their entries in iteration order; a Go method that mutates its receiver
    and returns an error is a function returning the new receiver together
    with the error. *)

From Stdlib Require Import ZArith List Bool Lia Permutation.
From stdpp Require Import gmap list fin_maps.
Import ListNotations.

Local Open Scope Z_scope.

(* ================================================================== *)
(** * Part I: definitions                                              *)
(* ================================================================== *)

(** ** Machine integers *)

Definition MaxUint64 : Z := 2 ^ 64 - 1.

Definition uint64 (x : Z) : Prop := 0 <= x <= MaxUint64.

Definition wrap64 (x : Z) : Z := x mod 2 ^ 64.

(** ** Errors *)

Inductive error : Type :=
| ErrOverflow            (* safemath.ErrOverflow *)
| ErrUnderflow           (* safemath.ErrUnderflow *)
| ErrNotFound            (* database.ErrNotFound *)
| ErrClosed              (* database.ErrClosed *)
| ErrWrongNetworkID      (* avax.ErrWrongNetworkID *)
| ErrMissingValidatorSet (* validators.ErrMissingValidatorSet *)
| ErrWrongTxType         (* fmt.Errorf("expected tx type ...") *)
| ErrWrapped (context : nat) (cause : error) (* fmt.Errorf("...: %w", err) *)
| ErrOther (code : nat). (* any other error of a collaborator *)

Inductive result (A : Type) : Type :=
| Ok (a : A)
| Err (e : error).
Arguments Ok {A} a.
Arguments Err {A} e.

(** ** Checked arithmetic *)

Module safemath.

(** Modelled from the spec: the package utils/math is not part of the
    sources at hand.  Accumulation "fails with an arithmetic error if
    [it] would overflow a 64-bit unsigned range"; the value returned next
    to the error is the zero value. *)
Definition Add64 (a b : Z) : Z * option error :=
  if a >? wrap64 (MaxUint64 - b) then (0, Some ErrOverflow)
  else (wrap64 (a + b), None).

(** Modelled from the spec: subtraction below zero is the "underflow"
    arithmetic error. *)
Definition Sub (a b : Z) : Z * option error :=
  if a <? b then (0, Some ErrUnderflow)
  else (wrap64 (a - b), None).

(** Modelled from the spec: "the smaller is subtracted from the larger". *)
Definition AbsDiff (a b : Z) : Z := wrap64 (Z.max a b - Z.min a b).

End safemath.

(** ** ValidatorWeightDiff *)

Record ValidatorWeightDiff : Type := mkDiff {
  Decrease : bool;
  Amount : Z
}.

(** [v.Add(negative, amount)]: the receiver after the call and the error. *)
Definition Add (v : ValidatorWeightDiff) (negative : bool) (amount : Z)
  : ValidatorWeightDiff * option error :=
  if Bool.eqb (Decrease v) negative then
    let '(sum, err) := safemath.Add64 (Amount v) amount in
    (mkDiff (Decrease v) sum, err)
  else if Amount v >? amount then
    (mkDiff (Decrease v) (wrap64 (Amount v - amount)), None)
  else
    (mkDiff negative (safemath.AbsDiff (Amount v) amount), None).

(** The zero value of the struct. *)
Definition zeroDiff : ValidatorWeightDiff := mkDiff false 0.

(** A sequence of [Add] calls on one receiver, stopping at the first error
    as every caller does. *)
Fixpoint AddAll (v : ValidatorWeightDiff) (calls : list (bool * Z))
  : ValidatorWeightDiff * option error :=
  match calls with
  | [] => (v, None)
  | (negative, amount) :: rest =>
      match Add v negative amount with
      | (v', None) => AddAll v' rest
      | (v', Some e) => (v', Some e)
      end
  end.

(** The signed change a diff stands for. *)
Definition net (v : ValidatorWeightDiff) : Z :=
  if Decrease v then - Amount v else Amount v.

(** The signed change one call asks for. *)
Definition delta (c : bool * Z) : Z :=
  if fst c then - snd c else snd c.

Definition total (calls : list (bool * Z)) : Z :=
  fold_right (fun c acc => delta c + acc) 0 calls.

Definition amounts (calls : list (bool * Z)) : Z :=
  fold_right (fun c acc => snd c + acc) 0 calls.

(** The combination rule as the specification words it: equal signs add;
    unequal signs subtract the smaller amount from the larger one, and the
    flag takes the new sign exactly when [amount] was the larger. *)
Definition Add_as_stated (v : ValidatorWeightDiff) (negative : bool)
    (amount : Z) : Prop :=
  let v' := fst (Add v negative amount) in
  (Decrease v = negative -> Amount v' = Amount v + amount) /\
  (Decrease v <> negative ->
     Amount v' = Z.abs (Amount v - amount) /\
     (Decrease v' = negative <-> Amount v < amount)).

(** ** Identifiers and validator records *)

(** [ids.ID] is a 32-byte array and [ids.NodeID] a 20-byte array; both are
    read as big-endian naturals, so that they can key finite maps. *)
Abbreviation ID := N (only parsing).
Abbreviation NodeID := N (only parsing).

(** [ids.Empty], the all-zero ID; [constants.PrimaryNetworkID] is the same
    value. *)
Definition ids_Empty : ID := 0%N.
Definition PrimaryNetworkID : ID := ids_Empty.

(** A serialized BLS public key; [*bls.PublicKey] is an optional one. *)
Definition blsPublicKey : Type := list Z.

(** [validators.GetValidatorOutput]. *)
Record GetValidatorOutput : Type := mkOut {
  out_NodeID : NodeID;
  out_PublicKey : option blsPublicKey;
  out_Weight : Z
}.

(** [validators.Validator], an element of [validators.Set.List()]. *)
Record Validator : Type := mkValidator {
  vdr_NodeID : NodeID;
  vdr_PublicKey : option blsPublicKey;
  vdr_TxID : ID;
  vdr_Weight : Z
}.

(** ** Replaying one weight diff (state.go, [applyWeightDiff]) *)

Definition setWeight (vdr : GetValidatorOutput) (w : Z) : GetValidatorOutput :=
  mkOut (out_NodeID vdr) (out_PublicKey vdr) w.

Definition setPublicKey (vdr : GetValidatorOutput) (pk : option blsPublicKey)
  : GetValidatorOutput :=
  mkOut (out_NodeID vdr) pk (out_Weight vdr).

(** [vdrs] maps node IDs to pointers; the assignment to [vdr.Weight] is seen
    through the map, also when the arithmetic fails. *)
Definition applyWeightDiff (vdrs : gmap N GetValidatorOutput) (nodeID : NodeID)
    (weightDiff : ValidatorWeightDiff)
  : gmap N GetValidatorOutput * option error :=
  let '(vdr, vdrs) :=
    match vdrs !! nodeID with
    | Some vdr => (vdr, vdrs)
    | None =>
        (* This node isn't in the current validator set. *)
        let vdr := mkOut nodeID None 0 in
        (vdr, <[nodeID := vdr]> vdrs)
    end in
  let '(w, err) :=
    if Decrease weightDiff
    then safemath.Add64 (out_Weight vdr) (Amount weightDiff)
    else safemath.Sub (out_Weight vdr) (Amount weightDiff) in
  let vdrs := <[nodeID := setWeight vdr w]> vdrs in
  match err with
  | Some e => (vdrs, Some e)
  | None =>
      if w =? 0 then (delete nodeID vdrs, None) else (vdrs, None)
  end.

(** ** The validator-set reconstructor (validators/set.go) *)

(** A stateless block, as far as the reconstructor looks at it. *)
Record Block : Type := mkBlock {
  blk_ID : ID;
  blk_Height : Z
}.

(** The methods of the [state.State] interface that set.go calls.  The two
    diff getters return Go maps; they are given as the list of entries in
    the order the [range] loop visits them. *)
Record State : Type := mkState {
  GetLastAccepted : ID;
  GetStatelessBlock : ID -> result Block;
  GetValidatorWeightDiffs : Z -> ID -> result (list (NodeID * ValidatorWeightDiff));
  GetValidatorPublicKeyDiffs : Z -> result (list (NodeID * option blsPublicKey));
  ValidatorSet : ID -> result (list Validator)
}.

(** [config.Config], as far as the reconstructor reads it: the validator
    manager (each subnet's [Set.List()]) and the tracked subnets. *)
Record Config : Type := mkConfig {
  UseCurrentHeight : bool;
  Validators : gmap N (list Validator);
  TrackedSubnets : gset N
}.

Definition validatorSetsCacheSize : nat := 64.

Module LRU.

(** Modelled from the spec: package cache is not part of the sources at
    hand; results are "cached by height with a bounded LRU".  The entries
    are kept most recently used first, at most [Size] of them. *)
Record t (V : Type) : Type := mk {
  Size : nat;
  entries : list (Z * V)
}.
Arguments mk {V} Size entries.
Arguments Size {V} _.
Arguments entries {V} _.

Definition drop {V} (key : Z) (l : list (Z * V)) : list (Z * V) :=
  List.filter (fun e => negb (fst e =? key)) l.

Definition find {V} (key : Z) (l : list (Z * V)) : option V :=
  option_map snd (List.find (fun e => fst e =? key) l).

Definition Get {V} (key : Z) (c : t V) : option V * t V :=
  match find key (entries c) with
  | Some v => (Some v, mk (Size c) ((key, v) :: drop key (entries c)))
  | None => (None, c)
  end.

Definition Put {V} (key : Z) (v : V) (c : t V) : t V :=
  mk (Size c) (firstn (Size c) ((key, v) :: drop key (entries c))).

End LRU.

(** The [set] struct of set.go (metrics and clock only feed counters and
    are left out). *)
Record set : Type := mkSet {
  cfg : Config;
  st : State;
  caches : gmap N (LRU.t (gmap N GetValidatorOutput))
}.

(** [getCache]: the cache of [subnetID], created if missing and registered
    only for the primary network and for tracked subnets. *)
Definition getCache (vs : set) (subnetID : ID)
  : LRU.t (gmap N GetValidatorOutput) * set :=
  match caches vs !! subnetID with
  | Some validatorSetsCache => (validatorSetsCache, vs)
  | None =>
      let validatorSetsCache := LRU.mk validatorSetsCacheSize [] in
      if (subnetID =? PrimaryNetworkID)%N
         || bool_decide (subnetID ∈ TrackedSubnets (cfg vs))
      then (validatorSetsCache,
            mkSet (cfg vs) (st vs) (<[subnetID := validatorSetsCache]> (caches vs)))
      else (validatorSetsCache, vs)
  end.

(** The cache is a pointer: what [Get] and [Put] do to it is seen through
    [vs.caches] when the cache is registered there, and lost otherwise. *)
Definition storeCache (vs : set) (subnetID : ID)
    (c : LRU.t (gmap N GetValidatorOutput)) : set :=
  match caches vs !! subnetID with
  | Some _ => mkSet (cfg vs) (st vs) (<[subnetID := c]> (caches vs))
  | None => vs
  end.

Definition GetCurrentHeight (vs : set) : result Z :=
  let lastAcceptedID := GetLastAccepted (st vs) in
  match GetStatelessBlock (st vs) lastAcceptedID with
  | Err e => Err e
  | Ok lastAccepted => Ok (blk_Height lastAccepted)
  end.

(** [Set.Get(nodeID)] on a validator list. *)
Definition getValidator (l : list Validator) (nodeID : NodeID) : option Validator :=
  List.find (fun v => (vdr_NodeID v =? nodeID)%N) l.

(** Lines 172-178: the subnet's live validators, from the manager or, for a
    subnet it does not hold, from the state. *)
Definition currentSubnetValidators (vs : set) (subnetID : ID)
  : result (list Validator) :=
  match Validators (cfg vs) !! subnetID with
  | Some l => Ok l
  | None => ValidatorSet (st vs) subnetID
  end.

(** Lines 185-198: the output map of the live validators, with the keys of
    the primary network. *)
Fixpoint currentVdrSet (currentPrimaryNetworkValidators : list Validator)
    (currentSubnetValidatorList : list Validator)
    (vdrSet : gmap N GetValidatorOutput) : result (gmap N GetValidatorOutput) :=
  match currentSubnetValidatorList with
  | [] => Ok vdrSet
  | vdr :: rest =>
      match getValidator currentPrimaryNetworkValidators (vdr_NodeID vdr) with
      | None => Err (ErrWrapped 0 ErrMissingValidatorSet)
      | Some primaryVdr =>
          currentVdrSet currentPrimaryNetworkValidators rest
            (<[vdr_NodeID vdr :=
                 mkOut (vdr_NodeID vdr) (vdr_PublicKey primaryVdr) (vdr_Weight vdr)]>
               vdrSet)
      end
  end.

(** Lines 206-239: the body of the loop over one height's weight diffs, as
    set.go writes it (with [op]). *)
Definition weightDiffStep (vdrSet : gmap N GetValidatorOutput)
    (nodeID : NodeID) (weightDiff : ValidatorWeightDiff)
  : gmap N GetValidatorOutput * option error :=
  let '(vdr, vdrSet) :=
    match vdrSet !! nodeID with
    | Some vdr => (vdr, vdrSet)
    | None =>
        let vdr := mkOut nodeID None 0 in
        (vdr, <[nodeID := vdr]> vdrSet)
    end in
  let op := if Decrease weightDiff then safemath.Add64 else safemath.Sub in
  let '(w, err) := op (out_Weight vdr) (Amount weightDiff) in
  let vdrSet := <[nodeID := setWeight vdr w]> vdrSet in
  match err with
  | Some e => (vdrSet, Some e)
  | None =>
      if w =? 0 then (delete nodeID vdrSet, None) else (vdrSet, None)
  end.

Fixpoint applyWeightDiffs (vdrSet : gmap N GetValidatorOutput)
    (weightDiffs : list (NodeID * ValidatorWeightDiff))
  : result (gmap N GetValidatorOutput) :=
  match weightDiffs with
  | [] => Ok vdrSet
  | (nodeID, weightDiff) :: rest =>
      match weightDiffStep vdrSet nodeID weightDiff with
      | (_, Some e) => Err e
      | (vdrSet, None) => applyWeightDiffs vdrSet rest
      end
  end.

(** Lines 246-255: public-key diffs only touch nodes present in the map. *)
Fixpoint applyPublicKeyDiffs (vdrSet : gmap N GetValidatorOutput)
    (pkDiffs : list (NodeID * option blsPublicKey))
  : gmap N GetValidatorOutput :=
  match pkDiffs with
  | [] => vdrSet
  | (nodeID, pk) :: rest =>
      match vdrSet !! nodeID with
      | Some vdr =>
          applyPublicKeyDiffs (<[nodeID := setPublicKey vdr pk]> vdrSet) rest
      | None => applyPublicKeyDiffs vdrSet rest
      end
  end.

(** Lines 200-256: [for i := lastAcceptedHeight; i > height; i--], as a
    recursion on the number [n] of heights still to undo. *)
Fixpoint replay (s : State) (subnetID : ID) (n : nat) (i : Z)
    (vdrSet : gmap N GetValidatorOutput) : result (gmap N GetValidatorOutput) :=
  match n with
  | O => Ok vdrSet
  | S n' =>
      match GetValidatorWeightDiffs s i subnetID with
      | Err e => Err e
      | Ok weightDiffs =>
          match applyWeightDiffs vdrSet weightDiffs with
          | Err e => Err e
          | Ok vdrSet =>
              match GetValidatorPublicKeyDiffs s i with
              | Err e => Err e
              | Ok pkDiffs =>
                  replay s subnetID n' (i - 1) (applyPublicKeyDiffs vdrSet pkDiffs)
              end
          end
      end
  end.

(** Lines 161-256: the computation done on a cache miss. *)
Definition computeValidatorSet (vs : set) (height : Z) (subnetID : ID)
  : result (gmap N GetValidatorOutput) :=
  match GetCurrentHeight vs with
  | Err e => Err e
  | Ok lastAcceptedHeight =>
      if lastAcceptedHeight <? height then Err ErrNotFound
      else
        match currentSubnetValidators vs subnetID with
        | Err e => Err e
        | Ok currentSubnetValidatorList =>
            match Validators (cfg vs) !! PrimaryNetworkID with
            | None => Err ErrMissingValidatorSet
            | Some currentPrimaryNetworkValidators =>
                match currentVdrSet currentPrimaryNetworkValidators
                        currentSubnetValidatorList ∅ with
                | Err e => Err e
                | Ok vdrSet =>
                    replay (st vs) subnetID
                      (Z.to_nat (lastAcceptedHeight - height))
                      lastAcceptedHeight vdrSet
                end
            end
        end
  end.

(** [GetValidatorSet]: the result, and the receiver after the call. *)
Definition GetValidatorSet (vs : set) (height : Z) (subnetID : ID)
  : result (gmap N GetValidatorOutput) * set :=
  let '(validatorSetsCache, vs) := getCache vs subnetID in
  match LRU.Get height validatorSetsCache with
  | (Some validatorSet, validatorSetsCache) =>
      (Ok validatorSet, storeCache vs subnetID validatorSetsCache)
  | (None, _) =>
      match computeValidatorSet vs height subnetID with
      | Err e => (Err e, vs)
      | Ok vdrSet =>
          (Ok vdrSet,
           storeCache vs subnetID (LRU.Put height vdrSet validatorSetsCache))
      end
  end.

(** ** Invariants of the reconstructor *)

Definition nonzero_weights (m : gmap N GetValidatorOutput) : Prop :=
  forall nodeID vdr, m !! nodeID = Some vdr -> out_Weight vdr <> 0.

(** Every cached pair of a height and a validator set satisfies [P]. *)
Definition caches_all (P : Z -> gmap N GetValidatorOutput -> Prop)
    (vs : set) : Prop :=
  forall subnetID c h m,
    caches vs !! subnetID = Some c -> In (h, m) (LRU.entries c) -> P h m.

(** Every cached validator set is free of zero weights. *)
Definition caches_nonzero (vs : set) : Prop :=
  caches_all (fun _ m => nonzero_weights m) vs.

(** The validator manager holds no validator of weight zero (its [Add]
    refuses a zero weight and [RemoveWeight] drops a validator whose weight
    reaches zero). *)
Definition validators_nonzero (vs : set) (subnetID : ID) : Prop :=
  forall l, currentSubnetValidators vs subnetID = Ok l ->
    Forall (fun v => vdr_Weight v <> 0) l.

(** Every cached height is at most [h]: a set is cached only once the
    last accepted height has reached its height. *)
Definition cached_heights_le (vs : set) (h : Z) : Prop :=
  caches_all (fun h' _ => h' <= h) vs.

(** ** The transactional base database *)

Module versiondb.

(** Modelled from the spec: package database/versiondb is not part of the
    sources at hand.  Writes are staged in memory ([mem], where [None] is a
    staged deletion) over the underlying store [db]; [CommitBatch] turns
    the staged writes into a batch, writing the batch flushes it to the
    underlying store, and [Abort] "discards staged changes without
    touching the persisted" store.  A closed database refuses reads and
    writes. *)
Record Database : Type := mk {
  mem : gmap (list Z) (option (list Z));
  db : gmap (list Z) (list Z);
  closed : bool
}.

(** A batch holds one operation per staged key. *)
Abbreviation Batch := (gmap (list Z) (option (list Z))) (only parsing).

Definition Has (key : list Z) (d : Database) : bool * option error :=
  if closed d then (false, Some ErrClosed)
  else
    match mem d !! key with
    | Some (Some _) => (true, None)
    | Some None => (false, None)
    | None => (bool_decide (is_Some (db d !! key)), None)
    end.

Definition Put (key value : list Z) (d : Database) : Database * option error :=
  if closed d then (d, Some ErrClosed)
  else (mk (<[key := Some value]> (mem d)) (db d) (closed d), None).

Definition CommitBatch (d : Database) : result Batch :=
  if closed d then Err ErrClosed else Ok (mem d).

Definition applyOp (op : option (option (list Z))) (old : option (list Z))
  : option (list Z) :=
  match op with
  | Some (Some value) => Some value
  | Some None => None
  | None => old
  end.

(** [batch.Write()]. *)
Definition Write (batch : Batch) (d : Database) : Database * option error :=
  if closed d then (d, Some ErrClosed)
  else (mk (mem d) (merge applyOp batch (db d)) (closed d), None).

Definition Abort (d : Database) : Database := mk ∅ (db d) (closed d).

End versiondb.

(** The sections of the base database, [prefixdb.New(prefix, baseDB)]. *)
Definition merkleSingletonPrefix : list Z := [1].
Definition merkleWeightDiffPrefix : list Z := [6].
Definition merkleBlsKeyDiffPrefix : list Z := [7].

(** [[]byte("initialized")]. *)
Definition initializedKey : list Z :=
  [105; 110; 105; 116; 105; 97; 108; 105; 122; 101; 100].

(** Modelled from the spec: package database/prefixdb is not part of the
    sources at hand; "binary-prefixed sections within one underlying
    store".  A key of a section is the prefix followed by the key. *)
Definition prefixed (prefix key : list Z) : list Z := prefix ++ key.

(** ** Diff-log encodings *)

(** The [n] low bytes of [x], most significant first. *)
Fixpoint be_bytes (n : nat) (x : Z) : list Z :=
  match n with
  | O => []
  | S n' => Z.land (Z.shiftr x (8 * Z.of_nat n')) 255 :: be_bytes n' x
  end.

(** Modelled from the spec: the diff-log encodings are not part of the
    sources at hand.  The key is [subnetID ‖ invertedHeight ‖ nodeID], the
    height being stored as the "bitwise complement of the 8-byte
    big-endian height". *)
Definition marshalDiffKey (subnetID : ID) (height : Z) (nodeID : NodeID)
  : list Z :=
  be_bytes 32 (Z.of_N subnetID)
    ++ be_bytes 8 (Z.lxor height MaxUint64)
    ++ be_bytes 20 (Z.of_N nodeID).

(** Modelled from the spec: "1 byte sign/flag + 8 bytes amount". *)
Definition marshalWeightDiff (diff : ValidatorWeightDiff) : list Z :=
  (if Decrease diff then 1 else 0) :: be_bytes 8 (Amount diff).

(** ** Transactions, stakers and genesis *)

(** The fields of a validator transaction that the state reads. *)
Record ValidatorTx : Type := mkValidatorTx {
  vtx_NodeID : NodeID;
  vtx_SubnetID : ID;
  vtx_StartTime : Z;
  vtx_EndTime : Z;
  vtx_Weight : Z;
  vtx_PublicKey : option blsPublicKey
}.

(** The dynamic type of [tx.Unsigned], each with the network ID of its
    base transaction. *)
Inductive UnsignedTx : Type :=
| CreateChainTx (networkID : Z) (subnetID : ID)
| AddValidatorTx (networkID : Z) (validatorTx : ValidatorTx)
| OtherTx (networkID : Z).

Record Tx : Type := mkTx {
  tx_ID : ID;
  tx_Unsigned : UnsignedTx;
  tx_Bytes : list Z
}.

Definition tx_NetworkID (tx : Tx) : Z :=
  match tx_Unsigned tx with
  | CreateChainTx networkID _ => networkID
  | AddValidatorTx networkID _ => networkID
  | OtherTx networkID => networkID
  end.

Inductive Status : Type := Unknown | Committed | Aborted | Processing | Dropped.

Record UTXO : Type := mkUTXO {
  utxo_InputID : ID;
  utxo_Bytes : list Z
}.

(** Modelled from the spec (section 3, Staker): staker.go is not part of
    the sources at hand. *)
Record Staker : Type := mkStaker {
  staker_TxID : ID;
  staker_NodeID : NodeID;
  staker_PublicKey : option blsPublicKey;
  staker_SubnetID : ID;
  staker_Weight : Z;
  staker_StartTime : Z;
  staker_EndTime : Z;
  staker_PotentialReward : Z
}.

Inductive diffValidatorStatus : Type := unmodified | added | deleted.

(** Modelled from the spec (section 4.1): stakers.go is not part of the
    sources at hand.  A diff records "{status: added|deleted, validator
    snapshot, addedDelegators, deletedDelegators}"; the delegators are
    given in the order the loops visit them. *)
Record diffValidator : Type := mkDiffValidator {
  validatorStatus : diffValidatorStatus;
  validator : option Staker;
  addedDelegators : list Staker;
  deletedDelegators : list Staker
}.

(** Modelled from the spec (section 4.1): the live validator of each
    (subnet, node) and the diffs since the last commit, keyed by subnet and
    then by node. *)
Record baseStakers : Type := mkBaseStakers {
  validators : gmap (N * N) Staker;
  validatorDiffs : gmap N (gmap N diffValidator)
}.

Definition newBaseStakers : baseStakers := mkBaseStakers ∅ ∅.

(** Modelled from the spec (section 4.1): [PutValidator] sets the entry and
    records the validator as added in the diff of its (subnet, node). *)
Definition PutValidator (v : baseStakers) (staker : Staker) : baseStakers :=
  let subnetDiffs := default ∅ (validatorDiffs v !! staker_SubnetID staker) in
  let validatorDiff :=
    default (mkDiffValidator unmodified None [] [])
            (subnetDiffs !! staker_NodeID staker) in
  mkBaseStakers
    (<[(staker_SubnetID staker, staker_NodeID staker) := staker]> (validators v))
    (<[staker_SubnetID staker :=
         <[staker_NodeID staker :=
             mkDiffValidator added (Some staker)
               (addedDelegators validatorDiff) (deletedDelegators validatorDiff)]>
           subnetDiffs]>
       (validatorDiffs v)).

(** [genesis.Genesis]. *)
Record Genesis : Type := mkGenesis {
  gen_UTXOs : list UTXO;
  gen_Validators : list Tx;
  gen_Chains : list Tx;
  gen_Timestamp : Z;
  gen_InitialSupply : Z
}.

(** [stakersData]: [TxBytes] ([None] for nil) and [PotentialReward]. *)
Record stakersData : Type := mkStakersData {
  TxBytes : option (list Z);
  PotentialReward : Z
}.

Record uptimes : Type := mkUptimes {
  Duration : Z;
  LastUpdated : Z
}.

(** ** The state struct *)

(** The staging fields of [state] and its base database.  The bounded
    caches and the merkle trie are reached through [Collaborators] below. *)
Record state : Type := mkstate {
  ctx_NetworkID : Z;
  baseDB : versiondb.Database;
  currentStakers : baseStakers;
  pendingStakers : baseStakers;
  delegateeRewardCache : gmap (N * N) Z;
  modifiedDelegateeReward : gset (N * N);
  modifiedUTXOs : gmap N (option UTXO);
  chainTime : Z;
  lastAcceptedBlkID : ID;
  lastAcceptedHeight : Z;
  modifiedSupplies : gmap N Z;
  addedChains : gmap N (list Tx);
  addedBlocks : gmap N Block;
  addedTxs : gmap N (Tx * Status);
  localUptimesCache : gmap (N * N) uptimes;
  modifiedLocalUptimes : gset (N * N)
}.

Definition set_baseDB (s : state) (d : versiondb.Database) : state :=
  mkstate (ctx_NetworkID s) d (currentStakers s) (pendingStakers s)
    (delegateeRewardCache s) (modifiedDelegateeReward s) (modifiedUTXOs s)
    (chainTime s) (lastAcceptedBlkID s) (lastAcceptedHeight s)
    (modifiedSupplies s) (addedChains s) (addedBlocks s) (addedTxs s)
    (localUptimesCache s) (modifiedLocalUptimes s).

Definition set_currentStakers (s : state) (v : baseStakers) : state :=
  mkstate (ctx_NetworkID s) (baseDB s) v (pendingStakers s)
    (delegateeRewardCache s) (modifiedDelegateeReward s) (modifiedUTXOs s)
    (chainTime s) (lastAcceptedBlkID s) (lastAcceptedHeight s)
    (modifiedSupplies s) (addedChains s) (addedBlocks s) (addedTxs s)
    (localUptimesCache s) (modifiedLocalUptimes s).

Definition set_pendingStakers (s : state) (v : baseStakers) : state :=
  mkstate (ctx_NetworkID s) (baseDB s) (currentStakers s) v
    (delegateeRewardCache s) (modifiedDelegateeReward s) (modifiedUTXOs s)
    (chainTime s) (lastAcceptedBlkID s) (lastAcceptedHeight s)
    (modifiedSupplies s) (addedChains s) (addedBlocks s) (addedTxs s)
    (localUptimesCache s) (modifiedLocalUptimes s).

(** The interfaces and packages the state is built on and that are not
    part of this development: the reward calculator, the staker
    constructor, the genesis parser, the read-through of transactions and
    supplies (bounded cache, then merkle trie), the sections of [write]
    that go through the merkle trie, the codec or the validator manager,
    and [load]. *)
Record Collaborators : Type := mkCollaborators {
  rewards_Calculate : Z -> Z -> Z -> Z;
  NewCurrentStaker : ID -> ValidatorTx -> Z -> result Staker;
  ComputeHash256Array : list Z -> ID;
  NewApricotCommitBlock : ID -> Z -> result Block;
  genesis_Parse : list Z -> result Genesis;
  loadTx : state -> ID -> result Tx;
  loadSupply : state -> ID -> result Z;
  writeMerkleState :
    gmap N stakersData -> gmap N stakersData -> state -> state * option error;
  writeBlocks : state -> state * option error;
  writeTxs : state -> state * option error;
  writeLocalUptimes : state -> state * option error;
  writeRewardUTXOs : state -> state * option error;
  updateValidatorSet :
    bool -> gmap (N * N) diffValidator -> gmap (N * N) ValidatorWeightDiff ->
    state -> state * option error;
  load : state -> state * option error
}.

(** ** Staging (state.go, the Put/Add/Set methods) *)

Definition SetLastAccepted (s : state) (lastAccepted : ID) : state :=
  mkstate (ctx_NetworkID s) (baseDB s) (currentStakers s) (pendingStakers s)
    (delegateeRewardCache s) (modifiedDelegateeReward s) (modifiedUTXOs s)
    (chainTime s) lastAccepted (lastAcceptedHeight s)
    (modifiedSupplies s) (addedChains s) (addedBlocks s) (addedTxs s)
    (localUptimesCache s) (modifiedLocalUptimes s).

Definition SetTimestamp (s : state) (tm : Z) : state :=
  mkstate (ctx_NetworkID s) (baseDB s) (currentStakers s) (pendingStakers s)
    (delegateeRewardCache s) (modifiedDelegateeReward s) (modifiedUTXOs s)
    tm (lastAcceptedBlkID s) (lastAcceptedHeight s)
    (modifiedSupplies s) (addedChains s) (addedBlocks s) (addedTxs s)
    (localUptimesCache s) (modifiedLocalUptimes s).

Definition SetHeight (s : state) (height : Z) : state :=
  mkstate (ctx_NetworkID s) (baseDB s) (currentStakers s) (pendingStakers s)
    (delegateeRewardCache s) (modifiedDelegateeReward s) (modifiedUTXOs s)
    (chainTime s) (lastAcceptedBlkID s) height
    (modifiedSupplies s) (addedChains s) (addedBlocks s) (addedTxs s)
    (localUptimesCache s) (modifiedLocalUptimes s).

Definition SetCurrentSupply (s : state) (subnetID : ID) (cs : Z) : state :=
  mkstate (ctx_NetworkID s) (baseDB s) (currentStakers s) (pendingStakers s)
    (delegateeRewardCache s) (modifiedDelegateeReward s) (modifiedUTXOs s)
    (chainTime s) (lastAcceptedBlkID s) (lastAcceptedHeight s)
    (<[subnetID := cs]> (modifiedSupplies s)) (addedChains s) (addedBlocks s)
    (addedTxs s) (localUptimesCache s) (modifiedLocalUptimes s).

(** [GetCurrentSupply]: the staged value wins; otherwise the bounded cache
    and the merkle trie are asked. *)
Definition GetCurrentSupply (E : Collaborators) (s : state) (subnetID : ID)
  : result Z :=
  match modifiedSupplies s !! subnetID with
  | Some supply => Ok supply
  | None => loadSupply E s subnetID
  end.

Definition AddStatelessBlock (s : state) (block : Block) : state :=
  mkstate (ctx_NetworkID s) (baseDB s) (currentStakers s) (pendingStakers s)
    (delegateeRewardCache s) (modifiedDelegateeReward s) (modifiedUTXOs s)
    (chainTime s) (lastAcceptedBlkID s) (lastAcceptedHeight s)
    (modifiedSupplies s) (addedChains s)
    (<[blk_ID block := block]> (addedBlocks s)) (addedTxs s)
    (localUptimesCache s) (modifiedLocalUptimes s).

Definition AddUTXO (s : state) (utxo : UTXO) : state :=
  mkstate (ctx_NetworkID s) (baseDB s) (currentStakers s) (pendingStakers s)
    (delegateeRewardCache s) (modifiedDelegateeReward s)
    (<[utxo_InputID utxo := Some utxo]> (modifiedUTXOs s))
    (chainTime s) (lastAcceptedBlkID s) (lastAcceptedHeight s)
    (modifiedSupplies s) (addedChains s) (addedBlocks s) (addedTxs s)
    (localUptimesCache s) (modifiedLocalUptimes s).

Definition AddTx (s : state) (tx : Tx) (status : Status) : state :=
  mkstate (ctx_NetworkID s) (baseDB s) (currentStakers s) (pendingStakers s)
    (delegateeRewardCache s) (modifiedDelegateeReward s) (modifiedUTXOs s)
    (chainTime s) (lastAcceptedBlkID s) (lastAcceptedHeight s)
    (modifiedSupplies s) (addedChains s) (addedBlocks s)
    (<[tx_ID tx := (tx, status)]> (addedTxs s))
    (localUptimesCache s) (modifiedLocalUptimes s).

(** [GetTx]: the staged transaction wins; otherwise the bounded cache and
    the merkle trie are asked. *)
Definition GetTx (E : Collaborators) (s : state) (txID : ID) : result Tx :=
  match addedTxs s !! txID with
  | Some (tx, _) => Ok tx
  | None => loadTx E s txID
  end.

(** [AddChain]; the caller has checked that the transaction creates a
    chain. *)
Definition AddChain (s : state) (createChainTxIntf : Tx) (subnetID : ID) : state :=
  mkstate (ctx_NetworkID s) (baseDB s) (currentStakers s) (pendingStakers s)
    (delegateeRewardCache s) (modifiedDelegateeReward s) (modifiedUTXOs s)
    (chainTime s) (lastAcceptedBlkID s) (lastAcceptedHeight s)
    (modifiedSupplies s)
    (<[subnetID := default [] (addedChains s !! subnetID) ++ [createChainTxIntf]]>
       (addedChains s))
    (addedBlocks s) (addedTxs s)
    (localUptimesCache s) (modifiedLocalUptimes s).

Definition SetUptime (s : state) (vdrID : NodeID) (subnetID : ID)
    (upDuration lastUpdated : Z) : state :=
  mkstate (ctx_NetworkID s) (baseDB s) (currentStakers s) (pendingStakers s)
    (delegateeRewardCache s) (modifiedDelegateeReward s) (modifiedUTXOs s)
    (chainTime s) (lastAcceptedBlkID s) (lastAcceptedHeight s)
    (modifiedSupplies s) (addedChains s) (addedBlocks s) (addedTxs s)
    (<[(vdrID, subnetID) := mkUptimes upDuration lastUpdated]> (localUptimesCache s))
    ({[(vdrID, subnetID)]} ∪ modifiedLocalUptimes s).

Definition SetDelegateeReward (s : state) (subnetID : ID) (vdrID : NodeID)
    (amount : Z) : state :=
  mkstate (ctx_NetworkID s) (baseDB s) (currentStakers s) (pendingStakers s)
    (<[(vdrID, subnetID) := amount]> (delegateeRewardCache s))
    ({[(vdrID, subnetID)]} ∪ modifiedDelegateeReward s) (modifiedUTXOs s)
    (chainTime s) (lastAcceptedBlkID s) (lastAcceptedHeight s)
    (modifiedSupplies s) (addedChains s) (addedBlocks s) (addedTxs s)
    (localUptimesCache s) (modifiedLocalUptimes s).

(** [PutCurrentValidator]: the two setters cannot fail. *)
Definition PutCurrentValidator (s : state) (staker : Staker) : state :=
  let s := set_currentStakers s (PutValidator (currentStakers s) staker) in
  let s := SetUptime s (staker_NodeID staker) (staker_SubnetID staker) 0
             (staker_StartTime staker) in
  SetDelegateeReward s (staker_SubnetID staker) (staker_NodeID staker) 0.

(** ** Draining the staker diffs (state.go, [processCurrentStakers]) *)

Record stakerOutputs : Type := mkOutputs {
  outputStakers : gmap N stakersData;
  outputWeights : gmap (N * N) ValidatorWeightDiff;
  outputBlsKey : gmap N (option blsPublicKey);
  outputValSet : gmap (N * N) diffValidator
}.

Definition isDeleted (status : diffValidatorStatus) : bool :=
  match status with deleted => true | _ => false end.

(** Lines 1722-1738: the added delegators raise the weight diff. *)
Fixpoint processAddedDelegators (E : Collaborators) (s : state)
    (delegators : list Staker) (stakers : gmap N stakersData)
    (weightDiff : ValidatorWeightDiff)
  : result (gmap N stakersData * ValidatorWeightDiff) :=
  match delegators with
  | [] => Ok (stakers, weightDiff)
  | staker :: rest =>
      match GetTx E s (staker_TxID staker) with
      | Err e => Err (ErrWrapped 2 e)
      | Ok tx =>
          let stakers :=
            <[staker_TxID staker :=
                mkStakersData (Some (tx_Bytes tx)) (staker_PotentialReward staker)]>
              stakers in
          match Add weightDiff false (staker_Weight staker) with
          | (_, Some e) => Err (ErrWrapped 3 e)
          | (weightDiff, None) =>
              processAddedDelegators E s rest stakers weightDiff
          end
      end
  end.

(** Lines 1740-1749: the deleted delegators lower it. *)
Fixpoint processDeletedDelegators (delegators : list Staker)
    (stakers : gmap N stakersData) (weightDiff : ValidatorWeightDiff)
  : result (gmap N stakersData * ValidatorWeightDiff) :=
  match delegators with
  | [] => Ok (stakers, weightDiff)
  | staker :: rest =>
      let stakers := <[staker_TxID staker := mkStakersData None 0]> stakers in
      match Add weightDiff true (staker_Weight staker) with
      | (_, Some e) => Err (ErrWrapped 4 e)
      | (weightDiff, None) => processDeletedDelegators rest stakers weightDiff
      end
  end.

(** Lines 1676-1720, the [switch] on the validator's status: the staker
    record, the amount of the weight diff and the key diff of a validator
    that was added or deleted. *)
Definition processValidatorStatus (E : Collaborators) (s : state)
    (nodeID : NodeID) (validatorDiff : diffValidator)
    (weightDiff : ValidatorWeightDiff) (out : stakerOutputs)
  : result (gmap N stakersData * ValidatorWeightDiff
            * gmap N (option blsPublicKey)) :=
  match validatorStatus validatorDiff, validator validatorDiff with
  | unmodified, _ => Ok (outputStakers out, weightDiff, outputBlsKey out)
  | _, None => Err (ErrOther 0) (* nil dereference *)
  | added, Some v =>
      match GetTx E s (staker_TxID v) with
      | Err e => Err (ErrWrapped 1 e)
      | Ok tx =>
          Ok (<[staker_TxID v :=
                  mkStakersData (Some (tx_Bytes tx)) (staker_PotentialReward v)]>
                (outputStakers out),
              mkDiff (Decrease weightDiff) (staker_Weight v),
              match staker_PublicKey v with
              | Some _ => <[nodeID := None]> (outputBlsKey out)
              | None => outputBlsKey out
              end)
      end
  | deleted, Some v =>
      Ok (<[staker_TxID v := mkStakersData None 0]> (outputStakers out),
          mkDiff (Decrease weightDiff) (staker_Weight v),
          match staker_PublicKey v with
          | Some blkKey => <[nodeID := Some blkKey]> (outputBlsKey out)
          | None => outputBlsKey out
          end)
  end.

(** Lines 1663-1750, the body of the loop over the nodes of one subnet.
    The entry of [outputWeights] is a pointer that the code creates first
    and updates in place; the maps are dropped on error, so the entry is
    stored here once its final value is known. *)
Definition processValidatorDiff (E : Collaborators) (s : state)
    (subnetID : ID) (nodeID : NodeID) (validatorDiff : diffValidator)
    (out : stakerOutputs) : result stakerOutputs :=
  let weightKey := (subnetID, nodeID) in
  let weightDiff := mkDiff (isDeleted (validatorStatus validatorDiff)) 0 in
  match processValidatorStatus E s nodeID validatorDiff weightDiff out with
  | Err e => Err e
  | Ok (stakers, weightDiff, blsKey) =>
      match processAddedDelegators E s (addedDelegators validatorDiff)
              stakers weightDiff with
      | Err e => Err e
      | Ok (stakers, weightDiff) =>
          match processDeletedDelegators (deletedDelegators validatorDiff)
                  stakers weightDiff with
          | Err e => Err e
          | Ok (stakers, weightDiff) =>
              Ok (mkOutputs stakers
                    (<[weightKey := weightDiff]> (outputWeights out))
                    blsKey
                    (<[weightKey := validatorDiff]> (outputValSet out)))
          end
      end
  end.

Fixpoint processSubnetDiffs (E : Collaborators) (s : state) (subnetID : ID)
    (subnetValidatorDiffs : list (NodeID * diffValidator))
    (out : stakerOutputs) : result stakerOutputs :=
  match subnetValidatorDiffs with
  | [] => Ok out
  | (nodeID, validatorDiff) :: rest =>
      match processValidatorDiff E s subnetID nodeID validatorDiff out with
      | Err e => Err e
      | Ok out => processSubnetDiffs E s subnetID rest out
      end
  end.

Definition dropCurrentDiffs (s : state) (subnetID : ID) : state :=
  set_currentStakers s
    (mkBaseStakers (validators (currentStakers s))
       (delete subnetID (validatorDiffs (currentStakers s)))).

(** Lines 1661-1752: each subnet's diffs are deleted from the diff map as
    the loop reaches them, also when the loop then fails. *)
Fixpoint processCurrentLoop (E : Collaborators)
    (diffs : list (ID * gmap N diffValidator)) (out : stakerOutputs)
    (s : state) : result stakerOutputs * state :=
  match diffs with
  | [] => (Ok out, s)
  | (subnetID, subnetValidatorDiffs) :: rest =>
      let s := dropCurrentDiffs s subnetID in
      match processSubnetDiffs E s subnetID
              (map_to_list subnetValidatorDiffs) out with
      | Err e => (Err e, s)
      | Ok out => processCurrentLoop E rest out s
      end
  end.

Definition processCurrentStakers (E : Collaborators) (s : state)
  : result stakerOutputs * state :=
  processCurrentLoop E (map_to_list (validatorDiffs (currentStakers s)))
    (mkOutputs ∅ ∅ ∅ ∅) s.

(** ** Draining the pending diffs (state.go, [processPendingStakers]) *)

Fixpoint pendingAddedDelegators (E : Collaborators) (s : state)
    (delegators : list Staker) (output : gmap N stakersData)
  : result (gmap N stakersData) :=
  match delegators with
  | [] => Ok output
  | staker :: rest =>
      match GetTx E s (staker_TxID staker) with
      | Err e => Err (ErrWrapped 6 e)
      | Ok tx =>
          pendingAddedDelegators E s rest
            (<[staker_TxID staker := mkStakersData (Some (tx_Bytes tx)) 0]> output)
      end
  end.

Definition pendingDeletedDelegators (delegators : list Staker)
    (output : gmap N stakersData) : gmap N stakersData :=
  fold_left
    (fun output staker => <[staker_TxID staker := mkStakersData None 0]> output)
    delegators output.

Definition processPendingDiff (E : Collaborators) (s : state)
    (validatorDiff : diffValidator) (output : gmap N stakersData)
  : result (gmap N stakersData) :=
  let switched :=
    match validatorStatus validatorDiff, validator validatorDiff with
    | unmodified, _ => Ok output
    | _, None => Err (ErrOther 0) (* nil dereference *)
    | added, Some v =>
        match GetTx E s (staker_TxID v) with
        | Err e => Err (ErrWrapped 5 e)
        | Ok tx =>
            Ok (<[staker_TxID v := mkStakersData (Some (tx_Bytes tx)) 0]> output)
        end
    | deleted, Some v =>
        Ok (<[staker_TxID v := mkStakersData None 0]> output)
    end in
  match switched with
  | Err e => Err e
  | Ok output =>
      match pendingAddedDelegators E s (addedDelegators validatorDiff) output with
      | Err e => Err e
      | Ok output =>
          Ok (pendingDeletedDelegators (deletedDelegators validatorDiff) output)
      end
  end.

Fixpoint processPendingSubnet (E : Collaborators) (s : state)
    (subnetValidatorDiffs : list (NodeID * diffValidator))
    (output : gmap N stakersData) : result (gmap N stakersData) :=
  match subnetValidatorDiffs with
  | [] => Ok output
  | (_, validatorDiff) :: rest =>
      match processPendingDiff E s validatorDiff output with
      | Err e => Err e
      | Ok output => processPendingSubnet E s rest output
      end
  end.

Definition dropPendingDiffs (s : state) (subnetID : ID) : state :=
  set_pendingStakers s
    (mkBaseStakers (validators (pendingStakers s))
       (delete subnetID (validatorDiffs (pendingStakers s)))).

Fixpoint processPendingLoop (E : Collaborators)
    (diffs : list (ID * gmap N diffValidator)) (output : gmap N stakersData)
    (s : state) : result (gmap N stakersData) * state :=
  match diffs with
  | [] => (Ok output, s)
  | (subnetID, subnetValidatorDiffs) :: rest =>
      let s := dropPendingDiffs s subnetID in
      match processPendingSubnet E s (map_to_list subnetValidatorDiffs) output with
      | Err e => (Err e, s)
      | Ok output => processPendingLoop E rest output s
      end
  end.

Definition processPendingStakers (E : Collaborators) (s : state)
  : result (gmap N stakersData) * state :=
  processPendingLoop E (map_to_list (validatorDiffs (pendingStakers s))) ∅ s.

(** ** Writing the diff logs (state.go, [writeWeightDiffs], [writeBlsKeyDiffs]) *)

(** [flatValidatorWeightDiffsDB.Put]: the section is a prefix of the base
    database. *)
Definition sectionPut (prefix key value : list Z) (s : state)
  : state * option error :=
  let '(d, err) := versiondb.Put (prefixed prefix key) value (baseDB s) in
  (set_baseDB s d, err).

Fixpoint writeWeightDiffsLoop (height : Z)
    (weightDiffs : list ((N * N) * ValidatorWeightDiff)) (s : state)
  : state * option error :=
  match weightDiffs with
  | [] => (s, None)
  | (weightKey, weightDiff) :: rest =>
      if Amount weightDiff =? 0 then
        (* No weight change to record; go to next validator. *)
        writeWeightDiffsLoop height rest s
      else
        let key := marshalDiffKey (fst weightKey) height (snd weightKey) in
        let weightDiffBytes := marshalWeightDiff weightDiff in
        match sectionPut merkleWeightDiffPrefix key weightDiffBytes s with
        | (s, Some e) => (s, Some (ErrWrapped 7 e))
        | (s, None) => writeWeightDiffsLoop height rest s
        end
  end.

Definition writeWeightDiffs (height : Z)
    (weightDiffs : gmap (N * N) ValidatorWeightDiff) (s : state)
  : state * option error :=
  writeWeightDiffsLoop height (map_to_list weightDiffs) s.

Fixpoint writeBlsKeyDiffsLoop (height : Z)
    (blsKeyDiffs : list (NodeID * option blsPublicKey)) (s : state)
  : state * option error :=
  match blsKeyDiffs with
  | [] => (s, None)
  | (nodeID, blsKey) :: rest =>
      let key := marshalDiffKey PrimaryNetworkID height nodeID in
      let blsKeyBytes := default [] blsKey in
      match sectionPut merkleBlsKeyDiffPrefix key blsKeyBytes s with
      | (s, Some e) => (s, Some (ErrWrapped 8 e))
      | (s, None) => writeBlsKeyDiffsLoop height rest s
      end
  end.

Definition writeBlsKeyDiffs (height : Z)
    (blsKeyDiffs : gmap N (option blsPublicKey)) (s : state)
  : state * option error :=
  writeBlsKeyDiffsLoop height (map_to_list blsKeyDiffs) s.

(** ** [write], [Commit], [Abort], [Checksum] *)

(** [utils.Err]: the first error of its arguments; Go has evaluated every
    argument before the call. *)
Fixpoint utils_Err (errs : list (option error)) : option error :=
  match errs with
  | [] => None
  | Some e :: _ => Some e
  | None :: rest => utils_Err rest
  end.

Definition write (E : Collaborators) (updateValidators : bool) (height : Z)
    (s : state) : state * option error :=
  match processCurrentStakers E s with
  | (Err e, s) => (s, Some e)
  | (Ok out, s) =>
      match processPendingStakers E s with
      | (Err e, s) => (s, Some e)
      | (Ok pendingData, s) =>
          let '(s, e1) := writeMerkleState E (outputStakers out) pendingData s in
          let '(s, e2) := writeBlocks E s in
          let '(s, e3) := writeTxs E s in
          let '(s, e4) := writeLocalUptimes E s in
          let '(s, e5) := writeWeightDiffs height (outputWeights out) s in
          let '(s, e6) := writeBlsKeyDiffs height (outputBlsKey out) s in
          let '(s, e7) := writeRewardUTXOs E s in
          let '(s, e8) :=
            updateValidatorSet E updateValidators (outputValSet out)
              (outputWeights out) s in
          (s, utils_Err [e1; e2; e3; e4; e5; e6; e7; e8])
      end
  end.

Definition Abort (s : state) : state :=
  set_baseDB s (versiondb.Abort (baseDB s)).

Definition Checksum (s : state) : ID := ids_Empty.

Definition CommitBatch (E : Collaborators) (s : state)
  : result versiondb.Batch * state :=
  (* updateValidators is set to true here so that the validator manager is
     kept up to date with the last accepted state. *)
  match write E true (lastAcceptedHeight s) s with
  | (s, Some e) => (Err e, s)
  | (s, None) => (versiondb.CommitBatch (baseDB s), s)
  end.

(** [Commit]: the deferred [Abort] runs on every way out. *)
Definition Commit (E : Collaborators) (s : state) : state * option error :=
  match CommitBatch E s with
  | (Err e, s) => (Abort s, Some e)
  | (Ok batch, s) =>
      let '(d, err) := versiondb.Write batch (baseDB s) in
      (Abort (set_baseDB s d), err)
  end.

(** ** Genesis (state.go, [shouldInit], [doneInit], [syncGenesis], [init], [sync]) *)

Definition shouldInit (s : state) : bool * option error :=
  let '(has, err) :=
    versiondb.Has (prefixed merkleSingletonPrefix initializedKey) (baseDB s) in
  (negb has, err).

Definition doneInit (s : state) : state * option error :=
  sectionPut merkleSingletonPrefix initializedKey [] s.

(** Lines 1140-1143. *)
Definition syncGenesisUTXOs (utxos : list UTXO) (s : state) : state :=
  fold_left AddUTXO utxos s.

(** Lines 1146-1177. *)
Fixpoint syncGenesisValidators (E : Collaborators) (vdrTxs : list Tx)
    (s : state) : state * option error :=
  match vdrTxs with
  | [] => (s, None)
  | vdrTx :: rest =>
      match tx_Unsigned vdrTx with
      | AddValidatorTx _ validatorTx =>
          let stakeAmount := vtx_Weight validatorTx in
          let stakeDuration := vtx_EndTime validatorTx - vtx_StartTime validatorTx in
          match GetCurrentSupply E s PrimaryNetworkID with
          | Err e => (s, Some e)
          | Ok currentSupply =>
              let potentialReward :=
                rewards_Calculate E stakeDuration stakeAmount currentSupply in
              match safemath.Add64 currentSupply potentialReward with
              | (_, Some e) => (s, Some e)
              | (newCurrentSupply, None) =>
                  match NewCurrentStaker E (tx_ID vdrTx) validatorTx
                          potentialReward with
                  | Err e => (s, Some e)
                  | Ok staker =>
                      let s := PutCurrentValidator s staker in
                      let s := AddTx s vdrTx Committed in
                      let s := SetCurrentSupply s PrimaryNetworkID newCurrentSupply in
                      syncGenesisValidators E rest s
                  end
              end
          end
      | _ => (s, Some ErrWrongTxType)
      end
  end.

(** Lines 1179-1193. *)
Fixpoint syncGenesisChains (chains : list Tx) (s : state)
  : state * option error :=
  match chains with
  | [] => (s, None)
  | chain :: rest =>
      match tx_Unsigned chain with
      | CreateChainTx networkID subnetID =>
          (* Ensure all chains that the genesis bytes say to create have
             the right network ID *)
          if negb (networkID =? ctx_NetworkID s) then (s, Some ErrWrongNetworkID)
          else
            let s := AddChain s chain subnetID in
            let s := AddTx s chain Committed in
            syncGenesisChains rest s
      | _ => (s, Some ErrWrongTxType)
      end
  end.

(** Lines 1133-1143. *)
Definition syncGenesisHead (genesisBlk : Block) (genesis : Genesis)
    (s : state) : state :=
  let genesisBlkID := blk_ID genesisBlk in
  let s := SetLastAccepted s genesisBlkID in
  let s := SetTimestamp s (gen_Timestamp genesis) in
  let s := SetCurrentSupply s PrimaryNetworkID (gen_InitialSupply genesis) in
  let s := AddStatelessBlock s genesisBlk in
  syncGenesisUTXOs (gen_UTXOs genesis) s.

Definition syncGenesis (E : Collaborators) (genesisBlk : Block)
    (genesis : Genesis) (s : state) : state * option error :=
  let s := syncGenesisHead genesisBlk genesis s in
  match syncGenesisValidators E (gen_Validators genesis) s with
  | (s, Some e) => (s, Some e)
  | (s, None) =>
      match syncGenesisChains (gen_Chains genesis) s with
      | (s, Some e) => (s, Some e)
      | (s, None) =>
          (* updateValidators is set to false here to maintain the
             invariant that the primary network's validator set is empty
             before the validator sets are initialized. *)
          write E false 0 s
      end
  end.

Definition init (E : Collaborators) (genesisBytes : list Z) (s : state)
  : state * option error :=
  let genesisID := ComputeHash256Array E genesisBytes in
  match NewApricotCommitBlock E genesisID 0 with
  | Err e => (s, Some e)
  | Ok genesisBlock =>
      match genesis_Parse E genesisBytes with
      | Err e => (s, Some e)
      | Ok genesisState =>
          match syncGenesis E genesisBlock genesisState s with
          | (s, Some e) => (s, Some e)
          | (s, None) =>
              match doneInit s with
              | (s, Some e) => (s, Some e)
              | (s, None) => Commit E s
              end
          end
      end
  end.

(** If the database is empty, create the platform chain anew using the
    provided genesis state; then load from disk. *)
Definition sync (E : Collaborators) (genesis : list Z) (s : state)
  : state * option error :=
  let '(shouldInit, err) := shouldInit s in
  match err with
  | Some e => (s, Some (ErrWrapped 9 e))
  | None =>
      if shouldInit then
        match init E genesis s with
        | (s, Some e) => (s, Some (ErrWrapped 10 e))
        | (s, None) => load E s
        end
      else load E s
  end.

(** ** The initialization marker *)

Definition markerKey : list Z := prefixed merkleSingletonPrefix initializedKey.

(** The store answers that it is initialized. *)
Definition initialized (s : state) : Prop :=
  versiondb.Has markerKey (baseDB s) = (true, None).

(** Two states agree on everything the marker lookup reads. *)
Definition same_marker (s s' : state) : Prop :=
  versiondb.closed (baseDB s') = versiondb.closed (baseDB s) /\
  versiondb.mem (baseDB s') !! markerKey = versiondb.mem (baseDB s) !! markerKey /\
  versiondb.db (baseDB s') !! markerKey = versiondb.db (baseDB s) !! markerKey.

Definition keeps_marker (f : state -> state * option error) : Prop :=
  forall s, same_marker s (fst (f s)).

(** The sections of [write] that are not modelled here, and [load], write
    under their own prefixes and leave the singleton section alone. *)
Definition sections_keep_marker (E : Collaborators) : Prop :=
  (forall currentData pendingData,
     keeps_marker (writeMerkleState E currentData pendingData)) /\
  keeps_marker (writeBlocks E) /\
  keeps_marker (writeTxs E) /\
  keeps_marker (writeLocalUptimes E) /\
  keeps_marker (writeRewardUTXOs E) /\
  (forall updateValidators valSetDiff weightDiffs,
     keeps_marker (updateValidatorSet E updateValidators valSetDiff weightDiffs)) /\
  keeps_marker (load E).

(** Two states with the same chain context and the same base database:
    staging touches neither. *)
Definition same_base (s s' : state) : Prop :=
  ctx_NetworkID s' = ctx_NetworkID s /\ baseDB s' = baseDB s.

(** ** The network check as the specification words it *)

(** "Must match the network ID context or fails with a network-mismatch
    error": a genesis one of whose transactions carries another network ID
    makes [syncGenesis] fail with [ErrWrongNetworkID]. *)
Definition syncGenesis_as_stated (E : Collaborators) (genesisBlk : Block)
    (genesis : Genesis) (s : state) : Prop :=
  (exists tx, In tx (gen_Validators genesis ++ gen_Chains genesis) /\
              tx_NetworkID tx <> ctx_NetworkID s) ->
  snd (syncGenesis E genesisBlk genesis s) = Some ErrWrongNetworkID.

Definition isCreateChainTx (tx : Tx) : Prop :=
  exists networkID subnetID, tx_Unsigned tx = CreateChainTx networkID subnetID.

(** ** Collaborators and states to run the store on *)

(** Collaborators that succeed without doing anything, with a reward of
    zero and a parser that yields [genesis]. *)
Definition idleCollaborators (genesis : Genesis) : Collaborators :=
  mkCollaborators
    (fun _ _ _ => 0)
    (fun txID v potentialReward =>
       Ok (mkStaker txID (vtx_NodeID v) (vtx_PublicKey v) (vtx_SubnetID v)
             (vtx_Weight v) (vtx_StartTime v) (vtx_EndTime v) potentialReward))
    (fun _ => 42%N)
    (fun blkID height => Ok (mkBlock blkID height))
    (fun _ => Ok genesis)
    (fun _ _ => Err ErrNotFound)
    (fun _ _ => Err ErrNotFound)
    (fun _ _ s => (s, None))
    (fun s => (s, None))
    (fun s => (s, None))
    (fun s => (s, None))
    (fun s => (s, None))
    (fun _ _ _ s => (s, None))
    (fun s => (s, None)).

(** A fresh state over an empty, open database. *)
Definition freshState (networkID : Z) : state :=
  mkstate networkID (versiondb.mk ∅ ∅ false) newBaseStakers newBaseStakers
    ∅ ∅ ∅ 0 ids_Empty 0 ∅ ∅ ∅ ∅ ∅ ∅.

(** A genesis with one validator (node 1, weight 20) made for network 5
    and no chain. *)
Definition validatorGenesis : Genesis :=
  mkGenesis [mkUTXO 3%N [0]]
    [mkTx 11%N (AddValidatorTx 5 (mkValidatorTx 1%N PrimaryNetworkID 0 100 20 None)) [1]]
    [] 0 1000.

(** The same genesis with a chain made for network 5. *)
Definition chainGenesis : Genesis :=
  mkGenesis [mkUTXO 3%N [0]]
    [mkTx 11%N (AddValidatorTx 5 (mkValidatorTx 1%N PrimaryNetworkID 0 100 20 None)) [1]]
    [mkTx 12%N (CreateChainTx 5 PrimaryNetworkID) [2]] 0 1000.

(** A state whose only staker diff nets to zero: node 1 of the primary
    network gained and lost a delegator of weight 7. *)
Definition netZeroState : state :=
  let d1 := mkStaker 21%N 1%N None PrimaryNetworkID 7 0 50 0 in
  let d2 := mkStaker 22%N 1%N None PrimaryNetworkID 7 0 50 0 in
  let s := freshState 5 in
  let s := AddTx s (mkTx 21%N (OtherTx 5) [9]) Committed in
  set_currentStakers s
    (mkBaseStakers ∅
       {[ PrimaryNetworkID := {[ 1%N := mkDiffValidator unmodified None [d1] [d2] ]} ]}).

(** ** A small chain to run the reconstructor on *)

(** Last accepted block 7 at height 1.  Block 1 added validator 1 with
    weight 10 and removed 4 units of weight from node 2, which is no longer
    validating. *)
Definition exampleState : State :=
  mkState 7%N
    (fun blkID => if (blkID =? 7)%N then Ok (mkBlock 7%N 1) else Err ErrNotFound)
    (fun i _ =>
       Ok (if i =? 1 then [(1%N, mkDiff false 10); (2%N, mkDiff true 4)] else []))
    (fun _ => Ok [])
    (fun _ => Err ErrNotFound).

Definition exampleSet : set :=
  mkSet (mkConfig false {[ PrimaryNetworkID := [mkValidator 1%N None 99%N 10] ]} ∅)
        exampleState ∅.

(** ** Further operations of the reconstructor and of the state *)

(** The weight a validator map gives a node, zero for an absent node (a
    missing node is created with the zero weight before a diff is
    applied). *)
Definition weightOf (vdrs : gmap N GetValidatorOutput) (nodeID : NodeID) : Z :=
  from_option out_Weight 0 (vdrs !! nodeID).

(** What one weight diff makes of the entry of its node: the new entry,
    [None] when the weight reaches zero, or the arithmetic error. *)
Definition entryAfter (nodeID : NodeID) (weightDiff : ValidatorWeightDiff)
    (entry : option GetValidatorOutput) : result (option GetValidatorOutput) :=
  let vdr := default (mkOut nodeID None 0) entry in
  let '(w, err) :=
    if Decrease weightDiff
    then safemath.Add64 (out_Weight vdr) (Amount weightDiff)
    else safemath.Sub (out_Weight vdr) (Amount weightDiff) in
  match err with
  | Some e => Err e
  | None => Ok (if w =? 0 then None else Some (setWeight vdr w))
  end.

(** set.go, [GetValidatorIDs]. *)
Definition GetValidatorIDs (vs : set) (subnetID : ID) : list NodeID * bool :=
  match Validators (cfg vs) !! subnetID with
  | None => ([], false)
  | Some validators => (List.map vdr_NodeID validators, true)
  end.

(** The weight the validator of a diff adds to (or, when deleted, takes
    from) its node, and the total weight of a list of delegators. *)
Definition validatorDelta (validatorDiff : diffValidator) : Z :=
  match validatorStatus validatorDiff, validator validatorDiff with
  | added, Some v => staker_Weight v
  | deleted, Some v => - staker_Weight v
  | _, _ => 0
  end.

Definition sumWeights (stakers : list Staker) : Z :=
  fold_right (fun staker acc => staker_Weight staker + acc) 0 stakers.

(** The weights a staker diff carries are 64-bit values. *)
Definition diffWeightsInRange (validatorDiff : diffValidator) : Prop :=
  (forall v, validator validatorDiff = Some v -> uint64 (staker_Weight v)) /\
  Forall (fun staker => uint64 (staker_Weight staker))
    (addedDelegators validatorDiff) /\
  Forall (fun staker => uint64 (staker_Weight staker))
    (deletedDelegators validatorDiff).

(** IDs fit their byte arrays: 32 bytes for [ids.ID], 20 for
    [ids.NodeID]. *)
Definition idInRange (id : ID) : Prop := (id < 2 ^ 256)%N.
Definition nodeIDInRange (nodeID : NodeID) : Prop := (nodeID < 2 ^ 160)%N.

Definition weightDiffDBKey (height : Z) (weightKey : N * N) : list Z :=
  prefixed merkleWeightDiffPrefix
    (marshalDiffKey (fst weightKey) height (snd weightKey)).

Definition blsKeyDiffDBKey (height : Z) (nodeID : NodeID) : list Z :=
  prefixed merkleBlsKeyDiffPrefix
    (marshalDiffKey PrimaryNetworkID height nodeID).

(** No staker record of the map carries a potential reward. *)
Definition rewards_zero (output : gmap N stakersData) : Prop :=
  forall txID data, output !! txID = Some data -> PotentialReward data = 0.

(** ** UTXO reads (state.go, [GetUTXO], [DeleteUTXO]) *)

Definition DeleteUTXO (s : state) (utxoID : ID) : state :=
  mkstate (ctx_NetworkID s) (baseDB s) (currentStakers s) (pendingStakers s)
    (delegateeRewardCache s) (modifiedDelegateeReward s)
    (<[utxoID := None]> (modifiedUTXOs s))
    (chainTime s) (lastAcceptedBlkID s) (lastAcceptedHeight s)
    (modifiedSupplies s) (addedChains s) (addedBlocks s) (addedTxs s)
    (localUptimesCache s) (modifiedLocalUptimes s).

(** What [GetUTXO] reads of the merkle trie: the key of a UTXO, the lookup
    and the codec. *)
Record utxoReader : Type := mkUtxoReader {
  merkleUtxoIDKey : ID -> list Z;
  merkleGet : list Z -> result (list Z);
  unmarshalUTXO : list Z -> result UTXO
}.

(** [GetUTXO]: the staged entry, then the bounded cache [utxoCache] (held
    by the state, passed here explicitly), then the merkle trie.  [None]
    is the nil pointer: a UTXO known to be absent. *)
Definition GetUTXO (R : utxoReader) (utxoCache : LRU.t (option UTXO))
    (s : state) (utxoID : ID) : result UTXO * LRU.t (option UTXO) :=
  match modifiedUTXOs s !! utxoID with
  | Some None => (Err ErrNotFound, utxoCache)
  | Some (Some utxo) => (Ok utxo, utxoCache)
  | None =>
      match LRU.Get (Z.of_N utxoID) utxoCache with
      | (Some None, utxoCache) => (Err ErrNotFound, utxoCache)
      | (Some (Some utxo), utxoCache) => (Ok utxo, utxoCache)
      | (None, utxoCache) =>
          let key := merkleUtxoIDKey R utxoID in
          match merkleGet R key with
          | Ok bytes =>
              match unmarshalUTXO R bytes with
              | Err e => (Err e, utxoCache)
              | Ok utxo =>
                  (Ok utxo, LRU.Put (Z.of_N utxoID) (Some utxo) utxoCache)
              end
          | Err ErrNotFound =>
              (Err ErrNotFound, LRU.Put (Z.of_N utxoID) None utxoCache)
          | Err e => (Err e, utxoCache)
          end
      end
  end.

(** ** Delegatee rewards and uptimes (state.go) *)

(** [GetDelegateeReward]: the in-memory entry, else the merkle trie
    ([loadReward] is the trie lookup followed by [database.ParseUInt64]),
    whose answer is then remembered. *)
Definition GetDelegateeReward (loadReward : NodeID -> ID -> result Z)
    (s : state) (subnetID : ID) (vdrID : NodeID) : result Z * state :=
  match delegateeRewardCache s !! (vdrID, subnetID) with
  | Some delegateeReward => (Ok delegateeReward, s)
  | None =>
      match loadReward vdrID subnetID with
      | Err e => (Err e, s)
      | Ok delegateeReward =>
          (Ok delegateeReward,
           mkstate (ctx_NetworkID s) (baseDB s) (currentStakers s)
             (pendingStakers s)
             (<[(vdrID, subnetID) := delegateeReward]> (delegateeRewardCache s))
             (modifiedDelegateeReward s) (modifiedUTXOs s)
             (chainTime s) (lastAcceptedBlkID s) (lastAcceptedHeight s)
             (modifiedSupplies s) (addedChains s) (addedBlocks s) (addedTxs s)
             (localUptimesCache s) (modifiedLocalUptimes s))
      end
  end.

(** [GetUptime]: the in-memory entry, else the uptimes database
    ([loadUptime] is the lookup followed by the codec).  An entry found in
    the database replaces the node's whole inner map
    ([s.localUptimesCache[vdrID] = make(...)]). *)
Definition GetUptime (loadUptime : NodeID -> ID -> result uptimes)
    (s : state) (vdrID : NodeID) (subnetID : ID) : result uptimes * state :=
  match localUptimesCache s !! (vdrID, subnetID) with
  | Some uptime => (Ok uptime, s)
  | None =>
      match loadUptime vdrID subnetID with
      | Err e => (Err e, s)
      | Ok upTm =>
          (Ok upTm,
           mkstate (ctx_NetworkID s) (baseDB s) (currentStakers s)
             (pendingStakers s)
             (delegateeRewardCache s) (modifiedDelegateeReward s)
             (modifiedUTXOs s)
             (chainTime s) (lastAcceptedBlkID s) (lastAcceptedHeight s)
             (modifiedSupplies s) (addedChains s) (addedBlocks s) (addedTxs s)
             (<[(vdrID, subnetID) := upTm]>
                (filter (fun kv => fst (fst kv) <> vdrID) (localUptimesCache s)))
             (modifiedLocalUptimes s))
      end
  end.

(** ** The rewards handed out at genesis *)

(** The potential rewards that the loop of [syncGenesis] over
    [genesis.Validators] computes, in order: each one is calculated
    against the supply that the rewards before it have raised. *)
Fixpoint genesisRewards (E : Collaborators) (currentSupply : Z)
    (vdrTxs : list Tx) : list Z :=
  match vdrTxs with
  | [] => []
  | vdrTx :: rest =>
      match tx_Unsigned vdrTx with
      | AddValidatorTx _ validatorTx =>
          let potentialReward :=
            rewards_Calculate E
              (vtx_EndTime validatorTx - vtx_StartTime validatorTx)
              (vtx_Weight validatorTx) currentSupply in
          potentialReward :: genesisRewards E (currentSupply + potentialReward) rest
      | _ => []
      end
  end.

Definition sumZ (l : list Z) : Z := fold_right Z.add 0 l.

Definition isAddValidatorTx (tx : Tx) : Prop :=
  exists networkID validatorTx,
    tx_Unsigned tx = AddValidatorTx networkID validatorTx.

(** Collaborators as [idleCollaborators], with a flat reward of 20. *)
Definition flatRewardCollaborators (genesis : Genesis) : Collaborators :=
  mkCollaborators
    (fun _ _ _ => 20)
    (NewCurrentStaker (idleCollaborators genesis))
    (ComputeHash256Array (idleCollaborators genesis))
    (NewApricotCommitBlock (idleCollaborators genesis))
    (genesis_Parse (idleCollaborators genesis))
    (loadTx (idleCollaborators genesis))
    (loadSupply (idleCollaborators genesis))
    (writeMerkleState (idleCollaborators genesis))
    (writeBlocks (idleCollaborators genesis))
    (writeTxs (idleCollaborators genesis))
    (writeLocalUptimes (idleCollaborators genesis))
    (writeRewardUTXOs (idleCollaborators genesis))
    (updateValidatorSet (idleCollaborators genesis))
    (load (idleCollaborators genesis)).

(** Collaborators as [idleCollaborators], whose block section fails to
    write. *)
Definition failingCollaborators (genesis : Genesis) : Collaborators :=
  mkCollaborators
    (rewards_Calculate (idleCollaborators genesis))
    (NewCurrentStaker (idleCollaborators genesis))
    (ComputeHash256Array (idleCollaborators genesis))
    (NewApricotCommitBlock (idleCollaborators genesis))
    (genesis_Parse (idleCollaborators genesis))
    (loadTx (idleCollaborators genesis))
    (loadSupply (idleCollaborators genesis))
    (writeMerkleState (idleCollaborators genesis))
    (fun s => (s, Some (ErrOther 3)))
    (writeTxs (idleCollaborators genesis))
    (writeLocalUptimes (idleCollaborators genesis))
    (writeRewardUTXOs (idleCollaborators genesis))
    (updateValidatorSet (idleCollaborators genesis))
    (load (idleCollaborators genesis)).

(** ** The commit protocol as the specification words it *)




(** Two states with the same staging maps. *)
Definition same_staging_maps (s s' : state) : Prop :=
  modifiedUTXOs s' = modifiedUTXOs s /\ addedTxs s' = addedTxs s /\
  addedBlocks s' = addedBlocks s /\ addedChains s' = addedChains s /\
  modifiedSupplies s' = modifiedSupplies s /\
  modifiedLocalUptimes s' = modifiedLocalUptimes s /\
  modifiedDelegateeReward s' = modifiedDelegateeReward s.

(** Draining the current or the pending staker diffs fails with [e]: the
    two early returns of [write]. *)
Definition draining_fails (E : Collaborators) (s : state) (e : error) : Prop :=
  fst (processCurrentStakers E s) = Err e \/
  (exists out,
     fst (processCurrentStakers E s) = Ok out /\
     fst (processPendingStakers E (snd (processCurrentStakers E s))) = Err e).

(** A state with a staged UTXO, the staged marker, and a current validator
    whose transaction is neither staged nor stored. *)
Definition unknownTxState : state :=
  PutCurrentValidator
    (AddUTXO (fst (doneInit (freshState 5))) (mkUTXO 3%N [0]))
    (mkStaker 11%N 1%N None PrimaryNetworkID 20 0 100 0).

(* ================================================================== *)
(** * Part II: theorems                                                *)
(* ================================================================== *)

Lemma wrap64_id x : uint64 x -> wrap64 x = x.
Proof.
  unfold uint64, wrap64, MaxUint64. intros H.
  apply Z.mod_small. lia.
Qed.

Lemma Add64_ok a b :
  uint64 a -> uint64 b -> a + b <= MaxUint64 ->
  safemath.Add64 a b = (a + b, None).
Proof.
  intros Ha Hb Hs. unfold safemath.Add64.
  rewrite (wrap64_id (MaxUint64 - b)) by (unfold uint64 in *; lia).
  destruct (Z.gtb_spec a (MaxUint64 - b)); [lia|].
  rewrite wrap64_id; [reflexivity | unfold uint64 in *; lia].
Qed.

Lemma Add64_overflow a b :
  uint64 a -> uint64 b -> MaxUint64 < a + b ->
  safemath.Add64 a b = (0, Some ErrOverflow).
Proof.
  intros Ha Hb Hs. unfold safemath.Add64.
  rewrite (wrap64_id (MaxUint64 - b)) by (unfold uint64 in *; lia).
  destruct (Z.gtb_spec a (MaxUint64 - b)); [reflexivity | lia].
Qed.

Lemma AbsDiff_abs a b :
  uint64 a -> uint64 b -> safemath.AbsDiff a b = Z.abs (a - b).
Proof.
  intros Ha Hb. unfold safemath.AbsDiff.
  rewrite wrap64_id; unfold uint64 in *; lia.
Qed.

(** ** ValidatorWeightDiff.Add *)

Lemma Add_same_sign v negative amount :
  Decrease v = negative ->
  Add v negative amount =
    (mkDiff (Decrease v) (fst (safemath.Add64 (Amount v) amount)),
     snd (safemath.Add64 (Amount v) amount)).
Proof.
  intros <-. unfold Add. rewrite Bool.eqb_reflx.
  destruct (safemath.Add64 _ _); reflexivity.
Qed.

Lemma Add_other_sign v negative amount :
  Decrease v <> negative ->
  Add v negative amount =
    if Amount v >? amount
    then (mkDiff (Decrease v) (wrap64 (Amount v - amount)), None)
    else (mkDiff negative (safemath.AbsDiff (Amount v) amount), None).
Proof.
  intros Hne. unfold Add.
  destruct (Bool.eqb (Decrease v) negative) eqn:E; [|reflexivity].
  apply Bool.eqb_prop in E. contradiction.
Qed.

(** C1, as stated, fails where the two amounts are equal: the code's
    [else] branch takes the new sign although [amount] is not the larger
    one ([{false, 5}.Add(true, 5)] leaves [{true, 0}]). *)
Lemma Add_as_stated_fails_on_equal_amounts :
  ~ Add_as_stated (mkDiff false 5) true 5.
Proof.
  unfold Add_as_stated. cbn. intros [_ H].
  destruct H as [_ [Hflip _]]; [discriminate|].
  specialize (Hflip eq_refl). lia.
Qed.

(** C1 (amended): for 64-bit operands, when [negative] equals [v.Decrease]
    and the sum fits in 64 bits the amounts add and the flag is kept; when
    the signs differ the new amount is [|v.Amount - amount|] and the flag
    takes the new sign exactly when [amount >= v.Amount], equality
    included. *)
Theorem Add_combines v negative amount :
  uint64 (Amount v) -> uint64 amount ->
  let v' := fst (Add v negative amount) in
  (Decrease v = negative -> Amount v + amount <= MaxUint64 ->
     Amount v' = Amount v + amount /\ Decrease v' = Decrease v) /\
  (Decrease v <> negative ->
     Amount v' = Z.abs (Amount v - amount) /\
     (Decrease v' = negative <-> Amount v <= amount)).
Proof.
  intros Hv Ha. split.
  - intros Heq Hfit. rewrite (Add_same_sign _ _ _ Heq).
    rewrite Add64_ok by assumption. cbn. auto.
  - intros Hne. rewrite (Add_other_sign _ _ _ Hne).
    destruct (Z.gtb_spec (Amount v) amount) as [Hgt|Hle]; cbn.
    + rewrite wrap64_id by (unfold uint64 in *; lia).
      split; [lia|]. split; [intros E; contradiction | lia].
    + rewrite AbsDiff_abs by assumption. tauto.
Qed.

Lemma uint64_small x : 0 <= x <= 1000 -> uint64 x.
Proof. unfold uint64, MaxUint64. lia. Qed.

Lemma Add_combines_witness :
  Amount (fst (Add (mkDiff false 5) true 5)) = 0 /\
  (Decrease (fst (Add (mkDiff false 5) true 5)) = true <-> 5 <= 5).
Proof.
  assert (H5 : uint64 5) by (apply uint64_small; lia).
  destruct (Add_combines (mkDiff false 5) true 5 H5 H5) as [_ H].
  apply H. discriminate.
Defined.

(** C6: [Add] fails exactly when [negative] equals the accumulated sign and
    the sum of the two amounts leaves the 64-bit range; the error is then
    the overflow error, and with unequal signs the call never fails. *)
Theorem Add_fails_iff_overflow v negative amount :
  uint64 (Amount v) -> uint64 amount ->
  (snd (Add v negative amount) <> None <->
     Decrease v = negative /\ MaxUint64 < Amount v + amount) /\
  (forall e, snd (Add v negative amount) = Some e -> e = ErrOverflow) /\
  (Decrease v <> negative -> snd (Add v negative amount) = None).
Proof.
  intros Hv Ha.
  destruct (bool_decide (Decrease v = negative)) eqn:D.
  - apply bool_decide_eq_true in D.
    rewrite (Add_same_sign _ _ _ D). cbn [snd].
    destruct (Z_le_gt_dec (Amount v + amount) MaxUint64) as [Hfit|Hover].
    + rewrite Add64_ok by assumption. cbn.
      repeat split; try congruence; try tauto.
      intros [_ ?]; lia.
    + rewrite Add64_overflow by (assumption || lia). cbn.
      repeat split; try congruence; try tauto; try lia.
  - apply bool_decide_eq_false in D.
    rewrite (Add_other_sign _ _ _ D).
    destruct (Amount v >? amount); cbn;
      repeat split; try congruence; tauto.
Qed.

Lemma Add_fails_iff_overflow_witness :
  snd (Add (mkDiff true MaxUint64) true 1) <> None /\
  snd (Add (mkDiff true MaxUint64) false 1) = None.
Proof.
  assert (HM : uint64 MaxUint64) by (unfold uint64, MaxUint64; lia).
  assert (H1 : uint64 1) by (apply uint64_small; lia).
  split.
  - apply (Add_fails_iff_overflow (mkDiff true MaxUint64) true 1 HM H1).
    split; [reflexivity | cbn; lia].
  - apply (Add_fails_iff_overflow (mkDiff true MaxUint64) false 1 HM H1).
    discriminate.
Defined.

(** ** Order independence of accumulated diffs *)

Lemma Add_net v negative amount v' :
  uint64 (Amount v) -> uint64 amount ->
  Add v negative amount = (v', None) ->
  net v' = net v + delta (negative, amount) /\ uint64 (Amount v').
Proof.
  intros Hv Ha HA.
  destruct (bool_decide (Decrease v = negative)) eqn:D.
  - apply bool_decide_eq_true in D.
    rewrite (Add_same_sign _ _ _ D) in HA.
    destruct (Z_le_gt_dec (Amount v + amount) MaxUint64) as [Hfit|Hover].
    + rewrite Add64_ok in HA by assumption. cbn in HA.
      injection HA as <-. unfold net, delta. cbn. rewrite <- D.
      split; [destruct (Decrease v); lia | unfold uint64 in *; lia].
    + rewrite Add64_overflow in HA by (assumption || lia). discriminate.
  - apply bool_decide_eq_false in D.
    rewrite (Add_other_sign _ _ _ D) in HA.
    destruct (Z.gtb_spec (Amount v) amount) as [Hgt|Hle].
    + rewrite wrap64_id in HA by (unfold uint64 in *; lia).
      injection HA as <-. unfold net, delta. cbn.
      split; [|unfold uint64 in *; lia].
      destruct (Decrease v), negative; try congruence; lia.
    + rewrite AbsDiff_abs in HA by assumption.
      injection HA as <-. unfold net, delta. cbn.
      split; [|unfold uint64 in *; lia].
      destruct (Decrease v), negative; try congruence; lia.
Qed.

Lemma AddAll_net calls : forall v v',
  uint64 (Amount v) -> Forall (fun c => uint64 (snd c)) calls ->
  AddAll v calls = (v', None) ->
  net v' = net v + total calls.
Proof.
  induction calls as [|[negative amount] rest IH]; intros v v' Hv Hall HA.
  - cbn in HA. injection HA as <-. cbn. lia.
  - inversion Hall as [|? ? Hc Hrest]; subst. cbn in Hc, HA.
    destruct (Add v negative amount) as [v1 [e|]] eqn:E; [discriminate|].
    destruct (Add_net _ _ _ _ Hv Hc E) as [Hnet Hr].
    rewrite (IH _ _ Hr Hrest HA), Hnet.
    change (total ((negative, amount) :: rest))
      with (delta (negative, amount) + total rest). lia.
Qed.

Lemma Add_bound v negative amount :
  uint64 (Amount v) -> uint64 amount -> Amount v + amount <= MaxUint64 ->
  exists v', Add v negative amount = (v', None) /\
             Amount v' <= Amount v + amount /\ uint64 (Amount v').
Proof.
  intros Hv Ha Hfit.
  destruct (bool_decide (Decrease v = negative)) eqn:D.
  - apply bool_decide_eq_true in D.
    rewrite (Add_same_sign _ _ _ D), Add64_ok by assumption.
    eexists; split; [reflexivity|]. cbn. unfold uint64 in *; lia.
  - apply bool_decide_eq_false in D.
    rewrite (Add_other_sign _ _ _ D).
    destruct (Z.gtb_spec (Amount v) amount) as [Hgt|Hle].
    + rewrite wrap64_id by (unfold uint64 in *; lia).
      eexists; split; [reflexivity|]. cbn. unfold uint64 in *; lia.
    + rewrite AbsDiff_abs by assumption.
      eexists; split; [reflexivity|]. cbn. unfold uint64 in *; lia.
Qed.

Lemma amounts_nonneg calls :
  Forall (fun c => uint64 (snd c)) calls -> 0 <= amounts calls.
Proof.
  induction 1 as [|c rest Hc _ IH]; [cbn; lia|].
  change (amounts (c :: rest)) with (snd c + amounts rest).
  unfold uint64 in Hc. lia.
Qed.

Lemma AddAll_succeeds calls : forall v,
  uint64 (Amount v) -> Forall (fun c => uint64 (snd c)) calls ->
  Amount v + amounts calls <= MaxUint64 ->
  exists v', AddAll v calls = (v', None).
Proof.
  induction calls as [|[negative amount] rest IH]; intros v Hv Hall Hfit.
  - eexists; reflexivity.
  - inversion Hall as [|? ? Hc Hrest]; subst. cbn in Hc.
    pose proof (amounts_nonneg _ Hrest) as Hpos.
    change (amounts ((negative, amount) :: rest))
      with (amount + amounts rest) in Hfit.
    destruct (Add_bound v negative amount Hv Hc) as (v1 & E & Hle & Hr); [lia|].
    cbn. rewrite E. apply IH; [assumption | assumption | lia].
Qed.

Lemma total_Permutation calls calls' :
  Permutation calls calls' -> total calls = total calls'.
Proof. unfold total. induction 1; cbn in *; lia. Qed.

Lemma amounts_Permutation calls calls' :
  Permutation calls calls' -> amounts calls = amounts calls'.
Proof. unfold amounts. induction 1; cbn in *; lia. Qed.

Lemma Forall_Permutation_uint64 (calls calls' : list (bool * Z)) :
  Permutation calls calls' ->
  Forall (fun c => uint64 (snd c)) calls ->
  Forall (fun c => uint64 (snd c)) calls'.
Proof. intros HP HF. eapply Permutation_Forall; eassumption. Qed.

(** C2: from the zero diff, two orders of the same calls that both run
    without overflow leave the same net signed change, the sum of the
    deltas; and the calls +10, -3, +2 succeed in every order with net +9. *)
Theorem AddAll_order_independent :
  (forall calls calls' v v',
     Forall (fun c => uint64 (snd c)) calls ->
     Permutation calls calls' ->
     AddAll zeroDiff calls = (v, None) ->
     AddAll zeroDiff calls' = (v', None) ->
     net v = net v' /\ net v = total calls) /\
  (forall calls',
     Permutation [(false, 10); (true, 3); (false, 2)] calls' ->
     exists v', AddAll zeroDiff calls' = (v', None) /\ net v' = 9).
Proof.
  assert (H0 : uint64 (Amount zeroDiff)) by (apply uint64_small; cbn; lia).
  split.
  - intros calls calls' v v' Hall HP HA HA'.
    pose proof (Forall_Permutation_uint64 _ _ HP Hall) as Hall'.
    rewrite (AddAll_net _ _ _ H0 Hall HA), (AddAll_net _ _ _ H0 Hall' HA').
    rewrite (total_Permutation _ _ HP). cbn. lia.
  - intros calls' HP.
    assert (Hall : Forall (fun c => uint64 (snd c))
                     [(false, 10); (true, 3); (false, 2)]).
    { repeat constructor; apply uint64_small; cbn; lia. }
    pose proof (Forall_Permutation_uint64 _ _ HP Hall) as Hall'.
    destruct (AddAll_succeeds calls' zeroDiff H0 Hall') as [v' HA'].
    { rewrite <- (amounts_Permutation _ _ HP). cbn. unfold MaxUint64. lia. }
    exists v'. split; [exact HA'|].
    rewrite (AddAll_net _ _ _ H0 Hall' HA'), <- (total_Permutation _ _ HP).
    reflexivity.
Qed.

Lemma AddAll_order_independent_witness :
  net (mkDiff false 9) = net (mkDiff false 9) /\
  net (mkDiff false 9) = total [(false, 10); (true, 3); (false, 2)].
Proof.
  apply (proj1 AddAll_order_independent
           [(false, 10); (true, 3); (false, 2)]
           [(true, 3); (false, 2); (false, 10)]).
  - repeat constructor; apply uint64_small; cbn; lia.
  - apply perm_trans with [(true, 3); (false, 10); (false, 2)];
      [apply perm_swap | apply perm_skip, perm_swap].
  - reflexivity.
  - reflexivity.
Defined.

(** ** Replaying weight diffs *)

Lemma weightDiffStep_applyWeightDiff vdrSet nodeID weightDiff :
  weightDiffStep vdrSet nodeID weightDiff = applyWeightDiff vdrSet nodeID weightDiff.
Proof.
  unfold weightDiffStep, applyWeightDiff.
  destruct (vdrSet !! nodeID); destruct (Decrease weightDiff); reflexivity.
Qed.

(** Whatever the map held before, the node a diff was applied to is
    afterwards absent or of nonzero weight, and no other node changed. *)
Lemma applyWeightDiff_lookup vdrs nodeID weightDiff vdrs' :
  applyWeightDiff vdrs nodeID weightDiff = (vdrs', None) ->
  (vdrs' !! nodeID = None \/
   exists vdr, vdrs' !! nodeID = Some vdr /\ out_Weight vdr <> 0) /\
  (forall other, other <> nodeID -> vdrs' !! other = vdrs !! other).
Proof.
  unfold applyWeightDiff.
  destruct (vdrs !! nodeID) as [vdr|] eqn:L;
    destruct (if Decrease weightDiff then _ else _) as [w [e|]];
    try discriminate;
    destruct (Z.eqb_spec w 0) as [Hz|Hnz]; intros H; injection H as <-;
    (split;
     [ first [ left; apply lookup_delete_eq
             | right; eexists; split; [apply lookup_insert_eq | exact Hnz] ]
     | intros other Hne;
       rewrite ?lookup_delete_ne, ?lookup_insert_ne by congruence;
       reflexivity ]).
Qed.

Lemma applyWeightDiff_nonzero vdrs nodeID weightDiff vdrs' :
  nonzero_weights vdrs ->
  applyWeightDiff vdrs nodeID weightDiff = (vdrs', None) ->
  nonzero_weights vdrs'.
Proof.
  intros Hnz HA other vdr L.
  destruct (applyWeightDiff_lookup _ _ _ _ HA) as [Hn Ho].
  destruct (decide (other = nodeID)) as [->|Hne].
  - destruct Hn as [Hn|(vdr' & Hn & Hw)]; congruence.
  - rewrite (Ho _ Hne) in L. exact (Hnz _ _ L).
Qed.

Lemma applyWeightDiffs_nonzero weightDiffs : forall vdrSet vdrSet',
  nonzero_weights vdrSet ->
  applyWeightDiffs vdrSet weightDiffs = Ok vdrSet' ->
  nonzero_weights vdrSet'.
Proof.
  induction weightDiffs as [|[nodeID weightDiff] rest IH];
    intros vdrSet vdrSet' Hnz HA; cbn in HA.
  - injection HA as <-. exact Hnz.
  - destruct (weightDiffStep vdrSet nodeID weightDiff) as [m [e|]] eqn:E;
      [discriminate|].
    rewrite weightDiffStep_applyWeightDiff in E.
    eapply IH; [|exact HA]. eapply applyWeightDiff_nonzero; eassumption.
Qed.

Lemma applyPublicKeyDiffs_nonzero pkDiffs : forall vdrSet,
  nonzero_weights vdrSet ->
  nonzero_weights (applyPublicKeyDiffs vdrSet pkDiffs).
Proof.
  induction pkDiffs as [|[nodeID pk] rest IH]; intros vdrSet Hnz; cbn.
  - exact Hnz.
  - destruct (vdrSet !! nodeID) as [vdr|] eqn:L; apply IH; [|exact Hnz].
    intros other vdr' L'.
    destruct (decide (other = nodeID)) as [->|Hne].
    + rewrite lookup_insert_eq in L'. injection L' as <-. cbn.
      exact (Hnz _ _ L).
    + rewrite lookup_insert_ne in L' by congruence. exact (Hnz _ _ L').
Qed.

Lemma replay_nonzero s subnetID n : forall i vdrSet vdrSet',
  nonzero_weights vdrSet ->
  replay s subnetID n i vdrSet = Ok vdrSet' ->
  nonzero_weights vdrSet'.
Proof.
  induction n as [|n IH]; intros i vdrSet vdrSet' Hnz HR; cbn in HR.
  - injection HR as <-. exact Hnz.
  - destruct (GetValidatorWeightDiffs s i subnetID) as [weightDiffs|e];
      [|discriminate].
    destruct (applyWeightDiffs vdrSet weightDiffs) as [m|e] eqn:E;
      [|discriminate].
    destruct (GetValidatorPublicKeyDiffs s i) as [pkDiffs|e]; [|discriminate].
    eapply IH; [|exact HR].
    apply applyPublicKeyDiffs_nonzero.
    eapply applyWeightDiffs_nonzero; [exact Hnz | exact E].
Qed.

Lemma currentVdrSet_nonzero primary l : forall vdrSet vdrSet',
  Forall (fun v => vdr_Weight v <> 0) l ->
  nonzero_weights vdrSet ->
  currentVdrSet primary l vdrSet = Ok vdrSet' ->
  nonzero_weights vdrSet'.
Proof.
  induction l as [|vdr rest IH]; intros vdrSet vdrSet' Hall Hnz HC; cbn in HC.
  - injection HC as <-. exact Hnz.
  - inversion Hall as [|? ? Hw Hrest]; subst.
    destruct (getValidator primary (vdr_NodeID vdr)) as [primaryVdr|];
      [|discriminate].
    eapply IH; [exact Hrest | | exact HC].
    intros other vdr' L.
    destruct (decide (other = vdr_NodeID vdr)) as [->|Hne].
    + rewrite lookup_insert_eq in L. injection L as <-. exact Hw.
    + rewrite lookup_insert_ne in L by congruence. exact (Hnz _ _ L).
Qed.

Lemma computeValidatorSet_nonzero vs height subnetID vdrSet :
  validators_nonzero vs subnetID ->
  computeValidatorSet vs height subnetID = Ok vdrSet ->
  nonzero_weights vdrSet.
Proof.
  intros Hv HC. unfold computeValidatorSet in HC.
  destruct (GetCurrentHeight vs) as [lastAcceptedHeight|e]; [|discriminate].
  destruct (lastAcceptedHeight <? height); [discriminate|].
  destruct (currentSubnetValidators vs subnetID) as [l|e] eqn:EL;
    [|discriminate].
  destruct (Validators (cfg vs) !! PrimaryNetworkID) as [primary|];
    [|discriminate].
  destruct (currentVdrSet primary l ∅) as [m|e] eqn:EC; [|discriminate].
  eapply replay_nonzero; [|exact HC].
  eapply currentVdrSet_nonzero; [exact (Hv _ EL) | | exact EC].
  intros nodeID vdr L. rewrite lookup_empty in L. discriminate.
Qed.

(** ** The per-subnet caches *)

Lemma In_firstn {A} (x : A) n : forall l, In x (firstn n l) -> In x l.
Proof.
  induction n as [|n IH]; intros [|y l] H; cbn in H; try contradiction.
  destruct H as [->|H]; [left; reflexivity | right; apply IH, H].
Qed.

Lemma LRU_find_In {V} key (l : list (Z * V)) v :
  LRU.find key l = Some v -> In (key, v) l.
Proof.
  unfold LRU.find. intros H.
  destruct (List.find _ l) as [[k v']|] eqn:F; [|discriminate].
  injection H as <-. apply find_some in F. destruct F as [Hin Hk].
  cbn in Hk. apply Z.eqb_eq in Hk. subst k. exact Hin.
Qed.

Lemma LRU_drop_In {V} key (l : list (Z * V)) e :
  In e (LRU.drop key l) -> In e l.
Proof. unfold LRU.drop. rewrite filter_In. tauto. Qed.

Lemma LRU_Get_entries {V} key (c c' : LRU.t V) r :
  LRU.Get key c = (r, c') ->
  (forall v, r = Some v -> In (key, v) (LRU.entries c)) /\
  (forall e, In e (LRU.entries c') -> In e (LRU.entries c)).
Proof.
  unfold LRU.Get. destruct (LRU.find key (LRU.entries c)) as [v|] eqn:F;
    intros H; injection H as <- <-.
  - apply LRU_find_In in F. split.
    + intros v' Hv. injection Hv as <-. exact F.
    + intros e [<-|He]; [exact F | exact (LRU_drop_In _ _ _ He)].
  - split; [discriminate | auto].
Qed.

Lemma LRU_Put_entries {V} key (v : V) c e :
  In e (LRU.entries (LRU.Put key v c)) ->
  e = (key, v) \/ In e (LRU.entries c).
Proof.
  unfold LRU.Put. cbn [LRU.entries]. intros H. apply In_firstn in H.
  destruct H as [<-|H]; [left; reflexivity | right].
  exact (LRU_drop_In _ _ _ H).
Qed.

Lemma getCache_same vs subnetID :
  cfg (snd (getCache vs subnetID)) = cfg vs /\
  st (snd (getCache vs subnetID)) = st vs.
Proof.
  unfold getCache. destruct (caches vs !! subnetID); [auto|].
  destruct (_ || _); auto.
Qed.

Lemma getCache_all P vs subnetID :
  caches_all P vs ->
  caches_all P (snd (getCache vs subnetID)) /\
  (forall h m, In (h, m) (LRU.entries (fst (getCache vs subnetID))) -> P h m).
Proof.
  intros Hall. unfold getCache.
  destruct (caches vs !! subnetID) as [c|] eqn:L; cbn.
  - split; [exact Hall | intros h m; exact (Hall _ _ _ _ L)].
  - destruct (_ || _); cbn; (split; [|intros h m []]); [|exact Hall].
    intros other c h m Lc Hin. cbn in Lc.
    destruct (decide (other = subnetID)) as [->|Hne].
    + rewrite lookup_insert_eq in Lc. injection Lc as <-. destruct Hin.
    + rewrite lookup_insert_ne in Lc by congruence. exact (Hall _ _ _ _ Lc Hin).
Qed.

Lemma storeCache_all P vs subnetID c :
  caches_all P vs ->
  (forall h m, In (h, m) (LRU.entries c) -> P h m) ->
  caches_all P (storeCache vs subnetID c).
Proof.
  intros Hall Hc. unfold storeCache.
  destruct (caches vs !! subnetID) as [c0|]; [|exact Hall].
  intros other c' h m Lc Hin. cbn in Lc.
  destruct (decide (other = subnetID)) as [->|Hne].
  - rewrite lookup_insert_eq in Lc. injection Lc as <-. exact (Hc _ _ Hin).
  - rewrite lookup_insert_ne in Lc by congruence. exact (Hall _ _ _ _ Lc Hin).
Qed.

Lemma computeValidatorSet_same vs vs' height subnetID :
  cfg vs' = cfg vs -> st vs' = st vs ->
  computeValidatorSet vs' height subnetID = computeValidatorSet vs height subnetID.
Proof.
  intros Hc Hs.
  unfold computeValidatorSet, GetCurrentHeight, currentSubnetValidators.
  rewrite Hc, Hs. reflexivity.
Qed.

(** What one call does to an invariant of the cached sets: if every set the
    call can compute for [height] satisfies [P], the result satisfies it and
    the caches keep satisfying it. *)
Lemma GetValidatorSet_all P vs height subnetID :
  caches_all P vs ->
  (forall m, computeValidatorSet vs height subnetID = Ok m -> P height m) ->
  caches_all P (snd (GetValidatorSet vs height subnetID)) /\
  (forall m, fst (GetValidatorSet vs height subnetID) = Ok m -> P height m).
Proof.
  intros Hall Hcomp. unfold GetValidatorSet.
  destruct (getCache_all P vs subnetID Hall) as [Hall1 Hc].
  destruct (getCache_same vs subnetID) as [Ecfg Est].
  destruct (getCache vs subnetID) as [c vs1]. cbn [fst snd] in *.
  rewrite (computeValidatorSet_same _ _ _ _ Ecfg Est).
  destruct (LRU.Get height c) as [[validatorSet|] c'] eqn:G.
  - destruct (LRU_Get_entries _ _ _ _ G) as [Hhit Hsub]. cbn. split.
    + apply storeCache_all; [exact Hall1|].
      intros h m Hin. apply Hc, Hsub, Hin.
    + intros m Hm. injection Hm as <-. apply Hc, Hhit. reflexivity.
  - destruct (computeValidatorSet vs height subnetID) as [vdrSet|e]; cbn.
    + split.
      * apply storeCache_all; [exact Hall1|].
        intros h m Hin. apply LRU_Put_entries in Hin.
        destruct Hin as [Heq|Hin]; [|apply Hc, Hin].
        injection Heq as -> ->. apply Hcomp. reflexivity.
      * intros m Hm. injection Hm as <-. apply Hcomp. reflexivity.
    + split; [exact Hall1 | discriminate].
Qed.

(** C3: on a reconstructor whose cached sets and live validators carry no
    zero weight, a successful [GetValidatorSet] returns a map without any
    node of weight 0, and the caches it leaves behind hold none either: a
    node whose weight reaches 0 during the replay is deleted. *)
Theorem GetValidatorSet_no_zero_weight vs height subnetID vdrSet vs' :
  caches_nonzero vs ->
  validators_nonzero vs subnetID ->
  GetValidatorSet vs height subnetID = (Ok vdrSet, vs') ->
  nonzero_weights vdrSet /\ caches_nonzero vs'.
Proof.
  intros Hc Hv HG.
  destruct (GetValidatorSet_all (fun _ m => nonzero_weights m)
              vs height subnetID Hc) as [Hall Hres].
  { intros m. apply computeValidatorSet_nonzero, Hv. }
  rewrite HG in Hall, Hres. cbn in Hall, Hres.
  split; [apply Hres; reflexivity | exact Hall].
Qed.

Lemma GetCurrentHeight_getCache vs subnetID :
  GetCurrentHeight (snd (getCache vs subnetID)) = GetCurrentHeight vs.
Proof.
  unfold GetCurrentHeight.
  destruct (getCache_same vs subnetID) as [_ ->]. reflexivity.
Qed.

(** The bound on the cached heights is kept by every call, and by every
    later growth of the last accepted height. *)
Lemma GetValidatorSet_cached_heights vs height subnetID current :
  GetCurrentHeight vs = Ok current ->
  cached_heights_le vs current ->
  cached_heights_le (snd (GetValidatorSet vs height subnetID)) current.
Proof.
  intros Hcur Hle.
  apply (GetValidatorSet_all (fun h' _ => h' <= current)); [exact Hle|].
  intros m. unfold computeValidatorSet. rewrite Hcur.
  destruct (Z.ltb_spec current height); [discriminate | lia].
Qed.

Lemma cached_heights_le_mono vs current current' :
  current <= current' ->
  cached_heights_le vs current -> cached_heights_le vs current'.
Proof.
  intros Hle H subnetID c h m L Hin. specialize (H _ _ _ _ L Hin).
  cbn in H. lia.
Qed.

(** C4: when the last accepted height is [current] and no set is cached
    above it, [GetValidatorSet] at any [height > current] fails with
    [database.ErrNotFound]. *)
Theorem GetValidatorSet_above_current_height vs height subnetID current :
  GetCurrentHeight vs = Ok current ->
  cached_heights_le vs current ->
  current < height ->
  fst (GetValidatorSet vs height subnetID) = Err ErrNotFound.
Proof.
  intros Hcur Hle Hlt. unfold GetValidatorSet.
  destruct (getCache_all _ vs subnetID Hle) as [_ Hc].
  pose proof (GetCurrentHeight_getCache vs subnetID) as Hcur1.
  destruct (getCache vs subnetID) as [c vs1]. cbn [fst snd] in *.
  destruct (LRU.Get height c) as [[validatorSet|] c'] eqn:G.
  - destruct (LRU_Get_entries _ _ _ _ G) as [Hhit _].
    specialize (Hc _ _ (Hhit _ eq_refl)). cbn in Hc. lia.
  - unfold computeValidatorSet. rewrite Hcur1, Hcur.
    destruct (Z.ltb_spec current height); [reflexivity | lia].
Qed.

(** ** The reconstructor on the example chain *)

Lemma caches_all_empty P c s0 : caches_all P (mkSet c s0 ∅).
Proof. intros subnetID c0 h m L. cbn in L. rewrite lookup_empty in L. discriminate. Qed.

Example exampleSet_height_0 :
  fst (GetValidatorSet exampleSet 0 PrimaryNetworkID)
  = Ok {[ 2%N := mkOut 2%N None 4 ]}.
Proof. vm_compute. reflexivity. Qed.

Lemma GetValidatorSet_no_zero_weight_witness :
  nonzero_weights {[ 2%N := mkOut 2%N None 4 ]} /\
  caches_nonzero (snd (GetValidatorSet exampleSet 0 PrimaryNetworkID)).
Proof.
  apply (GetValidatorSet_no_zero_weight exampleSet 0 PrimaryNetworkID).
  - apply caches_all_empty.
  - intros l E. vm_compute in E. injection E as <-.
    repeat constructor. cbn. lia.
  - vm_compute. reflexivity.
Defined.

Lemma GetValidatorSet_above_current_height_witness :
  fst (GetValidatorSet (snd (GetValidatorSet exampleSet 0 PrimaryNetworkID))
         5 PrimaryNetworkID)
  = Err ErrNotFound.
Proof.
  apply (GetValidatorSet_above_current_height _ 5 PrimaryNetworkID 1).
  - vm_compute. reflexivity.
  - apply GetValidatorSet_cached_heights; [reflexivity | apply caches_all_empty].
  - lia.
Defined.

(** ** Checksum *)

(** C10: [Checksum] returns [ids.Empty] on every state, whatever has been
    staged or committed, so any two states have the same checksum. *)
Theorem Checksum_constant :
  forall s s' : state, Checksum s = ids_Empty /\ Checksum s = Checksum s'.
Proof. intros s s'. split; reflexivity. Qed.

Example Checksum_after_Commit :
  Checksum (fst (Commit (idleCollaborators validatorGenesis)
                   (AddUTXO (freshState 5) (mkUTXO 3%N [0]))))
  = Checksum (freshState 5).
Proof. reflexivity. Qed.

(** ** Commit *)

Lemma Write_lookup batch d key :
  versiondb.closed d = false ->
  versiondb.db (fst (versiondb.Write batch d)) !! key
  = versiondb.applyOp (batch !! key) (versiondb.db d !! key).
Proof.
  intros Hc. unfold versiondb.Write. rewrite Hc. cbn.
  rewrite lookup_merge.
  destruct (batch !! key) as [[v|]|], (versiondb.db d !! key); reflexivity.
Qed.

Lemma processCurrentLoop_baseDB E diffs : forall out s,
  baseDB (snd (processCurrentLoop E diffs out s)) = baseDB s.
Proof.
  induction diffs as [|[subnetID subnetDiffs] rest IH]; intros out s; cbn;
    [reflexivity|].
  destruct (processSubnetDiffs _ _ _ _ _); [rewrite IH|]; reflexivity.
Qed.

Lemma processPendingLoop_baseDB E diffs : forall output s,
  baseDB (snd (processPendingLoop E diffs output s)) = baseDB s.
Proof.
  induction diffs as [|[subnetID subnetDiffs] rest IH]; intros output s; cbn;
    [reflexivity|].
  destruct (processPendingSubnet _ _ _ _); [rewrite IH|]; reflexivity.
Qed.

Lemma processCurrentLoop_staging E diffs : forall out s,
  same_staging_maps s (snd (processCurrentLoop E diffs out s)).
Proof.
  induction diffs as [|[subnetID subnetDiffs] rest IH]; intros out s; cbn;
    [repeat split|].
  destruct (processSubnetDiffs _ _ _ _ _); [|repeat split].
  exact (IH _ (dropCurrentDiffs s subnetID)).
Qed.

Lemma processPendingLoop_staging E diffs : forall output s,
  same_staging_maps s (snd (processPendingLoop E diffs output s)).
Proof.
  induction diffs as [|[subnetID subnetDiffs] rest IH]; intros output s; cbn;
    [repeat split|].
  destruct (processPendingSubnet _ _ _ _); [|repeat split].
  exact (IH _ (dropPendingDiffs s subnetID)).
Qed.

Lemma same_staging_maps_trans s1 s2 s3 :
  same_staging_maps s1 s2 -> same_staging_maps s2 s3 -> same_staging_maps s1 s3.
Proof.
  unfold same_staging_maps.
  intros (A1 & A2 & A3 & A4 & A5 & A6 & A7) (B1 & B2 & B3 & B4 & B5 & B6 & B7).
  repeat split; congruence.
Qed.

(** When draining the staker diffs fails, [write] returns the error and
    has touched neither the base database nor the staging maps. *)
Lemma write_draining_fails E updateValidators height s e :
  draining_fails E s e ->
  snd (write E updateValidators height s) = Some e /\
  baseDB (fst (write E updateValidators height s)) = baseDB s /\
  same_staging_maps s (fst (write E updateValidators height s)).
Proof.
  pose proof (processCurrentLoop_baseDB E
                (map_to_list (validatorDiffs (currentStakers s)))
                (mkOutputs ∅ ∅ ∅ ∅) s) as Hc.
  pose proof (processCurrentLoop_staging E
                (map_to_list (validatorDiffs (currentStakers s)))
                (mkOutputs ∅ ∅ ∅ ∅) s) as Sc.
  fold (processCurrentStakers E s) in Hc, Sc.
  unfold draining_fails, write.
  destruct (processCurrentStakers E s) as [[out0|e0] s1]; cbn [fst snd] in *.
  - intros [HE|(out & _ & HE)]; [discriminate HE|].
    pose proof (processPendingLoop_baseDB E
                  (map_to_list (validatorDiffs (pendingStakers s1))) ∅ s1) as Hp.
    pose proof (processPendingLoop_staging E
                  (map_to_list (validatorDiffs (pendingStakers s1))) ∅ s1) as Sp.
    fold (processPendingStakers E s1) in Hp, Sp.
    destruct (processPendingStakers E s1) as [[pendingData|e1] s2];
      cbn [fst snd] in *; [discriminate HE|].
    injection HE as ->. split; [reflexivity|]. split; [congruence|].
    eapply same_staging_maps_trans; eassumption.
  - intros [HE|(out & HE & _)]; [|discriminate HE].
    injection HE as ->. split; [reflexivity|]. split; assumption.
Qed.




(** A staged marker is flushed and the staging area is cleared. *)
Example Commit_flushes_and_clears :
  let s := fst (doneInit (freshState 5)) in
  let s' := fst (Commit (idleCollaborators validatorGenesis) s) in
  versiondb.mem (baseDB s) !! markerKey = Some (Some []) /\
  versiondb.db (baseDB s) !! markerKey = None /\
  versiondb.mem (baseDB s') = ∅ /\
  versiondb.db (baseDB s') !! markerKey = Some [].
Proof. vm_compute. repeat split. Qed.

(** When [write] fails (here the transaction of an added validator is
    unknown), nothing is flushed and the staged marker is dropped. *)
Example Commit_failed_write :
  let v := mkStaker 11%N 1%N None PrimaryNetworkID 20 0 100 0 in
  let s := PutCurrentValidator (fst (doneInit (freshState 5))) v in
  let r := Commit (idleCollaborators validatorGenesis) s in
  snd r = Some (ErrWrapped 1 ErrNotFound) /\
  versiondb.mem (baseDB (fst r)) = ∅ /\
  versiondb.db (baseDB (fst r)) = ∅.
Proof. vm_compute. repeat split. Qed.

(** ** Weight diffs handed to, and written by, [writeWeightDiffs] *)

Lemma processValidatorDiff_weights E s subnetID nodeID validatorDiff out out' :
  processValidatorDiff E s subnetID nodeID validatorDiff out = Ok out' ->
  exists weightDiff,
    outputWeights out' = <[(subnetID, nodeID) := weightDiff]> (outputWeights out).
Proof.
  unfold processValidatorDiff.
  destruct (processValidatorStatus _ _ _ _ _ _)
    as [[[stakers weightDiff] blsKey]|e]; [|discriminate].
  destruct (processAddedDelegators _ _ _ _ _) as [[stakers1 weightDiff1]|e];
    [|discriminate].
  destruct (processDeletedDelegators _ _ _) as [[stakers2 weightDiff2]|e];
    [|discriminate].
  intros H. injection H as <-. exists weightDiff2. reflexivity.
Qed.

Lemma processSubnetDiffs_weights E s subnetID l : forall out out',
  processSubnetDiffs E s subnetID l out = Ok out' ->
  (forall k, is_Some (outputWeights out !! k) ->
             is_Some (outputWeights out' !! k)) /\
  (forall nodeID validatorDiff, In (nodeID, validatorDiff) l ->
     is_Some (outputWeights out' !! (subnetID, nodeID))).
Proof.
  induction l as [|[nodeID validatorDiff] rest IH]; intros out out' H; cbn in H.
  - injection H as <-. split; [auto | intros ? ? []].
  - destruct (processValidatorDiff E s subnetID nodeID validatorDiff out)
      as [out1|e] eqn:E1; [|discriminate].
    destruct (processValidatorDiff_weights _ _ _ _ _ _ _ E1) as [w Hw].
    destruct (IH _ _ H) as [Hmono Hcov].
    assert (Hstep : forall k, is_Some (outputWeights out !! k) ->
                              is_Some (outputWeights out1 !! k)).
    { intros k Hk. rewrite Hw.
      destruct (decide (k = (subnetID, nodeID))) as [->|Hne].
      - rewrite lookup_insert_eq. eauto.
      - rewrite lookup_insert_ne by congruence. exact Hk. }
    split.
    + intros k Hk. apply Hmono, Hstep, Hk.
    + intros nodeID' vd' [Heq|Hin].
      * injection Heq as <- <-. apply Hmono. rewrite Hw, lookup_insert_eq. eauto.
      * eapply Hcov, Hin.
Qed.

Lemma processCurrentLoop_weights E diffs : forall out s out' s',
  processCurrentLoop E diffs out s = (Ok out', s') ->
  (forall k, is_Some (outputWeights out !! k) ->
             is_Some (outputWeights out' !! k)) /\
  (forall subnetID (subnetDiffs : gmap N diffValidator) nodeID validatorDiff,
     In (subnetID, subnetDiffs) diffs ->
     subnetDiffs !! nodeID = Some validatorDiff ->
     is_Some (outputWeights out' !! (subnetID, nodeID))).
Proof.
  induction diffs as [|[subnetID subnetDiffs] rest IH];
    intros out s out' s' H; cbn in H.
  - injection H as <- <-. split; [auto | intros ? ? ? ? []].
  - destruct (processSubnetDiffs E (dropCurrentDiffs s subnetID) subnetID
                (map_to_list subnetDiffs) out) as [out1|e] eqn:E1;
      [|discriminate].
    destruct (processSubnetDiffs_weights _ _ _ _ _ _ E1) as [Hmono1 Hcov1].
    destruct (IH _ _ _ _ H) as [Hmono Hcov].
    split.
    + intros k Hk. apply Hmono, Hmono1, Hk.
    + intros subnetID' subnetDiffs' nodeID vd [Heq|Hin] L.
      * injection Heq as <- <-. apply Hmono, (Hcov1 nodeID vd).
        apply list_elem_of_In, elem_of_map_to_list, L.
      * eapply Hcov; eassumption.
Qed.

Lemma sectionPut_frame prefix key value s :
  versiondb.db (baseDB (fst (sectionPut prefix key value s)))
  = versiondb.db (baseDB s) /\
  versiondb.closed (baseDB (fst (sectionPut prefix key value s)))
  = versiondb.closed (baseDB s) /\
  (forall k, k <> prefixed prefix key ->
     versiondb.mem (baseDB (fst (sectionPut prefix key value s))) !! k
     = versiondb.mem (baseDB s) !! k).
Proof.
  unfold sectionPut, versiondb.Put.
  destruct (versiondb.closed (baseDB s)) eqn:Hc; cbn.
  - auto.
  - split; [reflexivity|]. split; [reflexivity|].
    intros k Hne. apply lookup_insert_ne. congruence.
Qed.

Lemma writeWeightDiffsLoop_changes height entries : forall s,
  versiondb.db (baseDB (fst (writeWeightDiffsLoop height entries s)))
  = versiondb.db (baseDB s) /\
  (forall k,
     versiondb.mem (baseDB (fst (writeWeightDiffsLoop height entries s))) !! k
     <> versiondb.mem (baseDB s) !! k ->
     exists weightKey weightDiff,
       In (weightKey, weightDiff) entries /\ Amount weightDiff <> 0 /\
       k = prefixed merkleWeightDiffPrefix
             (marshalDiffKey (fst weightKey) height (snd weightKey))).
Proof.
  induction entries as [|[weightKey weightDiff] rest IH]; intros s; cbn.
  - split; [reflexivity | intros k Hk; contradiction].
  - destruct (Z.eqb_spec (Amount weightDiff) 0) as [Hz|Hnz].
    + destruct (IH s) as [Hdb Hmem]. split; [exact Hdb|].
      intros k Hk. destruct (Hmem k Hk) as (wk & wd & Hin & Hrest).
      exists wk, wd. split; [right; exact Hin | exact Hrest].
    + pose proof (sectionPut_frame merkleWeightDiffPrefix
                    (marshalDiffKey (fst weightKey) height (snd weightKey))
                    (marshalWeightDiff weightDiff) s) as (Pdb & _ & Pmem).
      destruct (sectionPut _ _ _ s) as [s1 [e|]]; cbn [fst] in *.
      * split; [exact Pdb|]. intros k Hk.
        exists weightKey, weightDiff. split; [left; reflexivity|].
        split; [exact Hnz|].
        destruct (decide (k = prefixed merkleWeightDiffPrefix
                    (marshalDiffKey (fst weightKey) height (snd weightKey))))
          as [->|Hne]; [reflexivity|].
        contradiction Hk. apply Pmem, Hne.
      * destruct (IH s1) as [Hdb Hmem]. split; [congruence|].
        intros k Hk.
        destruct (decide (versiondb.mem (baseDB
                    (fst (writeWeightDiffsLoop height rest s1))) !! k
                  = versiondb.mem (baseDB s1) !! k)) as [Hsame|Hdiff].
        -- exists weightKey, weightDiff. split; [left; reflexivity|].
           split; [exact Hnz|].
           destruct (decide (k = prefixed merkleWeightDiffPrefix
                       (marshalDiffKey (fst weightKey) height (snd weightKey))))
             as [->|Hne]; [reflexivity|].
           contradiction Hk. rewrite Hsame. apply Pmem, Hne.
        -- destruct (Hmem k Hdiff) as (wk & wd & Hin & Hrest).
           exists wk, wd. split; [right; exact Hin | exact Hrest].
Qed.

(** C5: every (subnet, node) with a staker diff gets an entry in the
    weight-diff map that [processCurrentStakers] hands on, net-zero entries
    included; [writeWeightDiffs] then stages a record only under the key of
    an entry whose Amount is nonzero, and leaves the underlying store
    alone. *)
Theorem zero_weight_diffs_are_not_written E s out s1 height s2 :
  processCurrentStakers E s = (Ok out, s1) ->
  (forall subnetID (subnetDiffs : gmap N diffValidator) nodeID validatorDiff,
     validatorDiffs (currentStakers s) !! subnetID = Some subnetDiffs ->
     subnetDiffs !! nodeID = Some validatorDiff ->
     is_Some (outputWeights out !! (subnetID, nodeID))) /\
  versiondb.db (baseDB (fst (writeWeightDiffs height (outputWeights out) s2)))
  = versiondb.db (baseDB s2) /\
  (forall k,
     versiondb.mem (baseDB (fst (writeWeightDiffs height (outputWeights out) s2))) !! k
     <> versiondb.mem (baseDB s2) !! k ->
     exists weightKey weightDiff,
       outputWeights out !! weightKey = Some weightDiff /\
       Amount weightDiff <> 0 /\
       k = prefixed merkleWeightDiffPrefix
             (marshalDiffKey (fst weightKey) height (snd weightKey))).
Proof.
  intros HP. split; [|split].
  - intros subnetID subnetDiffs nodeID vd L1 L2.
    unfold processCurrentStakers in HP.
    apply (proj2 (processCurrentLoop_weights _ _ _ _ _ _ HP)
             subnetID subnetDiffs nodeID vd); [|exact L2].
    apply list_elem_of_In, elem_of_map_to_list, L1.
  - apply writeWeightDiffsLoop_changes.
  - intros k Hk. unfold writeWeightDiffs in Hk.
    destruct (proj2 (writeWeightDiffsLoop_changes _ _ _) k Hk)
      as (wk & wd & Hin & Hnz & Hkey).
    exists wk, wd. split; [|auto].
    apply elem_of_map_to_list, list_elem_of_In, Hin.
Qed.

(** On [netZeroState] the entry of node 1 is computed with Amount 0 and
    nothing is staged for it. *)
Example net_zero_diff_is_computed_not_written :
  let E := idleCollaborators validatorGenesis in
  exists out s1,
    processCurrentStakers E netZeroState = (Ok out, s1) /\
    outputWeights out !! (PrimaryNetworkID, 1%N) = Some (mkDiff true 0) /\
    baseDB (fst (writeWeightDiffs 3 (outputWeights out) s1)) = baseDB s1.
Proof.
  cbn zeta. eexists. eexists.
  split; [vm_compute; reflexivity|]. split; vm_compute; reflexivity.
Qed.

Lemma zero_weight_diffs_are_not_written_witness :
  let E := idleCollaborators validatorGenesis in
  let r := processCurrentStakers E netZeroState in
  let out := match fst r with Ok out => out | Err _ => mkOutputs ∅ ∅ ∅ ∅ end in
  is_Some (outputWeights out !! (PrimaryNetworkID, 1%N)) /\
  versiondb.db (baseDB (fst (writeWeightDiffs 3 (outputWeights out) (snd r))))
  = versiondb.db (baseDB (snd r)).
Proof.
  cbn zeta.
  set (E := idleCollaborators validatorGenesis).
  set (r := processCurrentStakers E netZeroState).
  set (out := match fst r with Ok out => out | Err _ => mkOutputs ∅ ∅ ∅ ∅ end).
  assert (HP : processCurrentStakers E netZeroState = (Ok out, snd r))
    by (vm_compute; reflexivity).
  destruct (zero_weight_diffs_are_not_written E netZeroState out (snd r) 3
              (snd r) HP) as (Hcov & Hdb & _).
  split; [|exact Hdb].
  apply (Hcov PrimaryNetworkID
           {[ 1%N := mkDiffValidator unmodified None
                       [mkStaker 21%N 1%N None PrimaryNetworkID 7 0 50 0]
                       [mkStaker 22%N 1%N None PrimaryNetworkID 7 0 50 0] ]}
           1%N
           (mkDiffValidator unmodified None
              [mkStaker 21%N 1%N None PrimaryNetworkID 7 0 50 0]
              [mkStaker 22%N 1%N None PrimaryNetworkID 7 0 50 0]));
    vm_compute; reflexivity.
Defined.

(** ** Genesis and the network ID *)

Lemma syncGenesisUTXOs_base utxos : forall s,
  same_base s (syncGenesisUTXOs utxos s).
Proof.
  unfold syncGenesisUTXOs.
  induction utxos as [|utxo rest IH]; intros s; cbn; [split; reflexivity|].
  destruct (IH (AddUTXO s utxo)) as [H1 H2]. split; [rewrite H1 | rewrite H2];
    reflexivity.
Qed.

Lemma syncGenesisHead_base genesisBlk genesis s :
  same_base s (syncGenesisHead genesisBlk genesis s).
Proof.
  unfold syncGenesisHead.
  destruct (syncGenesisUTXOs_base (gen_UTXOs genesis)
              (AddStatelessBlock
                 (SetCurrentSupply
                    (SetTimestamp (SetLastAccepted s (blk_ID genesisBlk))
                       (gen_Timestamp genesis))
                    PrimaryNetworkID (gen_InitialSupply genesis))
                 genesisBlk)) as [H1 H2].
  split; [rewrite H1 | rewrite H2]; reflexivity.
Qed.

Lemma syncGenesisValidators_base E vdrTxs : forall s,
  same_base s (fst (syncGenesisValidators E vdrTxs s)).
Proof.
  induction vdrTxs as [|vdrTx rest IH]; intros s; cbn; [split; reflexivity|].
  destruct (tx_Unsigned vdrTx) as [? ?|networkID validatorTx|?];
    try (split; reflexivity).
  destruct (GetCurrentSupply E s PrimaryNetworkID) as [currentSupply|e];
    [|split; reflexivity].
  destruct (safemath.Add64 _ _) as [newCurrentSupply [e|]];
    [split; reflexivity|].
  destruct (NewCurrentStaker E _ _ _) as [staker|e]; [|split; reflexivity].
  match goal with
  | |- same_base _ (fst (syncGenesisValidators E rest ?s1)) =>
      destruct (IH s1) as [H1 H2]
  end.
  split; [rewrite H1 | rewrite H2]; reflexivity.
Qed.

Lemma syncGenesisChains_base chains : forall s,
  same_base s (fst (syncGenesisChains chains s)).
Proof.
  induction chains as [|chain rest IH]; intros s; cbn; [split; reflexivity|].
  destruct (tx_Unsigned chain) as [networkID subnetID|? ?|?];
    try (split; reflexivity).
  destruct (negb (networkID =? ctx_NetworkID s)); [split; reflexivity|].
  match goal with
  | |- same_base _ (fst (syncGenesisChains rest ?s1)) =>
      destruct (IH s1) as [H1 H2]
  end.
  split; [rewrite H1 | rewrite H2]; reflexivity.
Qed.

Lemma syncGenesisChains_wrong_network chains : forall s,
  Forall isCreateChainTx chains ->
  Exists (fun chain => tx_NetworkID chain <> ctx_NetworkID s) chains ->
  snd (syncGenesisChains chains s) = Some ErrWrongNetworkID.
Proof.
  induction chains as [|chain rest IH]; intros s Hall Hex.
  - inversion Hex.
  - inversion Hall as [|? ? (networkID & subnetID & Hc) Hrest]; subst.
    cbn. rewrite Hc.
    destruct (Z.eqb_spec networkID (ctx_NetworkID s)) as [Heq|Hne]; cbn;
      [|reflexivity].
    apply IH; [exact Hrest|].
    inversion Hex as [? ? Hbad|? ? Hlater]; subst.
    + unfold tx_NetworkID in Hbad. rewrite Hc in Hbad. contradiction.
    + exact Hlater.
Qed.

(** C9, as stated, fails: [syncGenesis] compares only the network ID of
    the chain-creation transactions.  The genesis [validatorGenesis], whose
    validator transaction was made for network 5, is accepted by a state
    of network 10. *)
Lemma syncGenesis_accepts_foreign_validator :
  ~ syncGenesis_as_stated (idleCollaborators validatorGenesis)
      (mkBlock 42%N 0) validatorGenesis (freshState 10).
Proof.
  unfold syncGenesis_as_stated. intros H.
  assert (Hok : snd (syncGenesis (idleCollaborators validatorGenesis)
                       (mkBlock 42%N 0) validatorGenesis (freshState 10))
                = None) by (vm_compute; reflexivity).
  rewrite Hok in H. discriminate H.
  eexists. split; [left; reflexivity|]. cbn. lia.
Qed.

(** That run stages the weight diff of the foreign validator at height 0. *)
Example syncGenesis_seeds_foreign_validator :
  versiondb.mem
    (baseDB (fst (syncGenesis (idleCollaborators validatorGenesis)
                    (mkBlock 42%N 0) validatorGenesis (freshState 10))))
  !! prefixed merkleWeightDiffPrefix (marshalDiffKey PrimaryNetworkID 0 1%N)
  = Some (Some (marshalWeightDiff (mkDiff false 20))).
Proof. vm_compute. reflexivity. Qed.

(** C9 (amended): when the validators of the genesis are staged without
    error and its chains are chain-creation transactions, a chain whose
    network ID differs from the context's makes [syncGenesis] fail with
    [avax.ErrWrongNetworkID] before [write] is reached: the base database
    is as it was. *)
Theorem syncGenesis_rejects_foreign_chain E genesisBlk genesis s :
  snd (syncGenesisValidators E (gen_Validators genesis)
         (syncGenesisHead genesisBlk genesis s)) = None ->
  Forall isCreateChainTx (gen_Chains genesis) ->
  Exists (fun chain => tx_NetworkID chain <> ctx_NetworkID s)
    (gen_Chains genesis) ->
  snd (syncGenesis E genesisBlk genesis s) = Some ErrWrongNetworkID /\
  baseDB (fst (syncGenesis E genesisBlk genesis s)) = baseDB s.
Proof.
  intros Hv Hall Hex. unfold syncGenesis.
  destruct (syncGenesisHead_base genesisBlk genesis s) as [Hn0 Hb0].
  pose proof (syncGenesisValidators_base E (gen_Validators genesis)
                (syncGenesisHead genesisBlk genesis s)) as [Hn1 Hb1].
  destruct (syncGenesisValidators E (gen_Validators genesis)
              (syncGenesisHead genesisBlk genesis s)) as [s1 err1].
  cbn [fst snd] in *. subst err1.
  pose proof (syncGenesisChains_base (gen_Chains genesis) s1) as [Hn2 Hb2].
  pose proof (syncGenesisChains_wrong_network (gen_Chains genesis) s1 Hall)
    as Hwrong.
  rewrite Hn1, Hn0 in Hwrong. specialize (Hwrong Hex).
  destruct (syncGenesisChains (gen_Chains genesis) s1) as [s2 err2].
  cbn [fst snd] in *. subst err2. cbn.
  split; [reflexivity | congruence].
Qed.

Lemma syncGenesis_rejects_foreign_chain_witness :
  snd (syncGenesis (idleCollaborators chainGenesis) (mkBlock 42%N 0)
         chainGenesis (freshState 10)) = Some ErrWrongNetworkID /\
  baseDB (fst (syncGenesis (idleCollaborators chainGenesis) (mkBlock 42%N 0)
                 chainGenesis (freshState 10)))
  = baseDB (freshState 10).
Proof.
  apply syncGenesis_rejects_foreign_chain.
  - vm_compute. reflexivity.
  - repeat constructor. exists 5, PrimaryNetworkID. reflexivity.
  - apply Exists_cons_hd. cbn. lia.
Defined.

(** ** The initialization marker and [sync] *)

Lemma same_marker_refl s : same_marker s s.
Proof. repeat split. Qed.

Lemma same_marker_trans s1 s2 s3 :
  same_marker s1 s2 -> same_marker s2 s3 -> same_marker s1 s3.
Proof.
  intros (A1 & A2 & A3) (B1 & B2 & B3). repeat split; congruence.
Qed.

Lemma same_marker_baseDB s s' : baseDB s' = baseDB s -> same_marker s s'.
Proof. intros H. unfold same_marker. rewrite H. repeat split. Qed.

Lemma Has_same_marker s s' :
  same_marker s s' ->
  versiondb.Has markerKey (baseDB s') = versiondb.Has markerKey (baseDB s).
Proof.
  intros (Hc & Hm & Hd). unfold versiondb.Has. rewrite Hc, Hm, Hd. reflexivity.
Qed.

(** A write under another prefix leaves the marker alone. *)
Lemma sectionPut_marker prefix b key value s :
  b <> 1 -> prefix = [b] ->
  same_marker s (fst (sectionPut prefix key value s)).
Proof.
  intros Hb ->.
  destruct (sectionPut_frame [b] key value s) as (Hdb & Hc & Hmem).
  split; [exact Hc|]. split; [|rewrite Hdb; reflexivity].
  apply Hmem. unfold markerKey, prefixed, merkleSingletonPrefix. cbn.
  congruence.
Qed.

Lemma writeWeightDiffsLoop_marker height entries : forall s,
  same_marker s (fst (writeWeightDiffsLoop height entries s)).
Proof.
  induction entries as [|[weightKey weightDiff] rest IH]; intros s; cbn.
  - apply same_marker_refl.
  - destruct (Amount weightDiff =? 0); [apply IH|].
    pose proof (sectionPut_marker merkleWeightDiffPrefix 6
                  (marshalDiffKey (fst weightKey) height (snd weightKey))
                  (marshalWeightDiff weightDiff) s) as HP.
    destruct (sectionPut _ _ _ s) as [s1 [e|]]; cbn [fst] in *.
    + apply HP; [lia | reflexivity].
    + eapply same_marker_trans; [apply HP; [lia | reflexivity] | apply IH].
Qed.

Lemma writeBlsKeyDiffsLoop_marker height entries : forall s,
  same_marker s (fst (writeBlsKeyDiffsLoop height entries s)).
Proof.
  induction entries as [|[nodeID blsKey] rest IH]; intros s; cbn.
  - apply same_marker_refl.
  - pose proof (sectionPut_marker merkleBlsKeyDiffPrefix 7
                  (marshalDiffKey PrimaryNetworkID height nodeID)
                  (default [] blsKey) s) as HP.
    destruct (sectionPut _ _ _ s) as [s1 [e|]]; cbn [fst] in *.
    + apply HP; [lia | reflexivity].
    + eapply same_marker_trans; [apply HP; [lia | reflexivity] | apply IH].
Qed.

Lemma write_marker E updateValidators height s :
  sections_keep_marker E ->
  same_marker s (fst (write E updateValidators height s)).
Proof.
  intros (K1 & K2 & K3 & K4 & K5 & K6 & _). unfold write.
  pose proof (processCurrentLoop_baseDB E
                (map_to_list (validatorDiffs (currentStakers s)))
                (mkOutputs ∅ ∅ ∅ ∅) s) as Hc.
  fold (processCurrentStakers E s) in Hc.
  destruct (processCurrentStakers E s) as [[out|e] s1]; cbn [snd] in Hc;
    [|apply same_marker_baseDB, Hc].
  pose proof (processPendingLoop_baseDB E
                (map_to_list (validatorDiffs (pendingStakers s1))) ∅ s1) as Hp.
  fold (processPendingStakers E s1) in Hp.
  destruct (processPendingStakers E s1) as [[pendingData|e] s2];
    cbn [snd] in Hp; [|apply same_marker_baseDB; cbn [fst]; congruence].
  pose proof (K1 (outputStakers out) pendingData s2) as M1.
  destruct (writeMerkleState E (outputStakers out) pendingData s2) as [s3 e1].
  pose proof (K2 s3) as M2. destruct (writeBlocks E s3) as [s4 e2].
  pose proof (K3 s4) as M3. destruct (writeTxs E s4) as [s5 e3].
  pose proof (K4 s5) as M4. destruct (writeLocalUptimes E s5) as [s6 e4].
  pose proof (writeWeightDiffsLoop_marker height
                (map_to_list (outputWeights out)) s6) as M5.
  fold (writeWeightDiffs height (outputWeights out) s6) in M5.
  destruct (writeWeightDiffs height (outputWeights out) s6) as [s7 e5].
  pose proof (writeBlsKeyDiffsLoop_marker height
                (map_to_list (outputBlsKey out)) s7) as M6.
  fold (writeBlsKeyDiffs height (outputBlsKey out) s7) in M6.
  destruct (writeBlsKeyDiffs height (outputBlsKey out) s7) as [s8 e6].
  pose proof (K5 s8) as M7. destruct (writeRewardUTXOs E s8) as [s9 e7].
  pose proof (K6 updateValidators (outputValSet out) (outputWeights out) s9)
    as M8.
  destruct (updateValidatorSet E updateValidators (outputValSet out)
              (outputWeights out) s9) as [s10 e8].
  cbn [fst] in *.
  assert (M0 : same_marker s s2) by (apply same_marker_baseDB; congruence).
  repeat (eapply same_marker_trans; [eassumption|]).
  apply same_marker_refl.
Qed.

Lemma doneInit_stages_marker s s' :
  doneInit s = (s', None) ->
  versiondb.closed (baseDB s') = false /\
  versiondb.mem (baseDB s') !! markerKey = Some (Some []).
Proof.
  unfold doneInit, sectionPut, versiondb.Put.
  destruct (versiondb.closed (baseDB s)) eqn:Hc; [discriminate|].
  intros H. injection H as <-. cbn. split; [reflexivity|].
  apply lookup_insert_eq.
Qed.

(** A successful [Commit] of a state in which the marker is staged leaves
    an initialized store. *)
Lemma Commit_persists_marker E s s' value :
  sections_keep_marker E ->
  versiondb.closed (baseDB s) = false ->
  versiondb.mem (baseDB s) !! markerKey = Some (Some value) ->
  Commit E s = (s', None) ->
  initialized s'.
Proof.
  intros HE Hc Hm HC. unfold Commit, CommitBatch in HC.
  pose proof (write_marker E true (lastAcceptedHeight s) s HE) as (Wc & Wm & Wd).
  destruct (write E true (lastAcceptedHeight s) s) as [s1 [e|]];
    cbn [fst] in *; [discriminate|].
  rewrite Hc in Wc. rewrite Hm in Wm.
  unfold versiondb.CommitBatch in HC. rewrite Wc in HC.
  pose proof (Write_lookup (versiondb.mem (baseDB s1)) (baseDB s1) markerKey Wc)
    as HW.
  unfold versiondb.Write in HC, HW. rewrite Wc in HC, HW. cbn in HC, HW.
  injection HC as <-.
  unfold initialized, versiondb.Has. cbn in *.
  rewrite lookup_empty, HW, Wm. reflexivity.
Qed.

Lemma init_initializes E genesisBytes s s' :
  sections_keep_marker E ->
  init E genesisBytes s = (s', None) ->
  initialized s'.
Proof.
  intros HE HI. unfold init in HI.
  destruct (NewApricotCommitBlock E _ 0) as [genesisBlock|e]; [|discriminate].
  destruct (genesis_Parse E genesisBytes) as [genesisState|e]; [|discriminate].
  destruct (syncGenesis E genesisBlock genesisState s) as [s1 [e|]];
    [discriminate|].
  destruct (doneInit s1) as [s2 [e|]] eqn:D; [discriminate|].
  destruct (doneInit_stages_marker _ _ D) as [Hc Hm].
  eapply Commit_persists_marker; eassumption.
Qed.

Lemma sync_initialized E genesis s :
  initialized s -> sync E genesis s = load E s.
Proof.
  unfold initialized, sync, shouldInit. fold markerKey. intros ->. reflexivity.
Qed.

(** C8: on a store that holds the marker, [sync] is [load] and nothing
    else, whatever the genesis bytes are; and when the unmodelled sections
    leave the singleton section alone, a store on which [sync] has
    succeeded holds the marker, so that a second [sync] is again [load]
    only. *)
Theorem sync_skips_initialized_store E s :
  (initialized s -> forall genesis, sync E genesis s = load E s) /\
  (sections_keep_marker E ->
   forall genesis s1,
     sync E genesis s = (s1, None) ->
     initialized s1 /\ forall genesis', sync E genesis' s1 = load E s1).
Proof.
  split.
  - intros Hi genesis. apply sync_initialized, Hi.
  - intros HE genesis s1 HS.
    assert (Hi : initialized s1).
    { pose proof HE as (_ & _ & _ & _ & _ & _ & KL).
      unfold sync in HS.
      destruct (shouldInit s) as [b [e|]] eqn:SI; cbn in HS; [discriminate|].
      destruct b.
      - destruct (init E genesis s) as [s0 [e|]] eqn:I; [discriminate|].
        pose proof (init_initializes _ _ _ _ HE I) as Hi0.
        unfold initialized. rewrite <- Hi0.
        replace s1 with (fst (load E s0)) by (rewrite HS; reflexivity).
        apply Has_same_marker, KL.
      - assert (Hi0 : initialized s).
        { unfold initialized. unfold shouldInit in SI. fold markerKey in SI.
          destruct (versiondb.Has markerKey (baseDB s)) as [has err].
          injection SI as Hn ->. destruct has; [reflexivity | discriminate]. }
        unfold initialized. rewrite <- Hi0.
        replace s1 with (fst (load E s)) by (rewrite HS; reflexivity).
        apply Has_same_marker, KL. }
    split; [exact Hi|]. intros genesis'. apply sync_initialized, Hi.
Qed.

Lemma idleCollaborators_keep_marker genesis :
  sections_keep_marker (idleCollaborators genesis).
Proof. repeat split. Qed.

Lemma sync_skips_initialized_store_witness :
  let E := idleCollaborators validatorGenesis in
  let s1 := fst (sync E [1; 2; 3] (freshState 5)) in
  sync E [4; 5; 6] s1 = load E s1 /\
  (initialized s1 /\ forall genesis', sync E genesis' s1 = load E s1).
Proof.
  cbn zeta. split.
  - apply (proj1 (sync_skips_initialized_store
                    (idleCollaborators validatorGenesis)
                    (fst (sync (idleCollaborators validatorGenesis) [1; 2; 3]
                            (freshState 5))))).
    vm_compute. reflexivity.
  - apply (proj2 (sync_skips_initialized_store
                    (idleCollaborators validatorGenesis) (freshState 5))
             (idleCollaborators_keep_marker validatorGenesis) [1; 2; 3]).
    vm_compute. reflexivity.
Defined.

(* ================================================================== *)
(** * Part III: further properties of the code                         *)
(* ================================================================== *)

(** ** One weight diff *)

Lemma Sub_ok a b :
  uint64 a -> uint64 b -> b <= a -> safemath.Sub a b = (a - b, None).
Proof.
  intros Ha Hb Hle. unfold safemath.Sub.
  destruct (Z.ltb_spec a b); [lia|].
  rewrite wrap64_id; [reflexivity | unfold uint64 in *; lia].
Qed.

Lemma Sub_underflow a b :
  a < b -> safemath.Sub a b = (0, Some ErrUnderflow).
Proof.
  intros Hlt. unfold safemath.Sub.
  destruct (Z.ltb_spec a b); [reflexivity | lia].
Qed.

(** [applyWeightDiff] in terms of the entry of its node. *)
Lemma applyWeightDiff_entryAfter vdrs nodeID weightDiff :
  match entryAfter nodeID weightDiff (vdrs !! nodeID) with
  | Err e => snd (applyWeightDiff vdrs nodeID weightDiff) = Some e
  | Ok entry =>
      snd (applyWeightDiff vdrs nodeID weightDiff) = None /\
      fst (applyWeightDiff vdrs nodeID weightDiff) !! nodeID = entry /\
      forall other, other <> nodeID ->
        fst (applyWeightDiff vdrs nodeID weightDiff) !! other = vdrs !! other
  end.
Proof.
  unfold entryAfter, applyWeightDiff.
  destruct (vdrs !! nodeID) as [vdr|] eqn:L; cbn [default];
    destruct (if Decrease weightDiff then _ else _) as [w [e|]];
    try reflexivity;
    destruct (Z.eqb_spec w 0) as [Hz|Hnz]; cbn [fst snd];
    (split; [reflexivity|]); split;
    try (apply lookup_delete_eq); try (apply lookup_insert_eq);
    intros other Hne;
    rewrite ?lookup_delete_ne, ?lookup_insert_ne by congruence; reflexivity.
Qed.

Lemma entryAfter_weight nodeID weightDiff entry :
  uint64 (from_option out_Weight 0 entry) -> uint64 (Amount weightDiff) ->
  let w := from_option out_Weight 0 entry in
  entryAfter nodeID weightDiff entry =
    if Decrease weightDiff then
      if MaxUint64 <? w + Amount weightDiff then Err ErrOverflow
      else Ok (if w + Amount weightDiff =? 0 then None
               else Some (setWeight (default (mkOut nodeID None 0) entry)
                            (w + Amount weightDiff)))
    else
      if w <? Amount weightDiff then Err ErrUnderflow
      else Ok (if w - Amount weightDiff =? 0 then None
               else Some (setWeight (default (mkOut nodeID None 0) entry)
                            (w - Amount weightDiff))).
Proof.
  intros Hw Ha. cbn zeta. unfold entryAfter.
  assert (Hd : out_Weight (default (mkOut nodeID None 0) entry)
               = from_option out_Weight 0 entry) by (destruct entry; reflexivity).
  rewrite Hd. set (w := from_option out_Weight 0 entry) in *.
  destruct (Decrease weightDiff).
  - destruct (Z.ltb_spec MaxUint64 (w + Amount weightDiff)).
    + rewrite Add64_overflow by assumption. reflexivity.
    + rewrite Add64_ok by assumption. reflexivity.
  - destruct (Z.ltb_spec w (Amount weightDiff)).
    + rewrite Sub_underflow by assumption. reflexivity.
    + rewrite Sub_ok by (assumption || lia). reflexivity.
Qed.

(** X1: for 64-bit operands, [applyWeightDiff] fails exactly in two cases:
    a decrease whose amount added to the node's weight leaves the 64-bit
    range (overflow), and an increase larger than the node's weight
    (underflow); a node missing from the map counts with weight 0. *)
Theorem applyWeightDiff_error vdrs nodeID weightDiff :
  uint64 (weightOf vdrs nodeID) -> uint64 (Amount weightDiff) ->
  snd (applyWeightDiff vdrs nodeID weightDiff) =
    if Decrease weightDiff then
      if MaxUint64 <? weightOf vdrs nodeID + Amount weightDiff
      then Some ErrOverflow else None
    else
      if weightOf vdrs nodeID <? Amount weightDiff
      then Some ErrUnderflow else None.
Proof.
  intros Hw Ha. unfold weightOf in *.
  pose proof (applyWeightDiff_entryAfter vdrs nodeID weightDiff) as H.
  rewrite (entryAfter_weight _ _ _ Hw Ha) in H. cbn zeta in H.
  destruct (Decrease weightDiff).
  - destruct (MaxUint64 <? _); [exact H | exact (proj1 H)].
  - destruct (_ <? Amount weightDiff); [exact H | exact (proj1 H)].
Qed.

Lemma applyWeightDiff_error_witness :
  snd (applyWeightDiff {[ 1%N := mkOut 1%N None 5 ]} 1%N (mkDiff false 6))
  = Some ErrUnderflow /\
  snd (applyWeightDiff {[ 1%N := mkOut 1%N None 5 ]} 2%N (mkDiff true 6))
  = None.
Proof.
  assert (H5 : uint64 5) by (apply uint64_small; lia).
  assert (H6 : uint64 6) by (apply uint64_small; lia).
  assert (H0 : uint64 0) by (apply uint64_small; lia).
  split.
  - exact (eq_trans
             (applyWeightDiff_error {[ 1%N := mkOut 1%N None 5 ]} 1%N
                (mkDiff false 6) H5 H6) eq_refl).
  - exact (eq_trans
             (applyWeightDiff_error {[ 1%N := mkOut 1%N None 5 ]} 2%N
                (mkDiff true 6) H0 H6) eq_refl).
Defined.

(** X2: a successful [applyWeightDiff] undoes the diff on its node and on
    nothing else: the node's weight becomes its weight minus the signed
    value of the diff, the node is in the map afterwards exactly when that
    weight is not zero, it keeps its public key, and every other node is
    as before. *)
Theorem applyWeightDiff_undoes_diff vdrs nodeID weightDiff vdrs' :
  uint64 (weightOf vdrs nodeID) -> uint64 (Amount weightDiff) ->
  applyWeightDiff vdrs nodeID weightDiff = (vdrs', None) ->
  weightOf vdrs' nodeID = weightOf vdrs nodeID - net weightDiff /\
  (is_Some (vdrs' !! nodeID) <-> weightOf vdrs' nodeID <> 0) /\
  (forall vdr', vdrs' !! nodeID = Some vdr' ->
     out_NodeID vdr' = from_option out_NodeID nodeID (vdrs !! nodeID) /\
     out_PublicKey vdr' = (vdrs !! nodeID) ≫= out_PublicKey) /\
  (forall other, other <> nodeID -> vdrs' !! other = vdrs !! other).
Proof.
  intros Hw Ha HA. unfold weightOf in *.
  pose proof (applyWeightDiff_entryAfter vdrs nodeID weightDiff) as H.
  rewrite (entryAfter_weight _ _ _ Hw Ha), HA in H. cbn zeta in H.
  cbn [fst snd] in H. unfold net.
  set (w := from_option out_Weight 0 (vdrs !! nodeID)) in *.
  assert (Hcase : exists w',
             w' = (if Decrease weightDiff then w + Amount weightDiff
                   else w - Amount weightDiff) /\
             vdrs' !! nodeID
             = (if w' =? 0 then None
                else Some (setWeight (default (mkOut nodeID None 0)
                                        (vdrs !! nodeID)) w')) /\
             forall other, other <> nodeID -> vdrs' !! other = vdrs !! other).
  { destruct (Decrease weightDiff).
    - destruct (MaxUint64 <? _); [discriminate H|].
      destruct H as (_ & H1 & H2). eexists; split; [reflexivity|]. auto.
    - destruct (_ <? Amount weightDiff); [discriminate H|].
      destruct H as (_ & H1 & H2). eexists; split; [reflexivity|]. auto. }
  destruct Hcase as (w' & Hw' & Hl & Ho). rewrite Hl.
  assert (Hnet : w' = w - (if Decrease weightDiff then - Amount weightDiff
                           else Amount weightDiff))
    by (rewrite Hw'; destruct (Decrease weightDiff); lia).
  clear H. destruct (Z.eqb_spec w' 0) as [Hz|Hnz]; cbn.
  - split; [lia|]. split; [|split; [discriminate | exact Ho]].
    split; [intros [? ?]; discriminate | intros Hc; contradiction Hc; reflexivity].
  - split; [lia|]. split; [split; [intros _; exact Hnz | eauto]|].
    split; [|exact Ho].
    intros vdr' E. injection E as <-. destruct (vdrs !! nodeID); split; reflexivity.
Qed.

Lemma applyWeightDiff_undoes_diff_witness :
  weightOf (fst (applyWeightDiff {[ 1%N := mkOut 1%N None 5 ]} 1%N
                   (mkDiff false 5))) 1%N
  = 5 - net (mkDiff false 5).
Proof.
  assert (H5 : uint64 5) by (apply uint64_small; lia).
  assert (Hw : uint64 (weightOf {[ 1%N := mkOut 1%N None 5 ]} 1%N))
    by exact H5.
  apply (applyWeightDiff_undoes_diff {[ 1%N := mkOut 1%N None 5 ]} 1%N
           (mkDiff false 5) _ Hw H5).
  vm_compute. reflexivity.
Defined.

(** X3: the loop body of set.go that undoes one weight diff (lines 206-239)
    and [applyWeightDiff] of state.go compute the same map and the same
    error on every input. *)
Theorem set_loop_body_is_applyWeightDiff :
  forall vdrSet nodeID weightDiff,
    weightDiffStep vdrSet nodeID weightDiff
    = applyWeightDiff vdrSet nodeID weightDiff.
Proof.
  intros vdrSet nodeID weightDiff. unfold weightDiffStep, applyWeightDiff.
  destruct (vdrSet !! nodeID); destruct (Decrease weightDiff); reflexivity.
Qed.

(** ** The diffs of one height, in any order *)

Lemma applyWeightDiff_entry vdrs nodeID weightDiff vdrs' :
  applyWeightDiff vdrs nodeID weightDiff = (vdrs', None) ->
  entryAfter nodeID weightDiff (vdrs !! nodeID) = Ok (vdrs' !! nodeID) /\
  (forall other, other <> nodeID -> vdrs' !! other = vdrs !! other).
Proof.
  intros HA.
  pose proof (applyWeightDiff_entryAfter vdrs nodeID weightDiff) as H.
  rewrite HA in H. cbn [fst snd] in H.
  destruct (entryAfter nodeID weightDiff (vdrs !! nodeID)) as [entry|e];
    [|discriminate].
  destruct H as (_ & H1 & H2). rewrite H1. auto.
Qed.

Lemma applyWeightDiff_total vdrs nodeID weightDiff entry :
  entryAfter nodeID weightDiff (vdrs !! nodeID) = Ok entry ->
  exists vdrs', applyWeightDiff vdrs nodeID weightDiff = (vdrs', None).
Proof.
  intros HE.
  pose proof (applyWeightDiff_entryAfter vdrs nodeID weightDiff) as H.
  rewrite HE in H. destruct H as (H & _).
  destruct (applyWeightDiff vdrs nodeID weightDiff) as [vdrs' err].
  cbn in H. subst err. eauto.
Qed.

Lemma applyWeightDiffs_entries weightDiffs : forall vdrSet vdrSet',
  NoDup weightDiffs.*1 ->
  applyWeightDiffs vdrSet weightDiffs = Ok vdrSet' ->
  (forall nodeID weightDiff, (nodeID, weightDiff) ∈ weightDiffs ->
     entryAfter nodeID weightDiff (vdrSet !! nodeID) = Ok (vdrSet' !! nodeID)) /\
  (forall nodeID, nodeID ∉ weightDiffs.*1 ->
     vdrSet' !! nodeID = vdrSet !! nodeID).
Proof.
  induction weightDiffs as [|[nodeID0 weightDiff0] rest IH];
    intros vdrSet vdrSet' Hnd HA; cbn in HA.
  - injection HA as <-. split; [intros ? ? H; inversion H | auto].
  - cbn in Hnd. apply NoDup_cons in Hnd. destruct Hnd as [Hnotin Hnd].
    destruct (weightDiffStep vdrSet nodeID0 weightDiff0) as [m1 [e|]] eqn:E;
      [discriminate|].
    rewrite weightDiffStep_applyWeightDiff in E.
    destruct (applyWeightDiff_entry _ _ _ _ E) as [Hentry Hother].
    destruct (IH _ _ Hnd HA) as [Hin Hout]. split.
    + intros nodeID weightDiff Hel. apply elem_of_cons in Hel.
      destruct Hel as [Heq|Hel].
      * injection Heq as -> ->. rewrite (Hout _ Hnotin). exact Hentry.
      * assert (Hne : nodeID <> nodeID0).
        { intros ->. apply Hnotin.
          apply list_elem_of_fmap. exists (nodeID0, weightDiff). auto. }
        rewrite <- (Hother _ Hne). apply Hin, Hel.
    + intros nodeID Hnot. cbn in Hnot. apply not_elem_of_cons in Hnot.
      destruct Hnot as [Hne Hnot]. rewrite (Hout _ Hnot). apply Hother, Hne.
Qed.

Lemma applyWeightDiffs_total weightDiffs : forall vdrSet,
  NoDup weightDiffs.*1 ->
  (forall nodeID weightDiff, (nodeID, weightDiff) ∈ weightDiffs ->
     exists entry, entryAfter nodeID weightDiff (vdrSet !! nodeID) = Ok entry) ->
  exists vdrSet', applyWeightDiffs vdrSet weightDiffs = Ok vdrSet'.
Proof.
  induction weightDiffs as [|[nodeID0 weightDiff0] rest IH];
    intros vdrSet Hnd Hall; cbn.
  - eauto.
  - cbn in Hnd. apply NoDup_cons in Hnd. destruct Hnd as [Hnotin Hnd].
    destruct (Hall nodeID0 weightDiff0) as [entry HE]; [left|].
    destruct (applyWeightDiff_total _ _ _ _ HE) as [m1 E].
    rewrite weightDiffStep_applyWeightDiff, E.
    destruct (applyWeightDiff_entry _ _ _ _ E) as [_ Hother].
    apply IH; [exact Hnd|].
    intros nodeID weightDiff Hel.
    assert (Hne : nodeID <> nodeID0).
    { intros ->. apply Hnotin.
      apply list_elem_of_fmap. exists (nodeID0, weightDiff). auto. }
    rewrite (Hother _ Hne). apply Hall. right. exact Hel.
Qed.

(** X4: the weight diffs of a height come out of a Go map, one per node
    and in no fixed order.  Whatever the order, the loop that undoes them
    succeeds on the same inputs and then leaves the same validator map. *)
Theorem applyWeightDiffs_any_order vdrSet weightDiffs weightDiffs' vdrSet' :
  NoDup weightDiffs.*1 ->
  weightDiffs ≡ₚ weightDiffs' ->
  applyWeightDiffs vdrSet weightDiffs = Ok vdrSet' ->
  applyWeightDiffs vdrSet weightDiffs' = Ok vdrSet'.
Proof.
  intros Hnd HP HA.
  assert (Hnd' : NoDup weightDiffs'.*1) by (rewrite <- HP; exact Hnd).
  destruct (applyWeightDiffs_entries _ _ _ Hnd HA) as [Hin Hout].
  destruct (applyWeightDiffs_total weightDiffs' vdrSet Hnd') as [m' HA'].
  { intros nodeID weightDiff Hel. rewrite <- HP in Hel. eauto. }
  rewrite HA'. f_equal. apply map_eq. intros nodeID.
  destruct (applyWeightDiffs_entries _ _ _ Hnd' HA') as [Hin' Hout'].
  destruct (decide (nodeID ∈ weightDiffs'.*1)) as [Hel|Hnot].
  - apply list_elem_of_fmap in Hel. destruct Hel as ([n d] & -> & Hel). cbn.
    pose proof (Hin' _ _ Hel) as H1.
    rewrite <- HP in Hel. pose proof (Hin _ _ Hel) as H2.
    congruence.
  - rewrite (Hout' _ Hnot). rewrite <- HP in Hnot. rewrite (Hout _ Hnot).
    reflexivity.
Qed.

Lemma applyWeightDiffs_any_order_witness :
  applyWeightDiffs {[ 1%N := mkOut 1%N None 10 ]}
    [(2%N, mkDiff true 4); (1%N, mkDiff false 10)]
  = Ok {[ 2%N := mkOut 2%N None 4 ]}.
Proof.
  apply (applyWeightDiffs_any_order _
           [(1%N, mkDiff false 10); (2%N, mkDiff true 4)]).
  - apply NoDup_cons. split; [|apply NoDup_singleton].
    intros H. apply list_elem_of_singleton in H. discriminate H.
  - apply perm_swap.
  - vm_compute. reflexivity.
Defined.

(** ** Public-key diffs *)

(** X5: undoing public-key diffs never adds or removes a node and never
    changes a weight or a node ID; a node that no diff names is left as it
    was. *)
Theorem applyPublicKeyDiffs_keeps_weights :
  forall pkDiffs vdrSet nodeID,
    out_Weight <$> applyPublicKeyDiffs vdrSet pkDiffs !! nodeID
    = out_Weight <$> vdrSet !! nodeID /\
    out_NodeID <$> applyPublicKeyDiffs vdrSet pkDiffs !! nodeID
    = out_NodeID <$> vdrSet !! nodeID /\
    (nodeID ∉ pkDiffs.*1 ->
     applyPublicKeyDiffs vdrSet pkDiffs !! nodeID = vdrSet !! nodeID).
Proof.
  induction pkDiffs as [|[nodeID0 pk] rest IH]; intros vdrSet nodeID; cbn.
  - auto.
  - destruct (vdrSet !! nodeID0) as [vdr|] eqn:L.
    + destruct (IH (<[nodeID0 := setPublicKey vdr pk]> vdrSet) nodeID)
        as (Hw & Hn & Hk).
      destruct (decide (nodeID = nodeID0)) as [->|Hne].
      * rewrite Hw, Hn, lookup_insert_eq, L. cbn.
        repeat split. intros Hnot. contradiction Hnot. left.
      * rewrite Hw, Hn, lookup_insert_ne by congruence.
        repeat split. intros Hnot. apply not_elem_of_cons in Hnot.
        rewrite (Hk (proj2 Hnot)). apply lookup_insert_ne. congruence.
    + destruct (IH vdrSet nodeID) as (Hw & Hn & Hk).
      repeat split; try assumption.
      intros Hnot. apply not_elem_of_cons in Hnot. apply Hk, Hnot.
Qed.

(** A key diff of node 1 leaves node 2 as it was. *)
Lemma applyPublicKeyDiffs_keeps_weights_witness :
  applyPublicKeyDiffs {[ 2%N := mkOut 2%N None 7 ]} [(1%N, Some [5])] !! 2%N
  = ({[ 2%N := mkOut 2%N None 7 ]} : gmap N GetValidatorOutput) !! 2%N.
Proof.
  apply (applyPublicKeyDiffs_keeps_weights
           [(1%N, Some [5])] {[ 2%N := mkOut 2%N None 7 ]} 2%N).
  cbn. intros H. apply list_elem_of_singleton in H. discriminate H.
Defined.

(** ** Replaying several heights *)

(** X6: undoing [n + m] heights from height [i] is undoing the first [n]
    of them and then, from the map reached, the next [m] from height
    [i - n]; an error in the first part is the error of the whole. *)
Theorem replay_app s subnetID n m :
  forall i vdrSet,
    replay s subnetID (n + m) i vdrSet =
      match replay s subnetID n i vdrSet with
      | Err e => Err e
      | Ok vdrSet' => replay s subnetID m (i - Z.of_nat n) vdrSet'
      end.
Proof.
  induction n as [|n IH]; intros i vdrSet.
  - cbn. rewrite Z.sub_0_r. reflexivity.
  - cbn [Nat.add replay].
    destruct (GetValidatorWeightDiffs s i subnetID) as [weightDiffs|e];
      [|reflexivity].
    destruct (applyWeightDiffs vdrSet weightDiffs) as [vdrSet1|e];
      [|reflexivity].
    destruct (GetValidatorPublicKeyDiffs s i) as [pkDiffs|e]; [|reflexivity].
    rewrite IH.
    replace (i - 1 - Z.of_nat n) with (i - Z.of_nat (S n)) by lia.
    reflexivity.
Qed.

(** ** The reconstructor at the last accepted height *)

Lemma LRU_Get_empty {V} (key : Z) (size : nat) :
  LRU.Get key (LRU.mk size ([] : list (Z * V))) = (None, LRU.mk size []).
Proof. reflexivity. Qed.

(** Without a cache for the subnet the call is the computation of lines
    161-256. *)
Lemma GetValidatorSet_miss vs height subnetID :
  caches vs !! subnetID = None ->
  fst (GetValidatorSet vs height subnetID)
  = computeValidatorSet vs height subnetID.
Proof.
  intros Hnone. unfold GetValidatorSet.
  destruct (getCache_same vs subnetID) as [Ecfg Est].
  assert (Hc : fst (getCache vs subnetID) = LRU.mk validatorSetsCacheSize []).
  { unfold getCache. rewrite Hnone. destruct (_ || _); reflexivity. }
  destruct (getCache vs subnetID) as [c vs1]. cbn [fst snd] in *. subst c.
  rewrite LRU_Get_empty, (computeValidatorSet_same vs vs1) by assumption.
  destruct (computeValidatorSet vs height subnetID); reflexivity.
Qed.

Lemma currentVdrSet_lookup primary l : forall acc m,
  currentVdrSet primary l acc = Ok m ->
  (forall nodeID out, m !! nodeID = Some out ->
     acc !! nodeID = Some out \/
     exists vdr primaryVdr,
       In vdr l /\ vdr_NodeID vdr = nodeID /\
       getValidator primary nodeID = Some primaryVdr /\
       out = mkOut nodeID (vdr_PublicKey primaryVdr) (vdr_Weight vdr)) /\
  (forall vdr, In vdr l -> is_Some (m !! vdr_NodeID vdr)) /\
  (forall nodeID, is_Some (acc !! nodeID) -> is_Some (m !! nodeID)).
Proof.
  induction l as [|vdr rest IH]; intros acc m HC; cbn in HC.
  - injection HC as <-. repeat split; [auto | intros ? [] | auto].
  - destruct (getValidator primary (vdr_NodeID vdr)) as [primaryVdr|] eqn:G;
      [|discriminate].
    destruct (IH _ _ HC) as (Hsound & Hcov & Hmono). repeat split.
    + intros nodeID out L. destruct (Hsound _ _ L) as [Hacc|Hex].
      * destruct (decide (nodeID = vdr_NodeID vdr)) as [->|Hne].
        -- rewrite lookup_insert_eq in Hacc. injection Hacc as <-.
           right. exists vdr, primaryVdr. repeat split; auto. left; reflexivity.
        -- rewrite lookup_insert_ne in Hacc by congruence. left; exact Hacc.
      * destruct Hex as (v & p & Hin & Hrest). right. exists v, p.
        split; [right; exact Hin | exact Hrest].
    + intros v [<-|Hin]; [|apply Hcov, Hin].
      apply Hmono. rewrite lookup_insert_eq. eauto.
    + intros nodeID Hs. apply Hmono.
      destruct (decide (nodeID = vdr_NodeID vdr)) as [->|Hne].
      * rewrite lookup_insert_eq. eauto.
      * rewrite lookup_insert_ne by congruence. exact Hs.
Qed.

Lemma computeValidatorSet_current vs height subnetID m :
  GetCurrentHeight vs = Ok height ->
  computeValidatorSet vs height subnetID = Ok m ->
  exists l primary,
    currentSubnetValidators vs subnetID = Ok l /\
    Validators (cfg vs) !! PrimaryNetworkID = Some primary /\
    currentVdrSet primary l ∅ = Ok m.
Proof.
  intros Hcur HC. unfold computeValidatorSet in HC. rewrite Hcur in HC.
  rewrite Z.ltb_irrefl, Z.sub_diag in HC.
  destruct (currentSubnetValidators vs subnetID) as [l|e]; [|discriminate].
  destruct (Validators (cfg vs) !! PrimaryNetworkID) as [primary|];
    [|discriminate].
  destruct (currentVdrSet primary l ∅) as [m0|e] eqn:EC; [|discriminate].
  cbn in HC. injection HC as <-. eauto.
Qed.

(** X7: asked for the last accepted height of a subnet it has no cache
    for, [GetValidatorSet] replays nothing: every entry of the map it
    returns is a live validator of the subnet with that validator's weight
    and the public key the primary network holds for the node, and every
    live validator of the subnet has an entry. *)
Theorem GetValidatorSet_at_current_height vs height subnetID m :
  caches vs !! subnetID = None ->
  GetCurrentHeight vs = Ok height ->
  fst (GetValidatorSet vs height subnetID) = Ok m ->
  exists l primary,
    currentSubnetValidators vs subnetID = Ok l /\
    Validators (cfg vs) !! PrimaryNetworkID = Some primary /\
    (forall nodeID out, m !! nodeID = Some out ->
       exists vdr primaryVdr,
         In vdr l /\ vdr_NodeID vdr = nodeID /\
         getValidator primary nodeID = Some primaryVdr /\
         out = mkOut nodeID (vdr_PublicKey primaryVdr) (vdr_Weight vdr)) /\
    (forall vdr, In vdr l -> is_Some (m !! vdr_NodeID vdr)).
Proof.
  intros Hnone Hcur HG. rewrite (GetValidatorSet_miss _ _ _ Hnone) in HG.
  destruct (computeValidatorSet_current _ _ _ _ Hcur HG)
    as (l & primary & HL & HP & HC).
  exists l, primary. split; [exact HL|]. split; [exact HP|].
  destruct (currentVdrSet_lookup _ _ _ _ HC) as (Hsound & Hcov & _).
  split; [|exact Hcov].
  intros nodeID out L. destruct (Hsound _ _ L) as [Hempty|Hex]; [|exact Hex].
  rewrite lookup_empty in Hempty. discriminate.
Qed.

Lemma GetValidatorSet_at_current_height_witness :
  exists l primary,
    currentSubnetValidators exampleSet PrimaryNetworkID = Ok l /\
    Validators (cfg exampleSet) !! PrimaryNetworkID = Some primary /\
    (forall nodeID out,
       ({[ 1%N := mkOut 1%N None 10 ]} : gmap N GetValidatorOutput) !! nodeID
       = Some out ->
       exists vdr primaryVdr,
         In vdr l /\ vdr_NodeID vdr = nodeID /\
         getValidator primary nodeID = Some primaryVdr /\
         out = mkOut nodeID (vdr_PublicKey primaryVdr) (vdr_Weight vdr)) /\
    (forall vdr, In vdr l ->
       is_Some (({[ 1%N := mkOut 1%N None 10 ]} : gmap N GetValidatorOutput)
                !! vdr_NodeID vdr)).
Proof.
  apply (GetValidatorSet_at_current_height exampleSet 1 PrimaryNetworkID).
  - vm_compute. reflexivity.
  - vm_compute. reflexivity.
  - vm_compute. reflexivity.
Defined.

(** X8: for a subnet the validator manager holds, the node IDs that
    [GetValidatorIDs] returns are exactly the nodes of the validator set
    that [GetValidatorSet] computes for the last accepted height. *)
Theorem GetValidatorIDs_agree_with_current_set vs height subnetID m nodeIDs :
  caches vs !! subnetID = None ->
  GetCurrentHeight vs = Ok height ->
  fst (GetValidatorSet vs height subnetID) = Ok m ->
  GetValidatorIDs vs subnetID = (nodeIDs, true) ->
  forall nodeID, In nodeID nodeIDs <-> is_Some (m !! nodeID).
Proof.
  intros Hnone Hcur HG HI nodeID.
  rewrite (GetValidatorSet_miss _ _ _ Hnone) in HG.
  destruct (computeValidatorSet_current _ _ _ _ Hcur HG)
    as (l & primary & HL & HP & HC).
  unfold GetValidatorIDs in HI. unfold currentSubnetValidators in HL.
  destruct (Validators (cfg vs) !! subnetID) as [l0|]; [|discriminate].
  injection HI as <-. injection HL as ->.
  destruct (currentVdrSet_lookup _ _ _ _ HC) as (Hsound & Hcov & _).
  rewrite in_map_iff. split.
  - intros (vdr & <- & Hin). apply Hcov, Hin.
  - intros [out L]. destruct (Hsound _ _ L) as [Hempty|Hex].
    + rewrite lookup_empty in Hempty. discriminate.
    + destruct Hex as (vdr & _ & Hin & Hid & _). exists vdr. auto.
Qed.

Lemma GetValidatorIDs_agree_with_current_set_witness :
  In 1%N [1%N] <->
  is_Some (({[ 1%N := mkOut 1%N None 10 ]} : gmap N GetValidatorOutput) !! 1%N).
Proof.
  apply (GetValidatorIDs_agree_with_current_set exampleSet 1 PrimaryNetworkID).
  - vm_compute. reflexivity.
  - vm_compute. reflexivity.
  - vm_compute. reflexivity.
  - vm_compute. reflexivity.
Defined.

Lemma currentVdrSet_missing primary l : forall acc,
  Exists (fun vdr => getValidator primary (vdr_NodeID vdr) = None) l ->
  currentVdrSet primary l acc = Err (ErrWrapped 0 ErrMissingValidatorSet).
Proof.
  induction l as [|vdr rest IH]; intros acc Hex; [inversion Hex|]. cbn.
  destruct (getValidator primary (vdr_NodeID vdr)) as [primaryVdr|] eqn:G;
    [|reflexivity].
  apply IH. inversion Hex as [? ? Hbad|? ? Hrest]; subst;
    [congruence | exact Hrest].
Qed.

(** X9: when the requested height is not above the last accepted one and
    the subnet has no cache, [GetValidatorSet] fails with
    [ErrMissingValidatorSet] if the manager holds no primary-network set,
    and with that error wrapped if some live validator of the subnet is
    not a validator of the primary network; nothing is replayed. *)
Theorem GetValidatorSet_missing_primary vs height subnetID current l :
  caches vs !! subnetID = None ->
  GetCurrentHeight vs = Ok current ->
  height <= current ->
  currentSubnetValidators vs subnetID = Ok l ->
  (Validators (cfg vs) !! PrimaryNetworkID = None ->
   fst (GetValidatorSet vs height subnetID) = Err ErrMissingValidatorSet) /\
  (forall primary,
     Validators (cfg vs) !! PrimaryNetworkID = Some primary ->
     Exists (fun vdr => getValidator primary (vdr_NodeID vdr) = None) l ->
     fst (GetValidatorSet vs height subnetID)
     = Err (ErrWrapped 0 ErrMissingValidatorSet)).
Proof.
  intros Hnone Hcur Hle HL.
  rewrite (GetValidatorSet_miss _ _ _ Hnone).
  unfold computeValidatorSet. rewrite Hcur, HL.
  destruct (Z.ltb_spec current height); [lia|]. split.
  - intros ->. reflexivity.
  - intros primary -> Hex. rewrite (currentVdrSet_missing _ _ _ Hex).
    reflexivity.
Qed.

Lemma GetValidatorSet_missing_primary_witness :
  fst (GetValidatorSet
         (mkSet (mkConfig false
                   {[ PrimaryNetworkID := [];
                      5%N := [mkValidator 1%N None 99%N 10] ]} ∅)
            exampleState ∅) 0 5%N)
  = Err (ErrWrapped 0 ErrMissingValidatorSet).
Proof.
  eapply (proj2 (GetValidatorSet_missing_primary _ 0 5%N 1
                   [mkValidator 1%N None 99%N 10] _ _ _ _)).
  - vm_compute. reflexivity.
  - apply Exists_cons_hd. reflexivity.
  Unshelve.
  + vm_compute. reflexivity.
  + vm_compute. reflexivity.
  + lia.
  + vm_compute. reflexivity.
Defined.

(** ** What the caches keep *)

Lemma LRU_find_head {V} key (v : V) rest :
  LRU.find key ((key, v) :: rest) = Some v.
Proof. unfold LRU.find. cbn. rewrite Z.eqb_refl. reflexivity. Qed.

Lemma LRU_find_Put {V} key (v : V) c :
  (0 < LRU.Size c)%nat ->
  LRU.find key (LRU.entries (LRU.Put key v c)) = Some v.
Proof.
  intros Hs. unfold LRU.Put. cbn [LRU.entries].
  destruct (LRU.Size c) as [|n]; [lia|]. cbn [firstn].
  apply LRU_find_head.
Qed.

Lemma LRU_Get_find {V} key (c : LRU.t V) :
  LRU.Get key c =
    match LRU.find key (LRU.entries c) with
    | Some v => (Some v, LRU.mk (LRU.Size c) ((key, v) :: LRU.drop key (LRU.entries c)))
    | None => (None, c)
    end.
Proof. reflexivity. Qed.

Lemma storeCache_lookup vs subnetID c :
  is_Some (caches vs !! subnetID) ->
  caches (storeCache vs subnetID c) !! subnetID = Some c.
Proof.
  intros [c0 L]. unfold storeCache. rewrite L. cbn. apply lookup_insert_eq.
Qed.

Lemma getCache_registered vs subnetID :
  subnetID = PrimaryNetworkID \/ subnetID ∈ TrackedSubnets (cfg vs) ->
  (forall c, caches vs !! subnetID = Some c -> (0 < LRU.Size c)%nat) ->
  caches (snd (getCache vs subnetID)) !! subnetID = Some (fst (getCache vs subnetID)) /\
  (0 < LRU.Size (fst (getCache vs subnetID)))%nat.
Proof.
  intros Htracked Hsize. unfold getCache.
  destruct (caches vs !! subnetID) as [c|] eqn:L; cbn [fst snd].
  - split; [exact L | apply Hsize; reflexivity].
  - assert (Hb : (subnetID =? PrimaryNetworkID)%N
                 || bool_decide (subnetID ∈ TrackedSubnets (cfg vs)) = true).
    { destruct Htracked as [->|Hin].
      - rewrite N.eqb_refl. reflexivity.
      - rewrite (bool_decide_eq_true_2 _ Hin). apply orb_true_r. }
    rewrite Hb. cbn. split; [apply lookup_insert_eq|].
    unfold validatorSetsCacheSize. lia.
Qed.

(** X10: a validator set returned for the primary network or a tracked
    subnet is served from the cache afterwards: the next call for the same
    height returns the same map whatever the state and the validator
    manager have become. *)
Theorem GetValidatorSet_cached_result_is_stable vs height subnetID m vs' :
  subnetID = PrimaryNetworkID \/ subnetID ∈ TrackedSubnets (cfg vs) ->
  (forall c, caches vs !! subnetID = Some c -> (0 < LRU.Size c)%nat) ->
  GetValidatorSet vs height subnetID = (Ok m, vs') ->
  forall cfg' st',
    fst (GetValidatorSet (mkSet cfg' st' (caches vs')) height subnetID) = Ok m.
Proof.
  intros Htracked Hsize HG cfg' st'.
  destruct (getCache_registered vs subnetID Htracked Hsize) as [Hreg Hpos].
  assert (Hc : exists c', caches vs' !! subnetID = Some c' /\
                          LRU.find height (LRU.entries c') = Some m).
  { unfold GetValidatorSet in HG.
    destruct (getCache vs subnetID) as [c vs1]. cbn [fst snd] in *.
    rewrite LRU_Get_find in HG.
    destruct (LRU.find height (LRU.entries c)) as [validatorSet|] eqn:F.
    - injection HG as <- <-. eexists. split.
      + apply storeCache_lookup. eauto.
      + apply LRU_find_head.
    - destruct (computeValidatorSet vs1 height subnetID) as [vdrSet|e];
        [|discriminate].
      injection HG as <- <-. eexists. split.
      + apply storeCache_lookup. eauto.
      + apply LRU_find_Put, Hpos. }
  destruct Hc as (c' & L & F).
  unfold GetValidatorSet, getCache. cbn [caches]. rewrite L.
  rewrite LRU_Get_find, F. reflexivity.
Qed.

Lemma GetValidatorSet_cached_result_is_stable_witness :
  fst (GetValidatorSet exampleSet 0 PrimaryNetworkID)
  = Ok {[ 2%N := mkOut 2%N None 4 ]} /\
  forall cfg' st',
    fst (GetValidatorSet
           (mkSet cfg' st'
              (caches (snd (GetValidatorSet exampleSet 0 PrimaryNetworkID))))
           0 PrimaryNetworkID)
    = Ok {[ 2%N := mkOut 2%N None 4 ]}.
Proof.
  split; [vm_compute; reflexivity|].
  apply (GetValidatorSet_cached_result_is_stable exampleSet 0 PrimaryNetworkID).
  - left. reflexivity.
  - intros c L. vm_compute in L. discriminate L.
  - vm_compute. reflexivity.
Defined.

(** X11: for a subnet that is neither the primary network nor tracked
    and has no cache registered, [GetValidatorSet] caches nothing: the
    table of caches is after the call what it was before, and the answer
    is always computed afresh from the current validators and the diffs. *)
Theorem GetValidatorSet_untracked_subnet vs height subnetID :
  subnetID <> PrimaryNetworkID ->
  subnetID ∉ TrackedSubnets (cfg vs) ->
  caches vs !! subnetID = None ->
  caches (snd (GetValidatorSet vs height subnetID)) = caches vs /\
  fst (GetValidatorSet vs height subnetID)
  = computeValidatorSet vs height subnetID.
Proof.
  intros Hne Hnot Hnone. unfold GetValidatorSet, getCache. rewrite Hnone.
  assert (Hb : (subnetID =? PrimaryNetworkID)%N
               || bool_decide (subnetID ∈ TrackedSubnets (cfg vs)) = false).
  { apply orb_false_intro; [apply N.eqb_neq, Hne|].
    apply bool_decide_eq_false_2, Hnot. }
  rewrite Hb, LRU_Get_empty.
  destruct (computeValidatorSet vs height subnetID); cbn [fst snd];
    [|split; reflexivity].
  unfold storeCache. rewrite Hnone. split; reflexivity.
Qed.

(** Subnet 5 is not tracked by [exampleSet]: the set for height 0 is
    computed and the table of caches stays empty. *)
Lemma GetValidatorSet_untracked_subnet_witness :
  caches (snd (GetValidatorSet exampleSet 0 5%N)) = caches exampleSet /\
  fst (GetValidatorSet exampleSet 0 5%N)
  = computeValidatorSet exampleSet 0 5%N.
Proof.
  apply (GetValidatorSet_untracked_subnet exampleSet 0 5%N).
  - discriminate.
  - apply not_elem_of_empty.
  - vm_compute. reflexivity.
Defined.

(** X12: a call that fails caches nothing: every validator set found in a
    cache after the call was in that subnet's cache before it. *)
Theorem GetValidatorSet_failure_caches_nothing vs height subnetID e :
  fst (GetValidatorSet vs height subnetID) = Err e ->
  forall subnetID' c' h m,
    caches (snd (GetValidatorSet vs height subnetID)) !! subnetID' = Some c' ->
    In (h, m) (LRU.entries c') ->
    exists c, caches vs !! subnetID' = Some c /\ In (h, m) (LRU.entries c).
Proof.
  intros HG subnetID' c' h m L Hin.
  unfold GetValidatorSet in HG, L.
  assert (Hget : forall subnetID0 c0,
            caches (snd (getCache vs subnetID)) !! subnetID0 = Some c0 ->
            In (h, m) (LRU.entries c0) ->
            exists c, caches vs !! subnetID0 = Some c /\ In (h, m) (LRU.entries c)).
  { intros subnetID0 c0. unfold getCache.
    destruct (caches vs !! subnetID) as [c|] eqn:L0; cbn [snd]; [eauto|].
    destruct (_ || _); cbn [snd caches]; [|eauto].
    destruct (decide (subnetID0 = subnetID)) as [->|Hne].
    - rewrite lookup_insert_eq. intros H. injection H as <-. intros [].
    - rewrite lookup_insert_ne by congruence. eauto. }
  destruct (getCache vs subnetID) as [c vs1]. cbn [fst snd] in *.
  destruct (LRU.Get height c) as [[validatorSet|] c0]; [discriminate|].
  destruct (computeValidatorSet vs1 height subnetID); [discriminate|].
  cbn in L. eauto.
Qed.

Lemma GetValidatorSet_failure_caches_nothing_witness :
  fst (GetValidatorSet exampleSet 5 PrimaryNetworkID) = Err ErrNotFound /\
  forall subnetID' c' h m,
    caches (snd (GetValidatorSet exampleSet 5 PrimaryNetworkID)) !! subnetID'
    = Some c' ->
    In (h, m) (LRU.entries c') ->
    exists c, caches exampleSet !! subnetID' = Some c /\ In (h, m) (LRU.entries c).
Proof.
  split; [vm_compute; reflexivity|].
  apply (GetValidatorSet_failure_caches_nothing exampleSet 5 PrimaryNetworkID
           ErrNotFound).
  vm_compute. reflexivity.
Defined.

(** ** The weight diff computed for a node *)

(** X13: a successful [Add] on 64-bit operands changes the signed value of
    the diff by exactly the signed amount of the call, and the new Amount
    is again a 64-bit value. *)
Theorem Add_changes_net_by_delta v negative amount v' :
  uint64 (Amount v) -> uint64 amount ->
  Add v negative amount = (v', None) ->
  net v' = net v + (if negative then - amount else amount) /\
  uint64 (Amount v').
Proof. intros Hv Ha HA. exact (Add_net _ _ _ _ Hv Ha HA). Qed.

Lemma Add_changes_net_by_delta_witness :
  net (mkDiff true 2) = net (mkDiff false 5) + (if true then - 7 else 7) /\
  uint64 (Amount (mkDiff true 2)).
Proof.
  apply (Add_changes_net_by_delta (mkDiff false 5) true 7).
  - apply uint64_small. cbn. lia.
  - apply uint64_small. lia.
  - vm_compute. reflexivity.
Defined.

Lemma AddAll_range calls : forall v v',
  uint64 (Amount v) -> Forall (fun c => uint64 (snd c)) calls ->
  AddAll v calls = (v', None) ->
  uint64 (Amount v').
Proof.
  induction calls as [|[negative amount] rest IH]; intros v v' Hv Hall HA.
  - cbn in HA. injection HA as <-. exact Hv.
  - inversion Hall as [|? ? Hc Hrest]; subst. cbn in Hc, HA.
    destruct (Add v negative amount) as [v1 [e|]] eqn:E; [discriminate|].
    destruct (Add_net _ _ _ _ Hv Hc E) as [_ Hr].
    exact (IH _ _ Hr Hrest HA).
Qed.

Lemma processAddedDelegators_AddAll E s delegators :
  forall stakers weightDiff stakers' weightDiff',
    processAddedDelegators E s delegators stakers weightDiff
    = Ok (stakers', weightDiff') ->
    AddAll weightDiff
      (List.map (fun staker => (false, staker_Weight staker)) delegators)
    = (weightDiff', None).
Proof.
  induction delegators as [|staker rest IH];
    intros stakers weightDiff stakers' weightDiff' H; cbn in H.
  - injection H as _ <-. reflexivity.
  - destruct (GetTx E s (staker_TxID staker)) as [tx|e]; [|discriminate].
    cbn. destruct (Add weightDiff false (staker_Weight staker))
      as [weightDiff1 [e|]]; [discriminate|].
    exact (IH _ _ _ _ H).
Qed.

Lemma processDeletedDelegators_AddAll delegators :
  forall stakers weightDiff stakers' weightDiff',
    processDeletedDelegators delegators stakers weightDiff
    = Ok (stakers', weightDiff') ->
    AddAll weightDiff
      (List.map (fun staker => (true, staker_Weight staker)) delegators)
    = (weightDiff', None).
Proof.
  induction delegators as [|staker rest IH];
    intros stakers weightDiff stakers' weightDiff' H; cbn in H.
  - injection H as _ <-. reflexivity.
  - cbn. destruct (Add weightDiff true (staker_Weight staker))
      as [weightDiff1 [e|]]; [discriminate|].
    exact (IH _ _ _ _ H).
Qed.

Lemma total_added delegators :
  total (List.map (fun staker => (false, staker_Weight staker)) delegators)
  = sumWeights delegators.
Proof.
  unfold total, sumWeights.
  induction delegators as [|staker rest IH]; cbn; [reflexivity|].
  rewrite IH. reflexivity.
Qed.

Lemma total_deleted delegators :
  total (List.map (fun staker => (true, staker_Weight staker)) delegators)
  = - sumWeights delegators.
Proof.
  unfold total, sumWeights.
  induction delegators as [|staker rest IH]; cbn; [reflexivity|].
  rewrite IH. unfold delta. cbn. lia.
Qed.

Lemma Forall_weights_calls negative delegators :
  Forall (fun staker => uint64 (staker_Weight staker)) delegators ->
  Forall (fun c : bool * Z => uint64 (snd c))
    (List.map (fun staker => (negative, staker_Weight staker)) delegators).
Proof.
  intros H. induction H as [|staker rest Hs _ IH]; cbn; constructor; auto.
Qed.

(** The signed weight change that a staker diff stands for. *)
Lemma processValidatorDiff_net E s subnetID nodeID validatorDiff out out' :
  diffWeightsInRange validatorDiff ->
  processValidatorDiff E s subnetID nodeID validatorDiff out = Ok out' ->
  exists weightDiff,
    outputWeights out' = <[(subnetID, nodeID) := weightDiff]> (outputWeights out) /\
    uint64 (Amount weightDiff) /\
    net weightDiff
    = validatorDelta validatorDiff
      + sumWeights (addedDelegators validatorDiff)
      - sumWeights (deletedDelegators validatorDiff).
Proof.
  intros (Hv & Hadd & Hdel) H. unfold processValidatorDiff in H.
  destruct (processValidatorStatus E s nodeID validatorDiff _ out)
    as [[[stakers0 wd0] blsKey]|e] eqn:S; [|discriminate].
  assert (H0 : uint64 (Amount wd0) /\ net wd0 = validatorDelta validatorDiff).
  { unfold processValidatorStatus, validatorDelta in *.
    destruct (validatorStatus validatorDiff);
      destruct (validator validatorDiff) as [v|] eqn:EV; try discriminate.
    - injection S as _ <- _. split; [apply uint64_small; cbn; lia | reflexivity].
    - injection S as _ <- _. split; [apply uint64_small; cbn; lia | reflexivity].
    - destruct (GetTx E s (staker_TxID v)); [|discriminate].
      injection S as _ <- _. split; [exact (Hv _ eq_refl) | reflexivity].
    - injection S as _ <- _. split; [exact (Hv _ eq_refl) | reflexivity]. }
  destruct H0 as [Hr0 Hn0].
  destruct (processAddedDelegators E s _ stakers0 wd0)
    as [[stakers1 wd1]|e] eqn:A; [|discriminate].
  apply processAddedDelegators_AddAll in A.
  pose proof (Forall_weights_calls false _ Hadd) as Fa.
  pose proof (AddAll_net _ _ _ Hr0 Fa A) as Hn1.
  pose proof (AddAll_range _ _ _ Hr0 Fa A) as Hr1.
  destruct (processDeletedDelegators _ stakers1 wd1)
    as [[stakers2 wd2]|e] eqn:D; [|discriminate].
  apply processDeletedDelegators_AddAll in D.
  pose proof (Forall_weights_calls true _ Hdel) as Fd.
  pose proof (AddAll_net _ _ _ Hr1 Fd D) as Hn2.
  pose proof (AddAll_range _ _ _ Hr1 Fd D) as Hr2.
  injection H as <-. exists wd2. split; [reflexivity|]. split; [exact Hr2|].
  rewrite Hn2, Hn1, Hn0, total_added, total_deleted. lia.
Qed.

Lemma processSubnetDiffs_net E s subnetID l : forall out out',
  NoDup l.*1 ->
  (forall nodeID validatorDiff, (nodeID, validatorDiff) ∈ l ->
     diffWeightsInRange validatorDiff) ->
  processSubnetDiffs E s subnetID l out = Ok out' ->
  (forall nodeID validatorDiff, (nodeID, validatorDiff) ∈ l ->
     exists weightDiff,
       outputWeights out' !! (subnetID, nodeID) = Some weightDiff /\
       uint64 (Amount weightDiff) /\
       net weightDiff
       = validatorDelta validatorDiff
         + sumWeights (addedDelegators validatorDiff)
         - sumWeights (deletedDelegators validatorDiff)) /\
  (forall k, (fst k <> subnetID \/ snd k ∉ l.*1) ->
     outputWeights out' !! k = outputWeights out !! k).
Proof.
  induction l as [|[nodeID0 vd0] rest IH]; intros out out' Hnd Hrange H;
    cbn in H.
  - injection H as <-. split; [intros ? ? Hel; inversion Hel | auto].
  - cbn in Hnd. apply NoDup_cons in Hnd. destruct Hnd as [Hnotin Hnd].
    destruct (processValidatorDiff E s subnetID nodeID0 vd0 out)
      as [out1|e] eqn:E1; [|discriminate].
    destruct (processValidatorDiff_net _ _ _ _ _ _ _
                (Hrange _ _ (list_elem_of_here _ _)) E1)
      as (wd & Hw & Hr & Hn).
    destruct (IH _ _ Hnd (fun n v Hel => Hrange n v (list_elem_of_further _ _ _ Hel)) H)
      as [Hin Hout].
    split.
    + intros nodeID vd Hel. apply elem_of_cons in Hel.
      destruct Hel as [Heq|Hel]; [|apply Hin, Hel].
      injection Heq as -> ->. exists wd.
      rewrite (Hout (subnetID, nodeID0)) by (right; exact Hnotin).
      rewrite Hw, lookup_insert_eq. auto.
    + intros [sub node] Hk. cbn in Hk.
      assert (Hne : (sub, node) <> (subnetID, nodeID0)).
      { intros Heq. injection Heq as -> ->.
        destruct Hk as [Hk|Hk]; [congruence|]. apply Hk. left. }
      rewrite (Hout (sub, node)).
      * rewrite Hw. apply lookup_insert_ne. congruence.
      * cbn. destruct Hk as [Hk|Hk]; [left; exact Hk|].
        right. intros Hel. apply Hk. right. exact Hel.
Qed.

Lemma processCurrentLoop_net E diffs : forall out s out' s',
  NoDup diffs.*1 ->
  (forall subnetID (subnetDiffs : gmap N diffValidator) nodeID validatorDiff,
     (subnetID, subnetDiffs) ∈ diffs ->
     subnetDiffs !! nodeID = Some validatorDiff ->
     diffWeightsInRange validatorDiff) ->
  processCurrentLoop E diffs out s = (Ok out', s') ->
  (forall subnetID (subnetDiffs : gmap N diffValidator) nodeID validatorDiff,
     (subnetID, subnetDiffs) ∈ diffs ->
     subnetDiffs !! nodeID = Some validatorDiff ->
     exists weightDiff,
       outputWeights out' !! (subnetID, nodeID) = Some weightDiff /\
       uint64 (Amount weightDiff) /\
       net weightDiff
       = validatorDelta validatorDiff
         + sumWeights (addedDelegators validatorDiff)
         - sumWeights (deletedDelegators validatorDiff)) /\
  (forall k, fst k ∉ diffs.*1 ->
     outputWeights out' !! k = outputWeights out !! k).
Proof.
  induction diffs as [|[subnetID0 subnetDiffs0] rest IH];
    intros out s out' s' Hnd Hrange H; cbn in H.
  - injection H as <- <-. split; [intros ? ? ? ? Hel; inversion Hel | auto].
  - cbn in Hnd. apply NoDup_cons in Hnd. destruct Hnd as [Hnotin Hnd].
    destruct (processSubnetDiffs E (dropCurrentDiffs s subnetID0) subnetID0
                (map_to_list subnetDiffs0) out) as [out1|e] eqn:E1;
      [|discriminate].
    destruct (processSubnetDiffs_net _ _ _ _ _ _
                (NoDup_fst_map_to_list subnetDiffs0)
                (fun n v Hel => Hrange subnetID0 subnetDiffs0 n v
                                  (list_elem_of_here _ _)
                                  (proj1 (elem_of_map_to_list _ _ _) Hel))
                E1) as [Hin1 Hout1].
    destruct (IH _ _ _ _ Hnd
                (fun sub m n v Hel => Hrange sub m n v
                                        (list_elem_of_further _ _ _ Hel)) H)
      as [Hin Hout].
    split.
    + intros sub m node vd Hel L. apply elem_of_cons in Hel.
      destruct Hel as [Heq|Hel]; [|eapply Hin; eassumption].
      injection Heq as -> ->.
      rewrite (Hout (subnetID0, node)) by exact Hnotin.
      apply Hin1. apply elem_of_map_to_list, L.
    + intros k Hk. cbn in Hk. apply not_elem_of_cons in Hk.
      destruct Hk as [Hne Hk]. rewrite (Hout k Hk). apply Hout1. left. exact Hne.
Qed.

(** X14: when [processCurrentStakers] succeeds on staker diffs with 64-bit
    weights, the weight diff it hands on for a (subnet, node) has, as its
    signed value, the weight of the validator added (or minus the weight of
    the validator deleted) plus the weights of the delegators added minus
    the weights of the delegators deleted; its Amount is a 64-bit value. *)
Theorem processCurrentStakers_weight_diff E s out s1 :
  (forall subnetID (subnetDiffs : gmap N diffValidator) nodeID validatorDiff,
     validatorDiffs (currentStakers s) !! subnetID = Some subnetDiffs ->
     subnetDiffs !! nodeID = Some validatorDiff ->
     diffWeightsInRange validatorDiff) ->
  processCurrentStakers E s = (Ok out, s1) ->
  forall subnetID (subnetDiffs : gmap N diffValidator) nodeID validatorDiff,
    validatorDiffs (currentStakers s) !! subnetID = Some subnetDiffs ->
    subnetDiffs !! nodeID = Some validatorDiff ->
    exists weightDiff,
      outputWeights out !! (subnetID, nodeID) = Some weightDiff /\
      uint64 (Amount weightDiff) /\
      net weightDiff
      = validatorDelta validatorDiff
        + sumWeights (addedDelegators validatorDiff)
        - sumWeights (deletedDelegators validatorDiff).
Proof.
  intros Hrange HP subnetID subnetDiffs nodeID vd L1 L2.
  unfold processCurrentStakers in HP.
  eapply (proj1 (processCurrentLoop_net E _ _ _ _ _
                   (NoDup_fst_map_to_list _) _ HP));
    [apply elem_of_map_to_list; exact L1 | exact L2].
  Unshelve.
  intros sub m n v Hel. apply elem_of_map_to_list in Hel. eauto.
Qed.

Lemma netZeroState_weights_in_range :
  forall subnetID (subnetDiffs : gmap N diffValidator) nodeID validatorDiff,
    validatorDiffs (currentStakers netZeroState) !! subnetID = Some subnetDiffs ->
    subnetDiffs !! nodeID = Some validatorDiff ->
    diffWeightsInRange validatorDiff.
Proof.
  intros subnetID subnetDiffs nodeID vd L1 L2.
  change (validatorDiffs (currentStakers netZeroState))
    with ({[ PrimaryNetworkID :=
               {[ 1%N := mkDiffValidator unmodified None
                           [mkStaker 21%N 1%N None PrimaryNetworkID 7 0 50 0]
                           [mkStaker 22%N 1%N None PrimaryNetworkID 7 0 50 0] ]} ]}
          : gmap N (gmap N diffValidator)) in L1.
  apply lookup_singleton_Some in L1. destruct L1 as [_ <-].
  apply lookup_singleton_Some in L2. destruct L2 as [_ <-].
  split; [discriminate|].
  split; repeat constructor; apply uint64_small; cbn; lia.
Qed.

Lemma processCurrentStakers_weight_diff_witness :
  let out :=
    match fst (processCurrentStakers (idleCollaborators validatorGenesis)
                 netZeroState) with
    | Ok out => out
    | Err _ => mkOutputs ∅ ∅ ∅ ∅
    end in
  exists weightDiff,
    outputWeights out !! (PrimaryNetworkID, 1%N) = Some weightDiff /\
    uint64 (Amount weightDiff) /\
    net weightDiff = 0 + (7 + 0) - (7 + 0).
Proof.
  cbn zeta.
  eapply (processCurrentStakers_weight_diff
            (idleCollaborators validatorGenesis) netZeroState _
            (snd (processCurrentStakers (idleCollaborators validatorGenesis)
                    netZeroState))
            netZeroState_weights_in_range _ PrimaryNetworkID
            {[ 1%N := mkDiffValidator unmodified None
                        [mkStaker 21%N 1%N None PrimaryNetworkID 7 0 50 0]
                        [mkStaker 22%N 1%N None PrimaryNetworkID 7 0 50 0] ]}
            1%N
            (mkDiffValidator unmodified None
               [mkStaker 21%N 1%N None PrimaryNetworkID 7 0 50 0]
               [mkStaker 22%N 1%N None PrimaryNetworkID 7 0 50 0])).
  - vm_compute. reflexivity.
  - vm_compute. reflexivity.
  Unshelve. vm_compute. reflexivity.
Defined.

(** ** Draining the staker diffs *)

Lemma set_currentStakers_id s : set_currentStakers s (currentStakers s) = s.
Proof. destruct s. reflexivity. Qed.

Lemma lookup_fold_delete {V} (ks : list N) : forall (m : gmap N V) k,
  fold_left (fun m k => delete k m) ks m !! k
  = if decide (k ∈ ks) then None else m !! k.
Proof.
  induction ks as [|k0 rest IH]; intros m k; cbn.
  - destruct (decide (k ∈ [])) as [H|_]; [inversion H | reflexivity].
  - rewrite IH.
    destruct (decide (k ∈ rest)) as [Hin|Hnot].
    + rewrite decide_True by (right; exact Hin). reflexivity.
    + destruct (decide (k = k0)) as [->|Hne].
      * rewrite decide_True by left. apply lookup_delete_eq.
      * rewrite decide_False by (intros H; apply elem_of_cons in H; tauto).
        apply lookup_delete_ne. congruence.
Qed.

Lemma fold_delete_all {V} (m : gmap N V) :
  fold_left (fun m k => delete k m) (map_to_list m).*1 m = ∅.
Proof.
  apply map_eq. intros k. rewrite lookup_fold_delete, lookup_empty.
  destruct (decide (k ∈ (map_to_list m).*1)) as [_|Hnot]; [reflexivity|].
  destruct (m !! k) as [v|] eqn:L; [|reflexivity].
  contradiction Hnot. apply list_elem_of_fmap. exists (k, v).
  split; [reflexivity | apply elem_of_map_to_list, L].
Qed.

Lemma processCurrentLoop_drains E diffs : forall out s0 stakers out' s',
  processCurrentLoop E diffs out (set_currentStakers s0 stakers) = (Ok out', s') ->
  s' = set_currentStakers s0
         (mkBaseStakers (validators stakers)
            (fold_left (fun m k => delete k m) diffs.*1 (validatorDiffs stakers))).
Proof.
  induction diffs as [|[subnetID subnetDiffs] rest IH];
    intros out s0 stakers out' s' H; cbn in H.
  - injection H as _ <-. destruct stakers. reflexivity.
  - destruct (processSubnetDiffs _ _ _ _ _) as [out1|e]; [|discriminate].
    change (dropCurrentDiffs (set_currentStakers s0 stakers) subnetID)
      with (set_currentStakers s0
              (mkBaseStakers (validators stakers)
                 (delete subnetID (validatorDiffs stakers)))) in H.
    apply IH in H. exact H.
Qed.

(** X15: a successful [processCurrentStakers] empties the diff map of the
    current stakers and changes nothing else of the state; run again on the
    state it leaves, it succeeds with empty outputs and changes nothing. *)
Theorem processCurrentStakers_drains E s out s1 :
  processCurrentStakers E s = (Ok out, s1) ->
  s1 = set_currentStakers s
         (mkBaseStakers (validators (currentStakers s)) ∅) /\
  processCurrentStakers E s1 = (Ok (mkOutputs ∅ ∅ ∅ ∅), s1).
Proof.
  intros HP. unfold processCurrentStakers in HP.
  rewrite <- (set_currentStakers_id s) in HP at 2.
  apply processCurrentLoop_drains in HP. rewrite fold_delete_all in HP.
  split; [exact HP|]. subst s1. unfold processCurrentStakers. cbn.
  rewrite map_to_list_empty. reflexivity.
Qed.

Lemma processCurrentStakers_drains_witness :
  let s1 := snd (processCurrentStakers (idleCollaborators validatorGenesis)
                   netZeroState) in
  s1 = set_currentStakers netZeroState
         (mkBaseStakers (validators (currentStakers netZeroState)) ∅) /\
  processCurrentStakers (idleCollaborators validatorGenesis) s1
  = (Ok (mkOutputs ∅ ∅ ∅ ∅), s1).
Proof.
  cbn zeta.
  eapply (processCurrentStakers_drains (idleCollaborators validatorGenesis)
            netZeroState).
  vm_compute. reflexivity.
Defined.

(** X16: when draining the current or the pending staker diffs fails,
    [write] returns that error without running any of its sections: the
    base database is as it was before the call. *)
Theorem write_stops_when_draining_fails E updateValidators height s :
  (forall e, fst (processCurrentStakers E s) = Err e ->
     snd (write E updateValidators height s) = Some e /\
     baseDB (fst (write E updateValidators height s)) = baseDB s) /\
  (forall out e,
     fst (processCurrentStakers E s) = Ok out ->
     fst (processPendingStakers E (snd (processCurrentStakers E s))) = Err e ->
     snd (write E updateValidators height s) = Some e /\
     baseDB (fst (write E updateValidators height s)) = baseDB s).
Proof.
  pose proof (processCurrentLoop_baseDB E
                (map_to_list (validatorDiffs (currentStakers s)))
                (mkOutputs ∅ ∅ ∅ ∅) s) as Hc.
  fold (processCurrentStakers E s) in Hc.
  unfold write.
  destruct (processCurrentStakers E s) as [[out0|e0] s1]; cbn [fst snd] in *.
  - split; [discriminate|]. intros out e _ HE.
    pose proof (processPendingLoop_baseDB E
                  (map_to_list (validatorDiffs (pendingStakers s1))) ∅ s1) as Hp.
    fold (processPendingStakers E s1) in Hp.
    destruct (processPendingStakers E s1) as [[pendingData|e1] s2];
      cbn [fst snd] in *; [discriminate|].
    injection HE as ->. split; [reflexivity | congruence].
  - split; [|discriminate]. intros e HE. injection HE as ->.
    split; [reflexivity | exact Hc].
Qed.

Lemma write_stops_when_draining_fails_witness :
  let s := PutCurrentValidator (fst (doneInit (freshState 5)))
             (mkStaker 11%N 1%N None PrimaryNetworkID 20 0 100 0) in
  snd (write (idleCollaborators validatorGenesis) true 3 s)
  = Some (ErrWrapped 1 ErrNotFound) /\
  baseDB (fst (write (idleCollaborators validatorGenesis) true 3 s)) = baseDB s.
Proof.
  cbn zeta.
  apply (proj1 (write_stops_when_draining_fails
                  (idleCollaborators validatorGenesis) true 3 _)).
  vm_compute. reflexivity.
Defined.

(** ** Pending stakers *)

Lemma rewards_zero_insert output txID txBytes :
  rewards_zero output ->
  rewards_zero (<[txID := mkStakersData txBytes 0]> output).
Proof.
  intros H txID' data L.
  destruct (decide (txID' = txID)) as [->|Hne].
  - rewrite lookup_insert_eq in L. injection L as <-. reflexivity.
  - rewrite lookup_insert_ne in L by congruence. exact (H _ _ L).
Qed.

Lemma pendingAddedDelegators_zero E s delegators : forall output output',
  rewards_zero output ->
  pendingAddedDelegators E s delegators output = Ok output' ->
  rewards_zero output'.
Proof.
  induction delegators as [|staker rest IH]; intros output output' Hz H;
    cbn in H.
  - injection H as <-. exact Hz.
  - destruct (GetTx E s (staker_TxID staker)) as [tx|e]; [|discriminate].
    eapply IH; [|exact H]. apply rewards_zero_insert, Hz.
Qed.

Lemma pendingDeletedDelegators_zero delegators : forall output,
  rewards_zero output ->
  rewards_zero (pendingDeletedDelegators delegators output).
Proof.
  unfold pendingDeletedDelegators.
  induction delegators as [|staker rest IH]; intros output Hz; cbn;
    [exact Hz|].
  apply IH, rewards_zero_insert, Hz.
Qed.

Lemma processPendingDiff_zero E s validatorDiff output output' :
  rewards_zero output ->
  processPendingDiff E s validatorDiff output = Ok output' ->
  rewards_zero output'.
Proof.
  intros Hz H. unfold processPendingDiff in H.
  match type of H with
  | match ?x with Ok _ => _ | Err _ => _ end = _ =>
      destruct x as [output0|e] eqn:S; [|discriminate]
  end.
  assert (Hs : rewards_zero output0).
  { destruct (validatorStatus validatorDiff).
    - injection S as <-. exact Hz.
    - destruct (validator validatorDiff) as [v|]; [|discriminate].
      destruct (GetTx E s (staker_TxID v)); [|discriminate].
      injection S as <-. apply rewards_zero_insert, Hz.
    - destruct (validator validatorDiff) as [v|]; [|discriminate].
      injection S as <-. apply rewards_zero_insert, Hz. }
  destruct (pendingAddedDelegators E s _ output0) as [output1|e] eqn:A;
    [|discriminate].
  injection H as <-. apply pendingDeletedDelegators_zero.
  eapply pendingAddedDelegators_zero; eassumption.
Qed.

Lemma processPendingSubnet_zero E s l : forall output output',
  rewards_zero output ->
  processPendingSubnet E s l output = Ok output' ->
  rewards_zero output'.
Proof.
  induction l as [|[nodeID validatorDiff] rest IH]; intros output output' Hz H;
    cbn in H.
  - injection H as <-. exact Hz.
  - destruct (processPendingDiff E s validatorDiff output) as [output1|e] eqn:D;
      [|discriminate].
    eapply IH; [|exact H]. eapply processPendingDiff_zero; eassumption.
Qed.

Lemma processPendingLoop_zero E diffs : forall output s output' s',
  rewards_zero output ->
  processPendingLoop E diffs output s = (Ok output', s') ->
  rewards_zero output'.
Proof.
  induction diffs as [|[subnetID subnetDiffs] rest IH];
    intros output s output' s' Hz H; cbn in H.
  - injection H as <- _. exact Hz.
  - destruct (processPendingSubnet _ _ _ _) as [output1|e] eqn:P;
      [|discriminate].
    eapply IH; [|exact H]. eapply processPendingSubnet_zero; eassumption.
Qed.

(** X17: every staker record that [processPendingStakers] produces has a
    potential reward of zero, whatever the stakers of the diff carry. *)
Theorem processPendingStakers_rewards_zero E s output s' :
  processPendingStakers E s = (Ok output, s') ->
  forall txID data, output !! txID = Some data -> PotentialReward data = 0.
Proof.
  intros H. unfold processPendingStakers in H.
  eapply processPendingLoop_zero; [|exact H].
  intros txID data L. rewrite lookup_empty in L. discriminate.
Qed.

Lemma processPendingStakers_rewards_zero_witness :
  let s := set_pendingStakers (freshState 5)
             (mkBaseStakers ∅
                {[ PrimaryNetworkID :=
                     {[ 1%N := mkDiffValidator deleted
                                 (Some (mkStaker 31%N 1%N None PrimaryNetworkID
                                          20 0 100 9)) [] [] ]} ]}) in
  fst (processPendingStakers (idleCollaborators validatorGenesis) s)
  = Ok {[ 31%N := mkStakersData None 0 ]} /\
  forall txID data,
    match fst (processPendingStakers (idleCollaborators validatorGenesis) s) with
    | Ok output => output
    | Err _ => ∅
    end !! txID = Some data ->
    PotentialReward data = 0.
Proof.
  cbn zeta.
  set (s := set_pendingStakers (freshState 5) _).
  split; [vm_compute; reflexivity|].
  apply (processPendingStakers_rewards_zero
           (idleCollaborators validatorGenesis) s _
           (snd (processPendingStakers (idleCollaborators validatorGenesis) s))).
  vm_compute. reflexivity.
Defined.

(** ** The diff-log records *)

Lemma be_bytes_length n x : length (be_bytes n x) = n.
Proof. induction n as [|n IH]; cbn; [reflexivity | rewrite IH; reflexivity]. Qed.

Lemma be_bytes_mod n x y :
  be_bytes n x = be_bytes n y ->
  x mod 2 ^ (8 * Z.of_nat n) = y mod 2 ^ (8 * Z.of_nat n).
Proof.
  induction n as [|n IH]; intros H.
  - cbn. rewrite !Z.mod_1_r. reflexivity.
  - cbn [be_bytes] in H. injection H as Hhead Htail.
    specialize (IH Htail).
    change 255 with (Z.ones 8) in Hhead.
    rewrite !Z.land_ones, !Z.shiftr_div_pow2 in Hhead by lia.
    replace (8 * Z.of_nat (S n)) with (8 * Z.of_nat n + 8) by lia.
    rewrite Z.pow_add_r by lia.
    rewrite !Z.rem_mul_r by lia.
    rewrite IH, Hhead. reflexivity.
Qed.

Lemma be_bytes_inj n x y :
  0 <= x < 2 ^ (8 * Z.of_nat n) -> 0 <= y < 2 ^ (8 * Z.of_nat n) ->
  be_bytes n x = be_bytes n y -> x = y.
Proof.
  intros Hx Hy H. apply be_bytes_mod in H.
  rewrite !Z.mod_small in H by assumption. exact H.
Qed.

Lemma marshalDiffKey_inj subnetID nodeID subnetID' nodeID' height :
  idInRange subnetID -> nodeIDInRange nodeID ->
  idInRange subnetID' -> nodeIDInRange nodeID' ->
  marshalDiffKey subnetID height nodeID = marshalDiffKey subnetID' height nodeID' ->
  subnetID = subnetID' /\ nodeID = nodeID'.
Proof.
  unfold idInRange, nodeIDInRange, marshalDiffKey. intros Hs Hn Hs' Hn' H.
  apply app_inj_1 in H; [|rewrite !be_bytes_length; reflexivity].
  destruct H as [H1 H].
  apply app_inj_1 in H; [|rewrite !be_bytes_length; reflexivity].
  destruct H as [_ H2].
  apply be_bytes_inj in H1; [|cbn; lia..].
  apply be_bytes_inj in H2; [|cbn; lia..].
  split; apply N2Z.inj; assumption.
Qed.

Lemma weightDiffDBKey_inj height k k' :
  idInRange (fst k) -> nodeIDInRange (snd k) ->
  idInRange (fst k') -> nodeIDInRange (snd k') ->
  weightDiffDBKey height k = weightDiffDBKey height k' -> k = k'.
Proof.
  intros H1 H2 H3 H4 H. unfold weightDiffDBKey, prefixed in H.
  apply app_inv_head in H.
  destruct (marshalDiffKey_inj _ _ _ _ _ H1 H2 H3 H4 H) as [Ha Hb].
  destruct k, k'. cbn in *. congruence.
Qed.

Lemma sectionPut_open prefix key value s :
  versiondb.closed (baseDB s) = false ->
  snd (sectionPut prefix key value s) = None /\
  versiondb.closed (baseDB (fst (sectionPut prefix key value s))) = false /\
  versiondb.mem (baseDB (fst (sectionPut prefix key value s)))
  = <[prefixed prefix key := Some value]> (versiondb.mem (baseDB s)).
Proof.
  intros Hc. unfold sectionPut, versiondb.Put. rewrite Hc. cbn. auto.
Qed.

Lemma writeWeightDiffsLoop_lookup height l : forall s,
  versiondb.closed (baseDB s) = false ->
  NoDup l.*1 ->
  (forall k weightDiff, (k, weightDiff) ∈ l ->
     idInRange (fst k) /\ nodeIDInRange (snd k)) ->
  snd (writeWeightDiffsLoop height l s) = None /\
  (forall k weightDiff, (k, weightDiff) ∈ l ->
     versiondb.mem (baseDB (fst (writeWeightDiffsLoop height l s)))
     !! weightDiffDBKey height k
     = if Amount weightDiff =? 0
       then versiondb.mem (baseDB s) !! weightDiffDBKey height k
       else Some (Some (marshalWeightDiff weightDiff))) /\
  (forall key,
     (forall k weightDiff, (k, weightDiff) ∈ l -> key <> weightDiffDBKey height k) ->
     versiondb.mem (baseDB (fst (writeWeightDiffsLoop height l s))) !! key
     = versiondb.mem (baseDB s) !! key).
Proof.
  induction l as [|[k0 wd0] rest IH]; intros s Hc Hnd Hrange;
    cbn [writeWeightDiffsLoop].
  - split; [reflexivity|]. split; [intros ? ? Hel; inversion Hel | auto].
  - cbn in Hnd. apply NoDup_cons in Hnd. destruct Hnd as [Hnotin Hnd].
    assert (Hrange' : forall k wd, (k, wd) ∈ rest ->
                        idInRange (fst k) /\ nodeIDInRange (snd k))
      by (intros k wd Hel; apply (Hrange k wd); right; exact Hel).
    assert (Hfresh : forall k wd, (k, wd) ∈ rest ->
                       weightDiffDBKey height k0 <> weightDiffDBKey height k).
    { intros k wd Hel Heq.
      destruct (Hrange k0 wd0) as [A1 A2]; [left|].
      destruct (Hrange' k wd Hel) as [B1 B2].
      apply weightDiffDBKey_inj in Heq; try assumption. subst k.
      apply Hnotin. apply list_elem_of_fmap. exists (k0, wd). auto. }
    destruct (Z.eqb_spec (Amount wd0) 0) as [Hz|Hnz].
    + destruct (IH s Hc Hnd Hrange') as (He & Hin & Hout).
      split; [exact He|]. split.
      * intros k wd Hel. apply elem_of_cons in Hel.
        destruct Hel as [Heq|Hel]; [|apply Hin, Hel].
        injection Heq as -> ->.
        rewrite (proj2 (Z.eqb_eq _ _) Hz). apply Hout, Hfresh.
      * intros key Hkey. apply Hout. intros k wd Hel.
        apply (Hkey k wd). right. exact Hel.
    + destruct (sectionPut_open merkleWeightDiffPrefix
                  (marshalDiffKey (fst k0) height (snd k0))
                  (marshalWeightDiff wd0) s Hc) as (Pe & Pc & Pm).
      destruct (sectionPut _ _ _ s) as [s1 err]. cbn [fst snd] in *.
      subst err.
      change (prefixed merkleWeightDiffPrefix
                (marshalDiffKey (fst k0) height (snd k0)))
        with (weightDiffDBKey height k0) in Pm.
      destruct (IH s1 Pc Hnd Hrange') as (He & Hin & Hout).
      split; [exact He|]. split.
      * intros k wd Hel. apply elem_of_cons in Hel.
        destruct Hel as [Heq|Hel].
        -- injection Heq as -> ->.
           rewrite (proj2 (Z.eqb_neq _ _) Hnz), (Hout _ Hfresh), Pm.
           apply lookup_insert_eq.
        -- rewrite (Hin _ _ Hel), Pm.
           destruct (Amount wd =? 0); [|reflexivity].
           apply lookup_insert_ne. apply (Hfresh k wd Hel).
      * intros key Hkey. rewrite Hout, Pm.
        -- apply lookup_insert_ne. intros Heq.
           apply (Hkey k0 wd0); [left | symmetry; exact Heq].
        -- intros k wd Hel. apply (Hkey k wd). right. exact Hel.
Qed.

(** X18: on an open database and for IDs that fit their byte arrays,
    [writeWeightDiffs] succeeds, and afterwards the record staged under the
    key of a (subnet, node) at the height is the encoding of its diff when
    the diff's Amount is not zero, and what was staged before when it is
    zero. *)
Theorem writeWeightDiffs_stages_each_diff (height : Z)
    (weightDiffs : gmap (N * N) ValidatorWeightDiff) (s : state) :
  versiondb.closed (baseDB s) = false ->
  (forall k weightDiff, weightDiffs !! k = Some weightDiff ->
     idInRange (fst k) /\ nodeIDInRange (snd k)) ->
  snd (writeWeightDiffs height weightDiffs s) = None /\
  forall k weightDiff, weightDiffs !! k = Some weightDiff ->
    versiondb.mem (baseDB (fst (writeWeightDiffs height weightDiffs s)))
    !! weightDiffDBKey height k
    = if Amount weightDiff =? 0
      then versiondb.mem (baseDB s) !! weightDiffDBKey height k
      else Some (Some (marshalWeightDiff weightDiff)).
Proof.
  intros Hc Hrange. unfold writeWeightDiffs.
  destruct (writeWeightDiffsLoop_lookup height (map_to_list weightDiffs) s Hc
              (NoDup_fst_map_to_list _)) as (He & Hin & _).
  { intros k wd Hel. apply elem_of_map_to_list in Hel. eauto. }
  split; [exact He|].
  intros k wd L. apply Hin. apply elem_of_map_to_list, L.
Qed.

Lemma writeWeightDiffs_stages_each_diff_witness :
  let weightDiffs : gmap (N * N) ValidatorWeightDiff :=
    {[ (0%N, 1%N) := mkDiff false 20; (0%N, 2%N) := mkDiff true 0 ]} in
  snd (writeWeightDiffs 3 weightDiffs (freshState 5)) = None /\
  forall k weightDiff, weightDiffs !! k = Some weightDiff ->
    versiondb.mem (baseDB (fst (writeWeightDiffs 3 weightDiffs (freshState 5))))
    !! weightDiffDBKey 3 k
    = if Amount weightDiff =? 0
      then versiondb.mem (baseDB (freshState 5)) !! weightDiffDBKey 3 k
      else Some (Some (marshalWeightDiff weightDiff)).
Proof.
  cbn zeta. apply writeWeightDiffs_stages_each_diff.
  - reflexivity.
  - intros k wd L.
    apply lookup_insert_Some in L.
    destruct L as [[<- _]|[_ L]]; [split; reflexivity|].
    apply lookup_singleton_Some in L. destruct L as [<- _]. split; reflexivity.
Defined.

Lemma sectionPut_closed prefix key value s :
  versiondb.closed (baseDB s) = true ->
  snd (sectionPut prefix key value s) = Some ErrClosed /\
  baseDB (fst (sectionPut prefix key value s)) = baseDB s.
Proof.
  intros Hc. unfold sectionPut, versiondb.Put. rewrite Hc. cbn. auto.
Qed.

Lemma writeWeightDiffsLoop_closed height l : forall s,
  versiondb.closed (baseDB s) = true ->
  baseDB (fst (writeWeightDiffsLoop height l s)) = baseDB s /\
  snd (writeWeightDiffsLoop height l s)
  = if forallb (fun e => Amount (snd e) =? 0) l
    then None else Some (ErrWrapped 7 ErrClosed).
Proof.
  induction l as [|[k0 wd0] rest IH]; intros s Hc;
    cbn [writeWeightDiffsLoop forallb snd].
  - split; reflexivity.
  - destruct (Amount wd0 =? 0); cbn [andb].
    + apply IH, Hc.
    + destruct (sectionPut_closed merkleWeightDiffPrefix
                  (marshalDiffKey (fst k0) height (snd k0))
                  (marshalWeightDiff wd0) s Hc) as [Pe Pb].
      destruct (sectionPut _ _ _ s) as [s1 err]. cbn [fst snd] in *.
      subst err. cbn. auto.
Qed.

(** X19: on a closed database [writeWeightDiffs] changes nothing; it fails,
    with the closed-database error wrapped, exactly when the map holds a
    diff of nonzero Amount, and succeeds when every diff is zero. *)
Theorem writeWeightDiffs_closed_database (height : Z)
    (weightDiffs : gmap (N * N) ValidatorWeightDiff) (s : state) :
  versiondb.closed (baseDB s) = true ->
  baseDB (fst (writeWeightDiffs height weightDiffs s)) = baseDB s /\
  (snd (writeWeightDiffs height weightDiffs s) = None <->
   forall k weightDiff, weightDiffs !! k = Some weightDiff ->
     Amount weightDiff = 0) /\
  (snd (writeWeightDiffs height weightDiffs s) <> None ->
   snd (writeWeightDiffs height weightDiffs s)
   = Some (ErrWrapped 7 ErrClosed)).
Proof.
  intros Hc. unfold writeWeightDiffs.
  destruct (writeWeightDiffsLoop_closed height (map_to_list weightDiffs) s Hc)
    as [Hb He].
  split; [exact Hb|]. rewrite He.
  destruct (forallb _ (map_to_list weightDiffs)) eqn:F.
  - split; [|intros H; contradiction H; reflexivity].
    split; [|reflexivity]. intros _ k wd L.
    rewrite forallb_forall in F.
    apply Z.eqb_eq.
    apply (F (k, wd)). apply list_elem_of_In, elem_of_map_to_list, L.
  - split; [|reflexivity]. split; [discriminate|].
    intros Hall. exfalso.
    assert (Ht : forallb (fun e : N * N * ValidatorWeightDiff =>
                            Amount (snd e) =? 0) (map_to_list weightDiffs)
                 = true).
    { apply forallb_forall. intros [k wd] Hin. cbn. apply Z.eqb_eq.
      apply (Hall k). apply elem_of_map_to_list, list_elem_of_In, Hin. }
    congruence.
Qed.

Lemma writeWeightDiffs_closed_database_witness :
  let s := set_baseDB (freshState 5) (versiondb.mk ∅ ∅ true) in
  snd (writeWeightDiffs 3 {[ (0%N, 2%N) := mkDiff true 0 ]} s) = None /\
  snd (writeWeightDiffs 3 {[ (0%N, 1%N) := mkDiff false 20 ]} s)
  = Some (ErrWrapped 7 ErrClosed).
Proof.
  cbn zeta.
  set (s := set_baseDB (freshState 5) (versiondb.mk ∅ ∅ true)).
  assert (Hc : versiondb.closed (baseDB s) = true) by reflexivity.
  split.
  - apply (writeWeightDiffs_closed_database 3 {[ (0%N, 2%N) := mkDiff true 0 ]}
             s Hc).
    intros k wd L. apply lookup_singleton_Some in L.
    destruct L as [_ <-]. reflexivity.
  - apply (writeWeightDiffs_closed_database 3
             {[ (0%N, 1%N) := mkDiff false 20 ]} s Hc).
    vm_compute. discriminate.
Defined.

Lemma blsKeyDiffDBKey_inj height nodeID nodeID' :
  nodeIDInRange nodeID -> nodeIDInRange nodeID' ->
  blsKeyDiffDBKey height nodeID = blsKeyDiffDBKey height nodeID' ->
  nodeID = nodeID'.
Proof.
  intros H1 H2 H. unfold blsKeyDiffDBKey, prefixed in H.
  apply app_inv_head in H.
  assert (H0 : idInRange PrimaryNetworkID) by reflexivity.
  exact (proj2 (marshalDiffKey_inj _ _ _ _ _ H0 H1 H0 H2 H)).
Qed.

Lemma writeBlsKeyDiffsLoop_lookup height l : forall s,
  versiondb.closed (baseDB s) = false ->
  NoDup l.*1 ->
  (forall nodeID blsKey, (nodeID, blsKey) ∈ l -> nodeIDInRange nodeID) ->
  snd (writeBlsKeyDiffsLoop height l s) = None /\
  (forall nodeID blsKey, (nodeID, blsKey) ∈ l ->
     versiondb.mem (baseDB (fst (writeBlsKeyDiffsLoop height l s)))
     !! blsKeyDiffDBKey height nodeID
     = Some (Some (default [] blsKey))) /\
  (forall key,
     (forall nodeID blsKey, (nodeID, blsKey) ∈ l ->
        key <> blsKeyDiffDBKey height nodeID) ->
     versiondb.mem (baseDB (fst (writeBlsKeyDiffsLoop height l s))) !! key
     = versiondb.mem (baseDB s) !! key).
Proof.
  induction l as [|[n0 pk0] rest IH]; intros s Hc Hnd Hrange;
    cbn [writeBlsKeyDiffsLoop].
  - split; [reflexivity|]. split; [intros ? ? Hel; inversion Hel | auto].
  - cbn in Hnd. apply NoDup_cons in Hnd. destruct Hnd as [Hnotin Hnd].
    assert (Hrange' : forall n pk, (n, pk) ∈ rest -> nodeIDInRange n)
      by (intros n pk Hel; apply (Hrange n pk); right; exact Hel).
    assert (Hfresh : forall n pk, (n, pk) ∈ rest ->
                       blsKeyDiffDBKey height n0 <> blsKeyDiffDBKey height n).
    { intros n pk Hel Heq.
      apply blsKeyDiffDBKey_inj in Heq;
        [|apply (Hrange n0 pk0); left | apply (Hrange' n pk Hel)].
      subst n. apply Hnotin. apply list_elem_of_fmap. exists (n0, pk). auto. }
    destruct (sectionPut_open merkleBlsKeyDiffPrefix
                (marshalDiffKey PrimaryNetworkID height n0)
                (default [] pk0) s Hc) as (Pe & Pc & Pm).
    destruct (sectionPut _ _ _ s) as [s1 err]. cbn [fst snd] in *.
    subst err.
    change (prefixed merkleBlsKeyDiffPrefix
              (marshalDiffKey PrimaryNetworkID height n0))
      with (blsKeyDiffDBKey height n0) in Pm.
    destruct (IH s1 Pc Hnd Hrange') as (He & Hin & Hout).
    split; [exact He|]. split.
    + intros n pk Hel. apply elem_of_cons in Hel.
      destruct Hel as [Heq|Hel]; [|apply Hin, Hel].
      injection Heq as -> ->. rewrite (Hout _ Hfresh), Pm.
      apply lookup_insert_eq.
    + intros key Hkey. rewrite Hout, Pm.
      * apply lookup_insert_ne. intros Heq.
        apply (Hkey n0 pk0); [left | symmetry; exact Heq].
      * intros n pk Hel. apply (Hkey n pk). right. exact Hel.
Qed.

(** X20: on an open database and for node IDs that fit their byte array,
    [writeBlsKeyDiffs] succeeds and stages one record per node of the map,
    under the node's key in the primary network at the height: the
    serialized key, or the empty value when the entry is nil. *)
Theorem writeBlsKeyDiffs_stages_each_key (height : Z)
    (blsKeyDiffs : gmap N (option blsPublicKey)) (s : state) :
  versiondb.closed (baseDB s) = false ->
  (forall nodeID blsKey, blsKeyDiffs !! nodeID = Some blsKey ->
     nodeIDInRange nodeID) ->
  snd (writeBlsKeyDiffs height blsKeyDiffs s) = None /\
  forall nodeID blsKey, blsKeyDiffs !! nodeID = Some blsKey ->
    versiondb.mem (baseDB (fst (writeBlsKeyDiffs height blsKeyDiffs s)))
    !! blsKeyDiffDBKey height nodeID
    = Some (Some (match blsKey with Some key => key | None => [] end)).
Proof.
  intros Hc Hrange. unfold writeBlsKeyDiffs.
  destruct (writeBlsKeyDiffsLoop_lookup height (map_to_list blsKeyDiffs) s Hc
              (NoDup_fst_map_to_list _)) as (He & Hin & _).
  { intros n pk Hel. apply elem_of_map_to_list in Hel. eauto. }
  split; [exact He|].
  intros n pk L. rewrite (Hin n pk); [destruct pk; reflexivity|].
  apply elem_of_map_to_list, L.
Qed.

Lemma writeBlsKeyDiffs_stages_each_key_witness :
  let blsKeyDiffs : gmap N (option blsPublicKey) :=
    {[ 1%N := None; 2%N := Some [7; 8] ]} in
  snd (writeBlsKeyDiffs 3 blsKeyDiffs (freshState 5)) = None /\
  forall nodeID blsKey, blsKeyDiffs !! nodeID = Some blsKey ->
    versiondb.mem (baseDB (fst (writeBlsKeyDiffs 3 blsKeyDiffs (freshState 5))))
    !! blsKeyDiffDBKey 3 nodeID
    = Some (Some (match blsKey with Some key => key | None => [] end)).
Proof.
  cbn zeta. apply writeBlsKeyDiffs_stages_each_key.
  - reflexivity.
  - intros n pk L.
    apply lookup_insert_Some in L.
    destruct L as [[<- _]|[_ L]]; [reflexivity|].
    apply lookup_singleton_Some in L. destruct L as [<- _]. reflexivity.
Defined.

(** ** Staged UTXOs and [Abort] *)

Lemma set_baseDB_id s : set_baseDB s (baseDB s) = s.
Proof. destruct s. reflexivity. Qed.

(** X21: [Abort] does not unstage a UTXO, and neither does a [Commit]
    that fails while draining the staker diffs.  For a UTXO ID with a
    staged entry (an addition or a tombstone), [GetUTXO] gives after
    [Abort], and after such a [Commit], the answer it gave before: the
    staged UTXO, or [ErrNotFound] for a tombstone, whatever the cache and
    the trie hold by then. *)
Theorem staged_UTXO_survives_Abort E R utxoCache s utxoID entry :
  modifiedUTXOs s !! utxoID = Some entry ->
  let answer :=
    match entry with Some utxo => Ok utxo | None => Err ErrNotFound end in
  GetUTXO R utxoCache (Abort s) utxoID = (answer, utxoCache) /\
  (forall e, draining_fails E s e ->
     snd (Commit E s) = Some e /\
     GetUTXO R utxoCache (fst (Commit E s)) utxoID = (answer, utxoCache)).
Proof.
  intros Hm answer. subst answer. split.
  - unfold GetUTXO, Abort. cbn [modifiedUTXOs set_baseDB]. rewrite Hm.
    destruct entry; reflexivity.
  - intros e Hd.
    destruct (write_draining_fails E true (lastAcceptedHeight s) s e Hd)
      as (W1 & _ & (WU & _)).
    unfold Commit, CommitBatch.
    destruct (write E true (lastAcceptedHeight s) s) as [s1 o];
      cbn [fst snd] in *. subst o. cbn [fst snd].
    split; [reflexivity|].
    unfold GetUTXO, Abort. cbn [modifiedUTXOs set_baseDB]. rewrite WU, Hm.
    destruct entry; reflexivity.
Qed.

(** UTXO 3, staged in [unknownTxState], is returned after [Abort] and
    after the failed [Commit], by a reader whose trie holds nothing. *)
Lemma staged_UTXO_survives_Abort_witness :
  let R := mkUtxoReader (fun _ => []) (fun _ => Err ErrNotFound)
             (fun _ => Err (ErrOther 1)) in
  let c := LRU.mk 2 ([] : list (Z * option UTXO)) in
  let E := idleCollaborators validatorGenesis in
  GetUTXO R c (Abort unknownTxState) 3%N = (Ok (mkUTXO 3%N [0]), c) /\
  snd (Commit E unknownTxState) = Some (ErrWrapped 1 ErrNotFound) /\
  GetUTXO R c (fst (Commit E unknownTxState)) 3%N = (Ok (mkUTXO 3%N [0]), c).
Proof.
  cbn zeta.
  destruct (staged_UTXO_survives_Abort (idleCollaborators validatorGenesis)
              (mkUtxoReader (fun _ => []) (fun _ => Err ErrNotFound)
                 (fun _ => Err (ErrOther 1)))
              (LRU.mk 2 []) unknownTxState 3%N (Some (mkUTXO 3%N [0])))
    as [H1 H2]; [vm_compute; reflexivity|].
  split; [exact H1|].
  apply (H2 (ErrWrapped 1 ErrNotFound)). left. vm_compute. reflexivity.
Defined.

(** A UTXO staged and then "aborted" is still returned. *)
Example GetUTXO_after_Abort R utxoCache s utxo :
  GetUTXO R utxoCache (Abort (AddUTXO s utxo)) (utxo_InputID utxo)
  = (Ok utxo, utxoCache).
Proof. unfold GetUTXO. cbn. rewrite lookup_insert_eq. reflexivity. Qed.

(** X22: a staged UTXO wins over the cache and the trie: after [AddUTXO]
    [GetUTXO] returns the UTXO, after [DeleteUTXO] it returns
    [ErrNotFound] whatever the cache and the trie hold, in both cases
    without touching the cache; reads of other UTXO IDs are not affected. *)
Theorem GetUTXO_reads_staged_entry :
  forall R utxoCache s,
    (forall utxo,
       GetUTXO R utxoCache (AddUTXO s utxo) (utxo_InputID utxo)
       = (Ok utxo, utxoCache)) /\
    (forall utxoID,
       GetUTXO R utxoCache (DeleteUTXO s utxoID) utxoID
       = (Err ErrNotFound, utxoCache)) /\
    (forall utxo utxoID, utxoID <> utxo_InputID utxo ->
       GetUTXO R utxoCache (AddUTXO s utxo) utxoID
       = GetUTXO R utxoCache s utxoID) /\
    (forall utxoID utxoID', utxoID' <> utxoID ->
       GetUTXO R utxoCache (DeleteUTXO s utxoID) utxoID'
       = GetUTXO R utxoCache s utxoID').
Proof.
  intros R utxoCache s. unfold GetUTXO. cbn [modifiedUTXOs AddUTXO DeleteUTXO].
  repeat split.
  - intros utxo. rewrite lookup_insert_eq. reflexivity.
  - intros utxoID. rewrite lookup_insert_eq. reflexivity.
  - intros utxo utxoID Hne. rewrite lookup_insert_ne by congruence. reflexivity.
  - intros utxoID utxoID' Hne. rewrite lookup_insert_ne by congruence.
    reflexivity.
Qed.

(** Deleting UTXO 3 does not change what is read for UTXO 4. *)
Lemma GetUTXO_reads_staged_entry_witness :
  let R := mkUtxoReader (fun _ => []) (fun _ => Ok [1])
             (fun _ => Ok (mkUTXO 4%N [1])) in
  let c := LRU.mk 2 ([] : list (Z * option UTXO)) in
  GetUTXO R c (DeleteUTXO (freshState 5) 3%N) 4%N
  = GetUTXO R c (freshState 5) 4%N.
Proof.
  cbn zeta.
  apply (proj2 (proj2 (proj2
           (GetUTXO_reads_staged_entry
              (mkUtxoReader (fun _ => []) (fun _ => Ok [1])
                 (fun _ => Ok (mkUTXO 4%N [1])))
              (LRU.mk 2 []) (freshState 5))))).
  discriminate.
Defined.

Lemma LRU_Get_after_find {V} key (v : V) c :
  LRU.find key (LRU.entries c) = Some v ->
  fst (LRU.Get key c) = Some v.
Proof. intros F. rewrite LRU_Get_find, F. reflexivity. Qed.

Lemma LRU_Get_hit_find {V} key (v : V) c :
  fst (LRU.Get key c) = Some v ->
  LRU.find key (LRU.entries (snd (LRU.Get key c))) = Some v.
Proof.
  rewrite LRU_Get_find.
  destruct (LRU.find key (LRU.entries c)) as [v0|]; [|discriminate].
  cbn. intros H. injection H as <-. apply LRU_find_head.
Qed.

Lemma LRU_Get_miss {V} key (c : LRU.t V) :
  fst (LRU.Get key c) = None -> snd (LRU.Get key c) = c.
Proof.
  rewrite LRU_Get_find.
  destruct (LRU.find key (LRU.entries c)); [discriminate | reflexivity].
Qed.

Lemma LRU_Get_Size {V} key (c : LRU.t V) :
  LRU.Size (snd (LRU.Get key c)) = LRU.Size c.
Proof.
  rewrite LRU_Get_find.
  destruct (LRU.find key (LRU.entries c)); reflexivity.
Qed.

Lemma GetUTXO_cached R utxoCache s utxoID entry :
  modifiedUTXOs s !! utxoID = None ->
  LRU.find (Z.of_N utxoID) (LRU.entries utxoCache) = Some entry ->
  fst (GetUTXO R utxoCache s utxoID)
  = match entry with Some utxo => Ok utxo | None => Err ErrNotFound end.
Proof.
  intros Hm F. unfold GetUTXO. rewrite Hm, LRU_Get_find, F.
  destruct entry; reflexivity.
Qed.

(** X23: [GetUTXO] remembers what it found.  With a cache that can hold an
    entry, a UTXO returned once is returned again by the next read, and a
    miss answered by the trie with [ErrNotFound] is answered
    [ErrNotFound] again, in both cases whatever the trie and the codec
    would now say: the second read does not reach them. *)
Theorem GetUTXO_caches_answer R utxoCache s utxoID :
  (0 < LRU.Size utxoCache)%nat ->
  (forall utxo,
     fst (GetUTXO R utxoCache s utxoID) = Ok utxo ->
     forall R',
       fst (GetUTXO R' (snd (GetUTXO R utxoCache s utxoID)) s utxoID)
       = Ok utxo) /\
  (modifiedUTXOs s !! utxoID = None ->
   LRU.find (Z.of_N utxoID) (LRU.entries utxoCache) = None ->
   merkleGet R (merkleUtxoIDKey R utxoID) = Err ErrNotFound ->
   fst (GetUTXO R utxoCache s utxoID) = Err ErrNotFound /\
   forall R',
     fst (GetUTXO R' (snd (GetUTXO R utxoCache s utxoID)) s utxoID)
     = Err ErrNotFound).
Proof.
  intros Hsize. split.
  - intros utxo H R'. unfold GetUTXO in H |- *.
    destruct (modifiedUTXOs s !! utxoID) as [[u|]|] eqn:Hm.
    + exact H.
    + discriminate H.
    + pose proof (fun v => @LRU_Get_hit_find (option UTXO) (Z.of_N utxoID)
                              v utxoCache) as Hhit.
      pose proof (LRU_Get_Size (Z.of_N utxoID) utxoCache) as HS.
      destruct (LRU.Get (Z.of_N utxoID) utxoCache) as [[[u|]|] c1];
        cbn [fst snd] in *.
      * injection H as ->.
        rewrite (LRU_Get_find _ c1), (Hhit _ eq_refl). reflexivity.
      * discriminate H.
      * destruct (merkleGet R (merkleUtxoIDKey R utxoID)) as [bytes|e].
        -- destruct (unmarshalUTXO R bytes) as [u|e]; [|discriminate H].
           injection H as ->. cbn [snd].
           rewrite LRU_Get_find, LRU_find_Put by lia. reflexivity.
        -- destruct e; discriminate H.
  - intros Hm F HG. unfold GetUTXO.
    rewrite Hm, LRU_Get_find, F, HG. cbn [fst snd].
    split; [reflexivity|]. intros R'.
    rewrite LRU_Get_find, LRU_find_Put by exact Hsize. reflexivity.
Qed.

Lemma GetUTXO_caches_answer_witness :
  let R := mkUtxoReader (fun _ => []) (fun _ => Err ErrNotFound)
             (fun _ => Err (ErrOther 1)) in
  let c := LRU.mk 2 ([] : list (Z * option UTXO)) in
  fst (GetUTXO R c (freshState 5) 3%N) = Err ErrNotFound /\
  forall R',
    fst (GetUTXO R' (snd (GetUTXO R c (freshState 5) 3%N)) (freshState 5) 3%N)
    = Err ErrNotFound.
Proof.
  cbn zeta.
  apply (GetUTXO_caches_answer
           (mkUtxoReader (fun _ => []) (fun _ => Err ErrNotFound)
              (fun _ => Err (ErrOther 1)))
           (LRU.mk 2 []) (freshState 5) 3%N).
  - cbn. lia.
  - reflexivity.
  - reflexivity.
  - reflexivity.
Defined.

(** ** Uptimes and delegatee rewards *)

(** X24: [PutCurrentValidator] gives the validator an uptime of zero that
    starts at its start time and a delegatee reward of zero, whatever was
    recorded for it before, marks both as modified and stages nothing in
    the base database; [GetUptime] and [GetDelegateeReward] then answer
    from memory, without reading the database and without changing the
    state. *)
Theorem PutCurrentValidator_registers_uptime_and_reward :
  forall loadUptime loadReward s staker,
    let s' := PutCurrentValidator s staker in
    GetUptime loadUptime s' (staker_NodeID staker) (staker_SubnetID staker)
    = (Ok (mkUptimes 0 (staker_StartTime staker)), s') /\
    GetDelegateeReward loadReward s' (staker_SubnetID staker)
      (staker_NodeID staker)
    = (Ok 0, s') /\
    (staker_NodeID staker, staker_SubnetID staker) ∈ modifiedLocalUptimes s' /\
    (staker_NodeID staker, staker_SubnetID staker) ∈ modifiedDelegateeReward s' /\
    baseDB s' = baseDB s.
Proof.
  intros loadUptime loadReward s staker s'. subst s'.
  unfold GetUptime, GetDelegateeReward, PutCurrentValidator.
  cbn [localUptimesCache delegateeRewardCache SetUptime SetDelegateeReward
       modifiedLocalUptimes modifiedDelegateeReward baseDB set_currentStakers].
  rewrite !lookup_insert_eq.
  split; [reflexivity|]. split; [reflexivity|].
  split; [set_solver|]. split; [set_solver | reflexivity].
Qed.

(** X25: an uptime that [GetUptime] loads from the database replaces the
    whole in-memory map of that node: the loaded entry is now in memory,
    every other subnet's uptime of the same node is gone from memory, also
    one that [SetUptime] recorded and that is still marked as modified,
    and the entries of other nodes are kept. *)
Theorem GetUptime_database_hit_replaces_node_entries
    loadUptime s vdrID subnetID upTm :
  localUptimesCache s !! (vdrID, subnetID) = None ->
  loadUptime vdrID subnetID = Ok upTm ->
  let s' := snd (GetUptime loadUptime s vdrID subnetID) in
  fst (GetUptime loadUptime s vdrID subnetID) = Ok upTm /\
  localUptimesCache s' !! (vdrID, subnetID) = Some upTm /\
  (forall subnetID', subnetID' <> subnetID ->
     localUptimesCache s' !! (vdrID, subnetID') = None) /\
  (forall vdrID' subnetID', vdrID' <> vdrID ->
     localUptimesCache s' !! (vdrID', subnetID')
     = localUptimesCache s !! (vdrID', subnetID')) /\
  modifiedLocalUptimes s' = modifiedLocalUptimes s.
Proof.
  intros Hm Hl s'. subst s'. unfold GetUptime. rewrite Hm, Hl.
  cbn [fst snd localUptimesCache modifiedLocalUptimes].
  split; [reflexivity|]. split; [apply lookup_insert_eq|].
  split; [|split; [|reflexivity]].
  - intros subnetID' Hne. rewrite lookup_insert_ne by congruence.
    apply map_lookup_filter_None. right. intros x _ Hp. apply Hp. reflexivity.
  - intros vdrID' subnetID' Hne. rewrite lookup_insert_ne by congruence.
    destruct (localUptimesCache s !! (vdrID', subnetID')) as [u|] eqn:L.
    + apply map_lookup_filter_Some. split; [exact L|]. cbn. exact Hne.
    + apply map_lookup_filter_None. left. exact L.
Qed.

(** A node with a modified uptime on subnet 7 loses it from memory when its
    uptime on subnet 8 is read from the database. *)
Lemma GetUptime_database_hit_replaces_node_entries_witness :
  let s := SetUptime (freshState 5) 1%N 7%N 30 100 in
  let loadUptime := fun (_ : NodeID) (_ : ID) => Ok (mkUptimes 9 50) in
  let s' := snd (GetUptime loadUptime s 1%N 8%N) in
  localUptimesCache s !! (1%N, 7%N) = Some (mkUptimes 30 100) /\
  (1%N, 7%N) ∈ modifiedLocalUptimes s' /\
  localUptimesCache s' !! (1%N, 7%N) = None.
Proof.
  cbn zeta.
  set (s := SetUptime (freshState 5) 1%N 7%N 30 100).
  set (loadUptime := fun (_ : NodeID) (_ : ID) => Ok (mkUptimes 9 50)).
  assert (Hm : localUptimesCache s !! (1%N, 8%N) = None)
    by (vm_compute; reflexivity).
  assert (Hl : loadUptime 1%N 8%N = Ok (mkUptimes 9 50)) by reflexivity.
  destruct (GetUptime_database_hit_replaces_node_entries
              loadUptime s 1%N 8%N (mkUptimes 9 50) Hm Hl)
    as (_ & _ & Hgone & _ & Hmod).
  split; [vm_compute; reflexivity|]. split.
  - rewrite Hmod. subst s. cbn. set_solver.
  - apply Hgone. discriminate.
Defined.

(** X26: a successful [GetUptime] or [GetDelegateeReward] is answered from
    memory the next time: the same read on the state it leaves returns the
    same value whatever the database now holds, and changes nothing. *)
Theorem uptime_and_reward_reads_are_remembered s vdrID subnetID :
  (forall loadUptime upTm,
     fst (GetUptime loadUptime s vdrID subnetID) = Ok upTm ->
     forall loadUptime',
       let s' := snd (GetUptime loadUptime s vdrID subnetID) in
       GetUptime loadUptime' s' vdrID subnetID = (Ok upTm, s')) /\
  (forall loadReward delegateeReward,
     fst (GetDelegateeReward loadReward s subnetID vdrID) = Ok delegateeReward ->
     forall loadReward',
       let s' := snd (GetDelegateeReward loadReward s subnetID vdrID) in
       GetDelegateeReward loadReward' s' subnetID vdrID
       = (Ok delegateeReward, s')).
Proof.
  split.
  - intros loadUptime upTm H loadUptime' s'. subst s'.
    unfold GetUptime in H |- *.
    destruct (localUptimesCache s !! (vdrID, subnetID)) as [u|] eqn:L.
    + cbn in H |- *. rewrite L. congruence.
    + destruct (loadUptime vdrID subnetID) as [u|e]; [|discriminate H].
      cbn in H |- *. rewrite lookup_insert_eq. congruence.
  - intros loadReward r H loadReward' s'. subst s'.
    unfold GetDelegateeReward in H |- *.
    destruct (delegateeRewardCache s !! (vdrID, subnetID)) as [u|] eqn:L.
    + cbn in H |- *. rewrite L. congruence.
    + destruct (loadReward vdrID subnetID) as [u|e]; [|discriminate H].
      cbn in H |- *. rewrite lookup_insert_eq. congruence.
Qed.

Lemma uptime_and_reward_reads_are_remembered_witness :
  let s := freshState 5 in
  let loadUptime := fun (_ : NodeID) (_ : ID) => Ok (mkUptimes 9 50) in
  fst (GetUptime loadUptime s 1%N 8%N) = Ok (mkUptimes 9 50) /\
  forall loadUptime',
    GetUptime loadUptime' (snd (GetUptime loadUptime s 1%N 8%N)) 1%N 8%N
    = (Ok (mkUptimes 9 50), snd (GetUptime loadUptime s 1%N 8%N)).
Proof.
  cbn zeta. split; [vm_compute; reflexivity|]. intros loadUptime'.
  apply (proj1 (uptime_and_reward_reads_are_remembered (freshState 5) 1%N 8%N)
           (fun _ _ => Ok (mkUptimes 9 50)) (mkUptimes 9 50)).
  vm_compute. reflexivity.
Defined.

(** ** The initialization marker, staged and persisted *)

Lemma shouldInit_Has s :
  shouldInit s
  = (negb (fst (versiondb.Has markerKey (baseDB s))),
     snd (versiondb.Has markerKey (baseDB s))).
Proof.
  unfold shouldInit. fold markerKey.
  destruct (versiondb.Has markerKey (baseDB s)). reflexivity.
Qed.

(** X27: [doneInit] only stages the marker.  On an open base database it
    succeeds, leaves the underlying store as it was, and [shouldInit] then
    answers no; but after an [Abort] on a store that does not hold the
    marker, [shouldInit] answers yes again.  On a closed base database
    both fail with the database's error, and [shouldInit] still reports
    true beside the error. *)
Theorem doneInit_then_shouldInit s :
  (versiondb.closed (baseDB s) = false ->
   snd (doneInit s) = None /\
   versiondb.db (baseDB (fst (doneInit s))) = versiondb.db (baseDB s) /\
   shouldInit (fst (doneInit s)) = (false, None) /\
   (versiondb.db (baseDB s) !! markerKey = None ->
    shouldInit (Abort (fst (doneInit s))) = (true, None))) /\
  (versiondb.closed (baseDB s) = true ->
   doneInit s = (s, Some ErrClosed) /\
   shouldInit s = (true, Some ErrClosed)).
Proof.
  split; intros Hc.
  - rewrite !shouldInit_Has.
    unfold doneInit, sectionPut, versiondb.Put. fold markerKey. rewrite Hc.
    unfold Abort, versiondb.Abort, versiondb.Has.
    cbn [fst snd baseDB set_baseDB versiondb.mem versiondb.db
         versiondb.closed].
    rewrite lookup_insert_eq.
    split; [reflexivity|]. split; [reflexivity|]. split; [reflexivity|].
    intros Hd. rewrite lookup_empty, Hd. reflexivity.
  - rewrite shouldInit_Has.
    unfold doneInit, sectionPut, versiondb.Put, versiondb.Has.
    rewrite Hc. rewrite set_baseDB_id. split; reflexivity.
Qed.

Lemma doneInit_then_shouldInit_witness :
  shouldInit (freshState 5) = (true, None) /\
  shouldInit (fst (doneInit (freshState 5))) = (false, None) /\
  shouldInit (Abort (fst (doneInit (freshState 5)))) = (true, None).
Proof.
  destruct (proj1 (doneInit_then_shouldInit (freshState 5)) eq_refl)
    as (_ & _ & H1 & H2).
  split; [vm_compute; reflexivity|]. split; [exact H1|].
  apply H2. vm_compute. reflexivity.
Defined.

(** ** What a successful [syncGenesis] has checked *)

Lemma syncGenesisValidators_types E vdrTxs : forall s,
  snd (syncGenesisValidators E vdrTxs s) = None ->
  Forall isAddValidatorTx vdrTxs.
Proof.
  induction vdrTxs as [|vdrTx rest IH]; intros s H; [constructor|].
  cbn in H.
  destruct (tx_Unsigned vdrTx) as [? ?|networkID validatorTx|?] eqn:U;
    try discriminate H.
  constructor; [exists networkID, validatorTx; exact U|].
  destruct (GetCurrentSupply E s PrimaryNetworkID) as [currentSupply|e];
    [|discriminate H].
  destruct (safemath.Add64 _ _) as [newCurrentSupply [e|]];
    [discriminate H|].
  destruct (NewCurrentStaker E _ _ _) as [staker|e]; [|discriminate H].
  eapply IH, H.
Qed.

Lemma syncGenesisChains_types chains : forall s,
  snd (syncGenesisChains chains s) = None ->
  Forall (fun tx => exists subnetID,
            tx_Unsigned tx = CreateChainTx (ctx_NetworkID s) subnetID) chains.
Proof.
  induction chains as [|chain rest IH]; intros s H; [constructor|].
  cbn in H.
  destruct (tx_Unsigned chain) as [networkID subnetID|? ?|?] eqn:U;
    try discriminate H.
  destruct (networkID =? ctx_NetworkID s) eqn:N; cbn in H; [|discriminate H].
  apply Z.eqb_eq in N. subst networkID.
  constructor; [exists subnetID; exact U|].
  apply IH in H. exact H.
Qed.

(** X28: [syncGenesis] succeeds only on a well-formed genesis: if it
    returns no error, every transaction of [genesis.Validators] is a
    validator transaction and every transaction of [genesis.Chains]
    creates a chain and carries the network ID of the context. *)
Theorem syncGenesis_success_checks_types E genesisBlk genesis s :
  snd (syncGenesis E genesisBlk genesis s) = None ->
  Forall isAddValidatorTx (gen_Validators genesis) /\
  Forall (fun tx => exists subnetID,
            tx_Unsigned tx = CreateChainTx (ctx_NetworkID s) subnetID)
         (gen_Chains genesis).
Proof.
  unfold syncGenesis. intros H.
  pose proof (syncGenesisHead_base genesisBlk genesis s) as [Hn0 _].
  pose proof (syncGenesisValidators_base E (gen_Validators genesis)
                (syncGenesisHead genesisBlk genesis s)) as [Hn1 _].
  pose proof (syncGenesisValidators_types E (gen_Validators genesis)
                (syncGenesisHead genesisBlk genesis s)) as HV.
  destruct (syncGenesisValidators E (gen_Validators genesis)
              (syncGenesisHead genesisBlk genesis s)) as [s1 [e|]];
    [discriminate H|].
  cbn [fst snd] in *. split; [apply HV; reflexivity|].
  pose proof (syncGenesisChains_types (gen_Chains genesis) s1) as HC.
  destruct (syncGenesisChains (gen_Chains genesis) s1) as [s2 [e|]];
    [discriminate H|].
  rewrite Hn1, Hn0 in HC. apply HC. reflexivity.
Qed.

Lemma syncGenesis_success_checks_types_witness :
  Forall isAddValidatorTx (gen_Validators chainGenesis) /\
  Forall (fun tx => exists subnetID,
            tx_Unsigned tx = CreateChainTx 5 subnetID)
         (gen_Chains chainGenesis).
Proof.
  apply (syncGenesis_success_checks_types (idleCollaborators chainGenesis)
           (mkBlock 42%N 0) chainGenesis (freshState 5)).
  vm_compute. reflexivity.
Defined.

(** ** The supply after the genesis validators *)

Lemma Add64_success a b n :
  uint64 a -> uint64 b ->
  safemath.Add64 a b = (n, None) -> n = a + b /\ uint64 n.
Proof.
  intros Ha Hb H.
  destruct (Z_le_gt_dec (a + b) MaxUint64) as [Hle|Hgt].
  - rewrite Add64_ok in H by assumption. injection H as <-.
    split; [reflexivity | unfold uint64 in *; lia].
  - rewrite Add64_overflow in H by (assumption || lia). discriminate H.
Qed.

(** X29: when the loop of [syncGenesis] over the genesis validators
    succeeds, the staged supply of the primary network is exactly the
    supply it started from plus the sum of the potential rewards it handed
    out, each reward being calculated against the supply raised by the
    rewards before it; the sum did not wrap around: it is within the
    64-bit range. *)
Theorem syncGenesisValidators_supply E vdrTxs :
  (forall stakeDuration stakeAmount currentSupply,
     uint64 (rewards_Calculate E stakeDuration stakeAmount currentSupply)) ->
  forall s currentSupply,
    modifiedSupplies s !! PrimaryNetworkID = Some currentSupply ->
    uint64 currentSupply ->
    snd (syncGenesisValidators E vdrTxs s) = None ->
    modifiedSupplies (fst (syncGenesisValidators E vdrTxs s)) !! PrimaryNetworkID
    = Some (currentSupply + sumZ (genesisRewards E currentSupply vdrTxs)) /\
    uint64 (currentSupply + sumZ (genesisRewards E currentSupply vdrTxs)) /\
    length (genesisRewards E currentSupply vdrTxs) = length vdrTxs.
Proof.
  intros HR.
  induction vdrTxs as [|vdrTx rest IH]; intros s c Hs Hc H.
  - cbn. rewrite Z.add_0_r. auto.
  - cbn [syncGenesisValidators genesisRewards] in H |- *.
    destruct (tx_Unsigned vdrTx) as [? ?|networkID validatorTx|?];
      try discriminate H.
    unfold GetCurrentSupply in H |- *. rewrite Hs in H |- *.
    set (r := rewards_Calculate E
                (vtx_EndTime validatorTx - vtx_StartTime validatorTx)
                (vtx_Weight validatorTx) c) in *.
    destruct (safemath.Add64 c r) as [n [e|]] eqn:A; [discriminate H|].
    destruct (Add64_success c r n Hc (HR _ _ _) A) as [-> Hn].
    destruct (NewCurrentStaker E (tx_ID vdrTx) validatorTx r) as [staker|e];
      [|discriminate H].
    match type of H with
    | snd (syncGenesisValidators E rest ?s1) = None =>
        destruct (IH s1 (c + r)) as (I1 & I2 & I3);
          [apply lookup_insert_eq | exact Hn | exact H |]
    end.
    change (sumZ (r :: genesisRewards E (c + r) rest))
      with (r + sumZ (genesisRewards E (c + r) rest)).
    rewrite Z.add_assoc. cbn [length]. rewrite I3. auto.
Qed.

Lemma syncGenesisValidators_supply_witness :
  let E := flatRewardCollaborators chainGenesis in
  let s := SetCurrentSupply (freshState 5) PrimaryNetworkID 1000 in
  modifiedSupplies (fst (syncGenesisValidators E (gen_Validators chainGenesis) s))
    !! PrimaryNetworkID = Some 1020.
Proof.
  cbn zeta.
  refine (eq_trans
            (proj1 (syncGenesisValidators_supply
                      (flatRewardCollaborators chainGenesis)
                      (gen_Validators chainGenesis) _
                      (SetCurrentSupply (freshState 5) PrimaryNetworkID 1000)
                      1000 _ _ _))
            eq_refl).
  - intros ? ? ?. cbn. unfold uint64, MaxUint64. lia.
  - vm_compute. reflexivity.
  - unfold uint64, MaxUint64. lia.
  - vm_compute. reflexivity.
Defined.

(** ** A failed [init] *)

Lemma syncGenesis_marker E genesisBlk genesis s :
  sections_keep_marker E ->
  same_marker s (fst (syncGenesis E genesisBlk genesis s)).
Proof.
  intros HE. unfold syncGenesis.
  pose proof (syncGenesisHead_base genesisBlk genesis s) as [_ B0].
  pose proof (syncGenesisValidators_base E (gen_Validators genesis)
                (syncGenesisHead genesisBlk genesis s)) as [_ B1].
  destruct (syncGenesisValidators E (gen_Validators genesis)
              (syncGenesisHead genesisBlk genesis s)) as [s1 [e|]];
    cbn [fst] in *; [apply same_marker_baseDB; congruence|].
  pose proof (syncGenesisChains_base (gen_Chains genesis) s1) as [_ B2].
  destruct (syncGenesisChains (gen_Chains genesis) s1) as [s2 [e|]];
    cbn [fst] in *; [apply same_marker_baseDB; congruence|].
  eapply same_marker_trans; [|apply write_marker, HE].
  apply same_marker_baseDB. congruence.
Qed.

Lemma shouldInit_true_open s :
  shouldInit s = (true, None) -> versiondb.closed (baseDB s) = false.
Proof.
  rewrite shouldInit_Has. unfold versiondb.Has.
  destruct (versiondb.closed (baseDB s)); [discriminate | reflexivity].
Qed.

Lemma shouldInit_same_marker s s' :
  same_marker s s' -> shouldInit s' = shouldInit s.
Proof. intros H. rewrite !shouldInit_Has, (Has_same_marker s s' H). reflexivity. Qed.

(** X30: a failed [init] can be tried again.  On a store that does not
    hold the marker and asks for initialization, if [init] returns an
    error, whichever step failed, the state it leaves still asks for
    initialization: the marker becomes visible only when everything,
    including the final [Commit], has succeeded (the sections of [write]
    that are not modelled are assumed to leave the singleton section
    alone). *)
Theorem init_failure_can_be_retried E genesisBytes s :
  sections_keep_marker E ->
  versiondb.db (baseDB s) !! markerKey = None ->
  shouldInit s = (true, None) ->
  snd (init E genesisBytes s) <> None ->
  shouldInit (fst (init E genesisBytes s)) = (true, None).
Proof.
  intros HE Hd Hs Hf. unfold init in Hf |- *.
  destruct (NewApricotCommitBlock E _ 0) as [genesisBlock|e0]; [|exact Hs].
  destruct (genesis_Parse E genesisBytes) as [genesisState|e0]; [|exact Hs].
  pose proof (syncGenesis_marker E genesisBlock genesisState s HE) as M1.
  destruct (syncGenesis E genesisBlock genesisState s) as [s1 [e1|]];
    cbn [fst] in M1.
  { cbn [fst]. rewrite (shouldInit_same_marker _ _ M1). exact Hs. }
  pose proof (shouldInit_true_open s Hs) as Hc.
  destruct M1 as (C1 & _ & D1). rewrite Hc in C1. rewrite Hd in D1.
  unfold doneInit in Hf |- *.
  destruct (sectionPut_open merkleSingletonPrefix initializedKey [] s1 C1)
    as (P1 & P2 & _).
  assert (P3 : versiondb.db (baseDB (fst (sectionPut merkleSingletonPrefix
                                            initializedKey [] s1)))
               = versiondb.db (baseDB s1)).
  { unfold sectionPut, versiondb.Put. rewrite C1. reflexivity. }
  destruct (sectionPut merkleSingletonPrefix initializedKey [] s1)
    as [s2 e2]; cbn [fst snd] in P1, P2, P3. subst e2.
  unfold Commit, CommitBatch in Hf |- *.
  pose proof (write_marker E true (lastAcceptedHeight s2) s2 HE)
    as (W1 & _ & W3).
  destruct (write E true (lastAcceptedHeight s2) s2) as [s3 [e3|]];
    cbn [fst] in W1, W3; rewrite P2 in W1; rewrite P3, D1 in W3.
  - cbn [fst]. rewrite shouldInit_Has. unfold Abort, versiondb.Abort,
      versiondb.Has.
    cbn [baseDB set_baseDB versiondb.mem versiondb.db versiondb.closed].
    rewrite W1, lookup_empty, W3. reflexivity.
  - exfalso. apply Hf. cbv beta iota. unfold versiondb.CommitBatch.
    rewrite W1. cbv beta iota. unfold versiondb.Write. rewrite W1.
    reflexivity.
Qed.

(** The block section fails to write: [init] fails, and the fresh store
    still asks for initialization. *)
Lemma init_failure_can_be_retried_witness :
  let E := failingCollaborators chainGenesis in
  snd (init E [] (freshState 5)) = Some (ErrOther 3) /\
  shouldInit (fst (init E [] (freshState 5))) = (true, None).
Proof.
  cbn zeta. split; [vm_compute; reflexivity|].
  apply (init_failure_can_be_retried (failingCollaborators chainGenesis) []
           (freshState 5)).
  - unfold sections_keep_marker, keeps_marker. cbn.
    repeat split; intros; apply same_marker_refl.
  - vm_compute. reflexivity.
  - vm_compute. reflexivity.
  - vm_compute. discriminate.
Defined.
